(** * Admin search: term classification and query construction

    A shallow embedding of [src/olympia/amo/admin.py] (the search of
    [AMOModelAdmin], its column of known addresses and the choices of the
    date range filter) together with the properties its specification
    states and further properties of the code.

    Conventions of the embedding.
    - A Python [str] is a [string]; a character is its code point, and the
      character classes ([isdigit], [isnumeric], [isspace]) are those of
      Python for the code points below 256.
    - A Python call that may raise is a value of [result]: [Ok v] or
      [Raise e]; [try]/[except] is [try_except], which handles exactly the
      exceptions that are instances of the listed classes.
    - Django's [Q] objects, query sets and model metadata are data: the
      operations the code performs on them are recorded, not executed. *)

From Stdlib Require Import ZArith NArith String Ascii List Bool Lia Zwf.
From Equations Require Import Equations.
Import ListNotations.

Open Scope string_scope.
Open Scope Z_scope.
Open Scope list_scope.

(* ===================================================================== *)
(** * Exceptions and results *)
(* ===================================================================== *)

(** The exception classes that occur in the modelled code.  The two address
    errors are subclasses of [ValueError] in the [ipaddress] module. *)
Inductive exn : Type :=
  | ValueError
  | AddressValueError
  | NetmaskValueError
  | TypeError
  | FieldDoesNotExist.

Definition exn_eqb (a b : exn) : bool :=
  match a, b with
  | ValueError, ValueError
  | AddressValueError, AddressValueError
  | NetmaskValueError, NetmaskValueError
  | TypeError, TypeError
  | FieldDoesNotExist, FieldDoesNotExist => true
  | _, _ => false
  end.

(** [isinstance e cls]: [e] is an instance of the class [cls]. *)
Definition isinstance (e cls : exn) : bool :=
  exn_eqb e cls ||
  match e, cls with
  | AddressValueError, ValueError => true
  | NetmaskValueError, ValueError => true
  | _, _ => false
  end.

Inductive result (A : Type) : Type :=
  | Ok (a : A)
  | Raise (e : exn).

Arguments Ok {A} a.
Arguments Raise {A} e.

Definition bind {A B} (c : result A) (k : A -> result B) : result B :=
  match c with
  | Ok a => k a
  | Raise e => Raise e
  end.

Notation "x <- c ;; k" := (bind c (fun x => k))
  (at level 61, c at next level, right associativity).

(** [try: c except classes: handler] with the normal continuation [on_ok]
    kept inside the [try] block (the code writes [continue] there). *)
Definition try_except {A B} (c : result A) (classes : list exn)
    (on_ok : A -> result B) (handler : result B) : result B :=
  match c with
  | Ok a => on_ok a
  | Raise e => if existsb (isinstance e) classes then handler else Raise e
  end.

Fixpoint mapM {A B} (f : A -> result B) (l : list A) : result (list B) :=
  match l with
  | [] => Ok []
  | x :: xs => y <- f x ;; ys <- mapM f xs ;; Ok (y :: ys)
  end.

Definition raises {A} (c : result A) : Prop := exists e, c = Raise e.

(* ===================================================================== *)
(** * Python strings *)
(* ===================================================================== *)

Module Str.

Definition ord (c : ascii) : N := N_of_ascii c.

(** [str.isspace] on one character (code points below 256). *)
Definition char_isspace (c : ascii) : bool :=
  let n := ord c in
  (((9 <=? n) && (n <=? 13)) || ((28 <=? n) && (n <=? 32))
   || (n =? 133) || (n =? 160))%N.

(** ASCII decimal digits. *)
Definition char_isdecimal (c : ascii) : bool :=
  let n := ord c in ((48 <=? n) && (n <=? 57))%N.

(** [str.isdigit] on one character: decimal digits and the superscript
    digits U+00B2, U+00B3, U+00B9. *)
Definition char_isdigit (c : ascii) : bool :=
  let n := ord c in
  (char_isdecimal c || (n =? 178) || (n =? 179) || (n =? 185))%N.

(** [str.isnumeric] on one character: the digits and the vulgar fractions
    U+00BC to U+00BE. *)
Definition char_isnumeric (c : ascii) : bool :=
  let n := ord c in
  (char_isdigit c || ((188 <=? n) && (n <=? 190)))%N.

Fixpoint all_chars (p : ascii -> bool) (s : string) : bool :=
  match s with
  | EmptyString => true
  | String c s' => p c && all_chars p s'
  end.

Definition nonempty (s : string) : bool :=
  match s with EmptyString => false | String _ _ => true end.

(** Truth value of a list or tuple. *)
Definition nonempty_list {A} (l : list A) : bool :=
  match l with [] => false | _ :: _ => true end.

Definition isdigit (s : string) : bool := nonempty s && all_chars char_isdigit s.
Definition isnumeric (s : string) : bool := nonempty s && all_chars char_isnumeric s.
Definition isascii (s : string) : bool := all_chars (fun c => (ord c <? 128)%N) s.

(** [c in s] for a one-character [c]. *)
Fixpoint contains (c : ascii) (s : string) : bool :=
  match s with
  | EmptyString => false
  | String d s' => Ascii.eqb d c || contains c s'
  end.

(** [s.count(c)]. *)
Fixpoint count (c : ascii) (s : string) : Z :=
  match s with
  | EmptyString => 0
  | String d s' => (if Ascii.eqb d c then 1 else 0) + count c s'
  end.

(** [s.replace(a, b)] for one-character [a] and [b]. *)
Fixpoint replace (a b : ascii) (s : string) : string :=
  match s with
  | EmptyString => EmptyString
  | String d s' => String (if Ascii.eqb d a then b else d) (replace a b s')
  end.

(** [s.split(sep)] for a one-character separator: never empty, and empty
    pieces are kept. *)
Fixpoint split (sep : ascii) (s : string) : list string :=
  match s with
  | EmptyString => [EmptyString]
  | String c s' =>
      if Ascii.eqb c sep then EmptyString :: split sep s'
      else match split sep s' with
           | w :: ws => String c w :: ws
           | [] => [String c EmptyString]
           end
  end.

Definition starts_word (s : string) : bool :=
  match s with
  | EmptyString => false
  | String c _ => negb (char_isspace c)
  end.

(** [s.split()] (or [s.split(None)]): the maximal runs of characters that
    are not whitespace. *)
Fixpoint split_whitespace (s : string) : list string :=
  match s with
  | EmptyString => []
  | String c s' =>
      if char_isspace c then split_whitespace s'
      else if starts_word s' then
             match split_whitespace s' with
             | w :: ws => String c w :: ws
             | [] => [String c EmptyString]
             end
           else String c EmptyString :: split_whitespace s'
  end.

(** [s.split(sep)] where [sep] is [None] or a one-character string. *)
Definition split_opt (sep : option ascii) (s : string) : list string :=
  match sep with
  | Some c => split c s
  | None => split_whitespace s
  end.

Fixpoint lstrip (s : string) : string :=
  match s with
  | EmptyString => EmptyString
  | String c s' => if char_isspace c then lstrip s' else s
  end.

Fixpoint rstrip (s : string) : string :=
  match s with
  | EmptyString => EmptyString
  | String c s' =>
      match rstrip s' with
      | EmptyString => if char_isspace c then EmptyString else String c EmptyString
      | r => String c r
      end
  end.

Definition strip (s : string) : string := lstrip (rstrip s).

(** [s.split('__')]: the separator is matched left to right, without
    overlap. *)
Fixpoint split_dunder (s : string) : list string :=
  match s with
  | EmptyString => [EmptyString]
  | String c s' =>
      match Ascii.eqb c "_", s' with
      | true, String d s'' =>
          if Ascii.eqb d "_" then EmptyString :: split_dunder s''
          else match split_dunder s' with
               | w :: ws => String c w :: ws
               | [] => [String c EmptyString]
               end
      | _, _ =>
          match split_dunder s' with
          | w :: ws => String c w :: ws
          | [] => [String c EmptyString]
          end
      end
  end.

(** [s.startswith(c)] and [s[1:]]. *)
Definition startswith (c : ascii) (s : string) : bool :=
  match s with
  | EmptyString => false
  | String d _ => Ascii.eqb d c
  end.

Definition tail (s : string) : string :=
  match s with
  | EmptyString => EmptyString
  | String _ s' => s'
  end.

(** [sep.join(l)]. *)
Fixpoint join (sep : string) (l : list string) : string :=
  match l with
  | [] => EmptyString
  | [x] => x
  | x :: xs => x ++ sep ++ join sep xs
  end.

(** [int(s, 10)] and [int(s, 16)] on strings already known to consist of
    digits of the base. *)
Definition digit_value (c : ascii) : Z :=
  let n := Z.of_N (ord c) in
  if (48 <=? n) && (n <=? 57) then n - 48
  else if (97 <=? n) && (n <=? 102) then n - 87
  else if (65 <=? n) && (n <=? 70) then n - 55
  else 0.

Fixpoint int_acc (base : Z) (acc : Z) (s : string) : Z :=
  match s with
  | EmptyString => acc
  | String c s' => int_acc base (acc * base + digit_value c) s'
  end.

Definition int (base : Z) (s : string) : Z := int_acc base 0 s.

End Str.

(* ===================================================================== *)
(** * The [ipaddress] module of the Python standard library *)
(* ===================================================================== *)

(** The data of the library and the one algorithm of it that the search
    relies on, [summarize_address_range], follow CPython's [ipaddress.py].
    The two string parsers [ip_address] and [ip_network] are parameters of
    the search code below; [ipaddress.ip_address] and [ipaddress.ip_network]
    are the reference instance used to run it. *)
Module ipaddress.

(** An [IPv4Address] or [IPv6Address]: the version, the address as an
    integer ([_ip]) and, for version 6, the optional zone ([_scope_id]). *)
Record address : Type := Address {
  version : Z;
  ip : Z;
  scope_id : option string
}.

(** An [IPv4Network] or [IPv6Network]. *)
Record network : Type := Network {
  net_version : Z;
  network_address : Z;
  prefixlen : Z
}.

Definition max_prefixlen (v : Z) : Z := if v =? 4 then 32 else 128.
Definition ALL_ONES (v : Z) : Z := 2 ^ max_prefixlen v - 1.

Definition option_string_eqb (a b : option string) : bool :=
  match a, b with
  | None, None => true
  | Some x, Some y => String.eqb x y
  | _, _ => false
  end.

(** [a == b], [a < b] and [a > b] on addresses of one version; [>] is the
    one [functools.total_ordering] derives from [<] and [==]. *)
Definition address_eq (a b : address) : bool :=
  (version a =? version b) && (ip a =? ip b)
  && option_string_eqb (scope_id a) (scope_id b).

Definition address_lt (a b : address) : bool := ip a <? ip b.

Definition address_gt (a b : address) : bool :=
  negb (address_lt a b) && negb (address_eq a b).

Definition hostmask (n : network) : Z :=
  2 ^ (max_prefixlen (net_version n) - prefixlen n) - 1.

Definition broadcast_address (n : network) : Z :=
  Z.lor (network_address n) (hostmask n).

(** [network[0]] and [network[-1]]. *)
Definition network_first (n : network) : address :=
  Address (net_version n) (network_address n) None.

Definition network_last (n : network) : address :=
  Address (net_version n) (broadcast_address n) None.

(** [int.bit_length]. *)
Definition bit_length (n : Z) : Z :=
  if n =? 0 then 0 else Z.log2 (Z.abs n) + 1.

Definition count_righthand_zero_bits (number bits : Z) : Z :=
  if number =? 0 then bits
  else Z.min bits (bit_length (Z.land (Z.lnot number) (number - 1))).

(** The network constructor applied to a pair [(address, prefixlen)] of
    integers, with its three checks: the address fits the version, the
    prefix length is in range, and no host bit is set. *)
Definition network_of_int (v addr prefix : Z) : result network :=
  if (addr <? 0) || (ALL_ONES v <? addr) then Raise AddressValueError
  else if (prefix <? 0) || (max_prefixlen v <? prefix) then Raise NetmaskValueError
  else
    let netmask := Z.lxor (ALL_ONES v) (2 ^ (max_prefixlen v - prefix) - 1) in
    if negb (Z.land addr netmask =? addr) then Raise ValueError
    else Ok (Network v addr prefix).

Definition nbits_of (ip_bits first_int last_int : Z) : Z :=
  Z.min (count_righthand_zero_bits first_int ip_bits)
        (bit_length (last_int - first_int + 1) - 1).

(** The order that ends the [while] loop below: the number of addresses
    left decreases and stays positive.  The proof that it is well founded is
    guarded, so that the loop runs on ranges of any size. *)
#[local] Instance Zwf_wf : WellFounded (Zwf 0) :=
  Acc_intro_generator 10 (Zwf_well_founded 0).

(** The [while] loop of [summarize_address_range]: one network per round,
    the largest block that starts at [first_int], is aligned there and does
    not pass [last_int]. *)
Equations? summarize_loop (v first_int last_int : Z) : result (list network)
  by wf (last_int - first_int + 1) (Zwf 0) :=
  summarize_loop v first_int last_int with Z_le_gt_dec first_int last_int := {
    | left Hle =>
        let ip_bits := max_prefixlen v in
        let nbits := nbits_of ip_bits first_int last_int in
        net <- network_of_int v first_int (ip_bits - nbits) ;;
        if (first_int + Z.shiftl 1 nbits) - 1 =? ALL_ONES v then Ok [net]
        else rest <- summarize_loop v (first_int + Z.shiftl 1 nbits) last_int ;;
             Ok (net :: rest)
    | right _ => Ok []
  }.
Proof.
  assert (Hn : 0 <= nbits_of (max_prefixlen v) first_int last_int).
  { unfold nbits_of, count_righthand_zero_bits, bit_length, max_prefixlen.
    pose proof (Z.log2_nonneg (Z.abs (last_int - first_int + 1))).
    pose proof (Z.log2_nonneg (Z.abs (Z.land (Z.lnot first_int) (first_int - 1)))).
    destruct (v =? 4); destruct (first_int =? 0);
      destruct (last_int - first_int + 1 =? 0) eqn:E;
      destruct (Z.land (Z.lnot first_int) (first_int - 1) =? 0); try lia.
    all: apply Z.eqb_eq in E; lia. }
  rewrite Z.shiftl_1_l. subst nbits ip_bits.
  assert (0 < 2 ^ nbits_of (max_prefixlen v) first_int last_int)
    by (apply Z.pow_pos_nonneg; lia).
  unfold Zwf. lia.
Qed.

(** [summarize_address_range(first, last)], read to the end (the code
    passes the generator to [list.extend]). *)
Definition summarize_address_range (first last : address) : result (list network) :=
  if negb (version first =? version last) then Raise TypeError
  else if address_gt first last then Raise ValueError
  else if (version first =? 4) || (version first =? 6) then
         summarize_loop (version first) (ip first) (ip last)
       else Raise ValueError.

(** ** The string parsers (reference instance) *)

Definition wrap (cls : exn) {A} (c : result A) : result A :=
  match c with
  | Ok a => Ok a
  | Raise e => if isinstance e ValueError then Raise cls else Raise e
  end.

(** [IPv4Address._parse_octet]. *)
Definition parse_octet (octet_str : string) : result Z :=
  if negb (Str.nonempty octet_str) then Raise ValueError
  else if negb (Str.isascii octet_str && Str.isdigit octet_str) then Raise ValueError
  else if (3 <? String.length octet_str)%nat then Raise ValueError
  else if negb (String.eqb octet_str "0") && Str.startswith "0" octet_str
       then Raise ValueError
  else let octet_int := Str.int 10 octet_str in
       if 255 <? octet_int then Raise ValueError else Ok octet_int.

(** [int.from_bytes(octets, 'big')]. *)
Definition from_bytes (octets : list Z) : Z :=
  fold_left (fun acc b => acc * 256 + b) octets 0.

(** [IPv4Address._ip_int_from_string]. *)
Definition v4_int_from_string (ip_str : string) : result Z :=
  if negb (Str.nonempty ip_str) then Raise AddressValueError
  else let octets := Str.split "." ip_str in
       if negb (length octets =? 4)%nat then Raise AddressValueError
       else wrap AddressValueError
              (l <- mapM parse_octet octets ;; Ok (from_bytes l)).

(** [IPv4Address(s)] for a string [s]. *)
Definition IPv4Address (s : string) : result address :=
  if Str.contains "/" s then Raise AddressValueError
  else n <- v4_int_from_string s ;; Ok (Address 4 n None).

Definition char_ishex (c : ascii) : bool :=
  let n := Str.ord c in
  (((48 <=? n) && (n <=? 57)) || ((65 <=? n) && (n <=? 70))
   || ((97 <=? n) && (n <=? 102)))%N.

(** [IPv6Address._parse_hextet]; [int('', 16)] raises [ValueError]. *)
Definition parse_hextet (hextet_str : string) : result Z :=
  if negb (Str.all_chars char_ishex hextet_str) then Raise ValueError
  else if (4 <? String.length hextet_str)%nat then Raise ValueError
  else if negb (Str.nonempty hextet_str) then Raise ValueError
  else Ok (Str.int 16 hextet_str).

(** ['%x' % n]. *)
Definition hex_digit (d : Z) : ascii :=
  ascii_of_N (Z.to_N (if d <? 10 then 48 + d else 87 + d)).

Fixpoint hex_fuel (fuel : nat) (n : Z) (acc : string) : string :=
  match fuel with
  | O => acc
  | S fuel' =>
      let acc' := String (hex_digit (n mod 16)) acc in
      if n / 16 =? 0 then acc' else hex_fuel fuel' (n / 16) acc'
  end.

Definition hex (n : Z) : string := hex_fuel 32 n EmptyString.

(** [s.partition(c)]: the text before the first [c], whether [c] occurs,
    and the text after it. *)
Fixpoint partition (c : ascii) (s : string) : string * bool * string :=
  match s with
  | EmptyString => (EmptyString, false, EmptyString)
  | String d s' =>
      if Ascii.eqb d c then (EmptyString, true, s')
      else let '(a, found, b) := partition c s' in (String d a, found, b)
  end.

(** The search for the index of ['::'] among the inner parts. *)
Definition find_skip_index (parts : list string) : result (option nat) :=
  fold_left
    (fun acc i =>
       skip_index <- acc ;;
       if negb (Str.nonempty (nth i parts "x")) then
         match skip_index with
         | Some _ => Raise AddressValueError
         | None => Ok (Some i)
         end
       else Ok skip_index)
    (seq 1 (length parts - 2)) (Ok None).

Definition parse_hextets (acc : Z) (l : list string) : result Z :=
  fold_left
    (fun acc hextet => ip_int <- acc ;; h <- parse_hextet hextet ;;
                       Ok (Z.lor (Z.shiftl ip_int 16) h))
    l (Ok acc).

(** [IPv6Address._ip_int_from_string]. *)
Definition v6_int_from_string (ip_str : string) : result Z :=
  if negb (Str.nonempty ip_str) then Raise AddressValueError
  else
    let parts := Str.split ":" ip_str in
    if (length parts <? 3)%nat then Raise AddressValueError
    else
      parts <-
        (if Str.contains "." (last parts "")
         then ipv4 <- IPv4Address (last parts "") ;;
              Ok (removelast parts
                    ++ [hex (Z.land (Z.shiftr (ip ipv4) 16) 65535);
                        hex (Z.land (ip ipv4) 65535)])
         else Ok parts) ;;
      if (9 <? length parts)%nat then Raise AddressValueError
      else
        skip_index <- find_skip_index parts ;;
        counts <-
          match skip_index with
          | Some k =>
              let empty_first := negb (Str.nonempty (hd "" parts)) in
              let empty_last := negb (Str.nonempty (last parts "")) in
              let parts_hi := if empty_first then (k - 1)%nat else k in
              let parts_lo := if empty_last then (length parts - k - 1 - 1)%nat
                              else (length parts - k - 1)%nat in
              if empty_first && negb (parts_hi =? 0)%nat then Raise AddressValueError
              else if empty_last && negb (parts_lo =? 0)%nat then Raise AddressValueError
              else if (8 <? parts_hi + parts_lo + 1)%nat then Raise AddressValueError
              else Ok (parts_hi, parts_lo, (8 - (parts_hi + parts_lo))%nat)
          | None =>
              if negb (length parts =? 8)%nat then Raise AddressValueError
              else if negb (Str.nonempty (hd "" parts)) then Raise AddressValueError
              else if negb (Str.nonempty (last parts "")) then Raise AddressValueError
              else Ok (length parts, O, O)
          end ;;
        let '(parts_hi, parts_lo, parts_skipped) := counts in
        wrap AddressValueError
          (hi <- parse_hextets 0 (firstn parts_hi parts) ;;
           parse_hextets (Z.shiftl hi (16 * Z.of_nat parts_skipped))
                         (skipn (length parts - parts_lo) parts)).

(** [IPv6Address(s)] for a string [s], with [_split_scope_id]. *)
Definition IPv6Address (s : string) : result address :=
  if Str.contains "/" s then Raise AddressValueError
  else
    let '(addr, sep, scope) := partition "%" s in
    if sep && (negb (Str.nonempty scope) || Str.contains "%" scope)
    then Raise AddressValueError
    else n <- v6_int_from_string addr ;;
         Ok (Address 6 n (if sep then Some scope else None)).

(** [ipaddress.ip_address(s)]. *)
Definition ip_address (s : string) : result address :=
  try_except (IPv4Address s) [AddressValueError; NetmaskValueError] Ok
    (try_except (IPv6Address s) [AddressValueError; NetmaskValueError] Ok
       (Raise ValueError)).

(** [_prefix_from_prefix_string]. *)
Definition prefix_from_prefix_string (v : Z) (prefixlen_str : string) : result Z :=
  if negb (Str.isascii prefixlen_str && Str.isdigit prefixlen_str)
  then Raise NetmaskValueError
  else let n := Str.int 10 prefixlen_str in
       if max_prefixlen v <? n then Raise NetmaskValueError else Ok n.

(** [_prefix_from_ip_int]. *)
Definition prefix_from_ip_int (v ip_int : Z) : result Z :=
  let trailing_zeroes := count_righthand_zero_bits ip_int (max_prefixlen v) in
  let prefix := max_prefixlen v - trailing_zeroes in
  let leading_ones := Z.shiftr ip_int trailing_zeroes in
  let all_ones := Z.shiftl 1 prefix - 1 in
  if negb (leading_ones =? all_ones) then Raise ValueError else Ok prefix.

(** [_prefix_from_ip_string]: a netmask or a hostmask in dotted form. *)
Definition prefix_from_ip_string (ip_str : string) : result Z :=
  ip_int <- wrap NetmaskValueError (v4_int_from_string ip_str) ;;
  try_except (prefix_from_ip_int 4 ip_int) [ValueError] Ok
    (wrap NetmaskValueError (prefix_from_ip_int 4 (Z.lxor ip_int (ALL_ONES 4)))).

(** [_make_netmask] on the text after the ['/']. *)
Definition make_netmask (v : Z) (arg : string) : result Z :=
  if v =? 4 then
    try_except (prefix_from_prefix_string 4 arg) [NetmaskValueError] Ok
      (prefix_from_ip_string arg)
  else prefix_from_prefix_string v arg.

(** [IPv4Network(s)] and [IPv6Network(s)] with [strict=True]. *)
Definition ip_network_of (v : Z) (address_of : string -> result address)
    (s : string) : result network :=
  let parts := Str.split "/" s in
  if (2 <? length parts)%nat then Raise AddressValueError
  else
    a <- address_of (hd "" parts) ;;
    prefix <- match parts with
              | [_; mask] => make_netmask v mask
              | _ => Ok (max_prefixlen v)
              end ;;
    let netmask := Z.lxor (ALL_ONES v) (2 ^ (max_prefixlen v - prefix) - 1) in
    if negb (Z.land (ip a) netmask =? ip a) then Raise ValueError
    else Ok (Network v (ip a) prefix).

Definition IPv4Network : string -> result network := ip_network_of 4 IPv4Address.
Definition IPv6Network : string -> result network := ip_network_of 6 IPv6Address.

(** [ipaddress.ip_network(s)]. *)
Definition ip_network (s : string) : result network :=
  try_except (IPv4Network s) [AddressValueError; NetmaskValueError] Ok
    (try_except (IPv6Network s) [AddressValueError; NetmaskValueError] Ok
       (Raise ValueError)).

End ipaddress.


(* ===================================================================== *)
(** * Django: Q objects, query sets, model metadata *)
(* ===================================================================== *)

Module django.

Import ipaddress.

(** The values the code passes to lookups. *)
Inductive value : Type :=
  | VStr (s : string)
  | VStrList (l : list string)
  | VAddrList (l : list address)
  | VAddrPair (lo hi : address)
  | VIntList (l : list Z)
  | VBool (b : bool).

(** [models.Q]: the empty [Q()], one keyword lookup, [Q(q)], [a | b] and
    [a & b]. *)
Inductive Q : Type :=
  | Q_empty
  | Q_kw (lookup : string) (v : value)
  | Q_wrap (q : Q)
  | Q_or (a b : Q)
  | Q_and (a b : Q).

(** [bool(q)]: a [Q] is false when it has no children. *)
Definition Q_bool (q : Q) : bool :=
  match q with Q_empty => false | _ => true end.

(** [Q._combine]: an empty operand is dropped. *)
Definition combine (conn : Q -> Q -> Q) (self other : Q) : Q :=
  if negb (Q_bool self) then other
  else if negb (Q_bool other) then self
  else conn self other.

Definition or_ : Q -> Q -> Q := combine Q_or.
Definition and_ : Q -> Q -> Q := combine Q_and.

(** [functools.reduce(f, l)] without initial value. *)
Definition reduce {A} (f : A -> A -> A) (l : list A) : result A :=
  match l with
  | [] => Raise TypeError
  | x :: xs => Ok (fold_left f xs x)
  end.

Inductive expression : Type :=
  | GroupConcat (e : expression) (distinct : bool)
  | Inet6Ntoa (path : string)
  | F (path : string)
  | FilteredRelation (path : string) (condition : Q).

(** A query set is the model it ranges over and the calls made on it so
    far, oldest first.  [annotate], [filter] and [filter_kw] record a call;
    they say which calls the code makes and with what arguments.  What
    Django does when it builds the query from a call (it raises when it
    does not accept a lookup or a value) is not in the record: [Executed],
    further down, has the three methods as functions that return or
    raise. *)
Inductive qs_op : Type :=
  | Annotate (annotations : list (string * expression))
  | FilterQ (q : Q)
  | FilterKw (kwargs : list (string * value)).

Record QuerySet : Type := query_set {
  model : string;
  ops : list qs_op
}.

Definition annotate (annotations : list (string * expression)) (qs : QuerySet) :=
  query_set (model qs) (ops qs ++ [Annotate annotations]).
Definition filter (q : Q) (qs : QuerySet) :=
  query_set (model qs) (ops qs ++ [FilterQ q]).
Definition filter_kw (kwargs : list (string * value)) (qs : QuerySet) :=
  query_set (model qs) (ops qs ++ [FilterKw kwargs]).

Definition is_filter (o : qs_op) : bool :=
  match o with Annotate _ => false | _ => true end.

(** Model metadata: a field has a name, the lookups [get_lookup] knows
    for it, and, when it is a relation ([get_path_info] exists), the model
    the relation leads to. *)
Record field : Type := Field {
  name : string;
  lookups : list string;
  to_opts : option string
}.

Record options : Type := Options {
  pk : string;
  fields : list field
}.

(** [opts.get_field(name)]. *)
Definition get_field (opts : options) (field_name : string) : result field :=
  match find (fun f => String.eqb (name f) field_name) (fields opts) with
  | Some f => Ok f
  | None => Raise FieldDoesNotExist
  end.

(** [field.get_lookup(name)] is not [None]. *)
Definition get_lookup (f : field) (lookup_name : string) : bool :=
  existsb (String.eqb lookup_name) (lookups f).

End django.

(* ===================================================================== *)
(** * [olympia.amo.admin] *)
(* ===================================================================== *)

Import ipaddress django.

(** [AMOModelAdminChangeListSearchForm.clean], on the search field. *)
Definition clean (search_term : string) : string :=
  if Str.contains "," search_term then
    Str.join ","
      (List.filter Str.nonempty (map Str.strip (Str.split "," search_term)))
  else search_term.

(** What [ip_addresses_and_networks_from_query] returns when it does not
    return [None]: the dictionary with keys ['ips'] and ['networks']. *)
Record ips_and_networks : Type := IpsAndNetworks {
  ips : list address;
  networks : list network
}.

(** The attributes of an [AMOModelAdmin] subclass the search reads, with
    the values its [get_search_fields], [get_search_id_field] and
    [get_list_display] hooks return. *)
Record ModelAdmin : Type := {
  search_by_ip_actions : list Z;
  search_by_ip_activity_accessor : string;
  extra_list_display_for_ip_searches : list string;
  minimum_search_terms_to_search_by_id : Z;
  search_fields : list string;
  search_id_field : string;
  list_display : list string;
  opts : options
}.

Section Admin.

(** [ipaddress.ip_address] and [ipaddress.ip_network] on strings. *)
Variable ip_address : string -> result address.
Variable ip_network : string -> result network.

(** The models of the project, by name, and Django's
    [admin.utils.lookup_spawns_duplicates]. *)
Variable registry : string -> options.
Variable admin_utils_lookup_spawns_duplicates : options -> string -> bool.

(** The [for term in search_terms] loop of
    [ip_addresses_and_networks_from_query], with the two lists built so
    far. *)
Fixpoint for_term_in (search_terms : list string) (ips : list address)
    (networks : list network) : result (option ips_and_networks) :=
  match search_terms with
  | [] => Ok (Some (IpsAndNetworks ips networks))
  | term :: rest =>
      if Str.isdigit term then Ok None
      else
        try_except (ip_address term) [ValueError]
          (fun a => for_term_in rest (ips ++ [a]) networks)
        (try_except (ip_network term) [ValueError]
          (fun n => for_term_in rest ips (networks ++ [n]))
        (if Str.count "-" term =? 1 then
           try_except
             (args <- mapM (fun i => ip_address (Str.strip i)) (Str.split "-" term) ;;
              match args with
              | [first; last] => summarize_address_range first last
              | _ => Raise TypeError
              end)
             [ValueError; TypeError]
             (fun nets => for_term_in rest ips (networks ++ nets))
             (Ok None)
         else Ok None))
  end.

Definition ip_addresses_and_networks_from_query (search_term : string)
  : result (option ips_and_networks) :=
  for_term_in (Str.split "," search_term) [] [].

Variable self : ModelAdmin.

(** [get_list_display], given the cleaned search term of the request
    ([None] when the form is not valid). *)
Definition get_list_display (search_query : option string) : result (list string) :=
  match search_query with
  | Some search_term =>
      if Str.nonempty search_term then
        r <- ip_addresses_and_networks_from_query search_term ;;
        match r with
        | Some _ => Ok (list_display self ++ extra_list_display_for_ip_searches self)
        | None => Ok (list_display self)
        end
      else Ok (list_display self)
  | None => Ok (list_display self)
  end.

Definition lookup_spawns_duplicates (opts : options) (lookup_path : string) : bool :=
  let rval := admin_utils_lookup_spawns_duplicates opts lookup_path in
  let lookup_fields := Str.split_dunder lookup_path in
  if existsb (fun field_name => existsb (String.eqb field_name) lookup_fields)
       ["localized_string"; "localized_string_clean"]
  then true else rval.

Definition get_queryset_with_related_ips (queryset : QuerySet)
    (ips_and_networks : option ips_and_networks) : QuerySet * bool :=
  let condition := Q_empty in
  let condition :=
    match ips_and_networks with
    | Some d =>
        let condition :=
          if Str.nonempty_list (ips d) then
            let arg := (search_by_ip_activity_accessor self ++ "__"
                        ++ "iplog__ip_address_binary__in")%string in
            or_ condition (Q_kw arg (VAddrList (ips d)))
          else condition in
        if Str.nonempty_list (networks d) then
          let arg := (search_by_ip_activity_accessor self ++ "__"
                      ++ "iplog__ip_address_binary__range")%string in
          fold_left
            (fun condition network =>
               or_ condition
                   (Q_kw arg (VAddrPair (network_first network) (network_last network))))
            (networks d) condition
        else condition
    | None => condition
    end in
  let annotations :=
    [("activity_ips",
      GroupConcat
        (Inet6Ntoa (search_by_ip_activity_accessor self ++ "__iplog__ip_address_binary")%string)
        true);
     ("activity_ips_ids",
      F (search_by_ip_activity_accessor self ++ "__iplog__id")%string)] in
  let '(condition, annotations) :=
    if Q_bool condition then
      let arg := (search_by_ip_activity_accessor self ++ "__action__in")%string in
      let condition := and_ condition (Q_kw arg (VIntList (search_by_ip_actions self))) in
      (condition,
       annotations ++
       [("activitylog_filtered",
         FilteredRelation (search_by_ip_activity_accessor self ++ "__iplog")%string
           condition)])
    else (condition, annotations) in
  let queryset := annotate annotations queryset in
  let queryset :=
    if Q_bool condition then
      filter_kw [("activity_ips_ids__isnull", VBool false);
                 ("activitylog_filtered__isnull", VBool false)] queryset
    else queryset in
  let may_have_duplicates := false in
  (queryset, may_have_duplicates).

(** The [for path_part in lookup_fields] loop of [construct_search]. *)
Fixpoint for_path_part_in (field_name : string) (lookup_fields : list string)
    (opts : options) (prev_field : option field) : result string :=
  match lookup_fields with
  | [] => Ok (field_name ++ "__icontains")%string
  | path_part :: rest =>
      let path_part := if String.eqb path_part "pk" then pk opts else path_part in
      try_except (get_field opts path_part) [FieldDoesNotExist]
        (fun field =>
           let opts := match to_opts field with
                       | Some m => registry m
                       | None => opts
                       end in
           for_path_part_in field_name rest opts (Some field))
        (if match prev_field with
            | Some f => get_lookup f path_part
            | None => false
            end
         then Ok field_name
         else for_path_part_in field_name rest opts prev_field)
  end.

Definition construct_search (queryset : QuerySet) (field_name : string)
  : result string :=
  if Str.startswith "^" field_name then Ok (Str.tail field_name ++ "__istartswith")%string
  else if Str.startswith "=" field_name then Ok (Str.tail field_name ++ "__iexact")%string
  else if Str.startswith "@" field_name then Ok (Str.tail field_name ++ "__icontains")%string
  else
    let opts := registry (model queryset) in
    let lookup_fields := Str.split_dunder field_name in
    for_path_part_in field_name lookup_fields opts None.

(** The separator and the joining operator chosen from the raw term. *)
Definition separator (search_term : string) : option ascii :=
  if Str.contains "," search_term then Some ","%char else None.

Definition joining_operator (search_term : string) : Q -> Q -> Q :=
  if Str.contains "," search_term then or_ else and_.

(** [search_terms]: the raw term with ['*'] replaced, split on the
    separator. *)
Definition search_terms_of (search_term : string) : list string :=
  Str.split_opt (separator search_term) (Str.replace "*" "%" search_term).

(** The filter for one term: its lookups on all the fields, joined
    with [|]. *)
Definition q_for_this_term (orm_lookups : list string) (bit : string) : result Q :=
  let or_queries := map (fun orm_lookup => Q_kw orm_lookup (VStr bit)) orm_lookups in
  q <- reduce or_ or_queries ;; Ok (Q_wrap q).

Definition get_search_results (queryset : QuerySet) (search_term : string)
  : result (QuerySet * bool) :=
  early <-
    (if Str.nonempty_list (search_by_ip_actions self) then
       ips_and_networks <- ip_addresses_and_networks_from_query search_term ;;
       let '(queryset, may_have_duplicates) :=
         get_queryset_with_related_ips queryset ips_and_networks in
       match ips_and_networks with
       | Some _ => Ok (queryset, may_have_duplicates, true)
       | None => Ok (queryset, may_have_duplicates, false)
       end
     else Ok (queryset, false, false)) ;;
  let '(queryset, may_have_duplicates, returned) := early in
  if returned then Ok (queryset, may_have_duplicates)
  else
    let search_fields := search_fields self in
    if negb (Str.nonempty_list search_fields && Str.nonempty search_term)
    then Ok (queryset, may_have_duplicates)
    else
      let search_terms := search_terms_of search_term in
      let search_id_field := search_id_field self in
      if Str.nonempty search_id_field
         && (minimum_search_terms_to_search_by_id self <=? Z.of_nat (length search_terms))
         && forallb Str.isnumeric search_terms
      then
        let queryset :=
          filter_kw [((search_id_field ++ "__in")%string, VStrList search_terms)]
                    queryset in
        Ok (queryset, may_have_duplicates)
      else
        orm_lookups <- mapM (construct_search queryset) search_fields ;;
        filters <- mapM (q_for_this_term orm_lookups) search_terms ;;
        let may_have_duplicates :=
          may_have_duplicates
          || existsb (lookup_spawns_duplicates (opts self)) orm_lookups in
        match filters with
        | [] => Ok (queryset, may_have_duplicates)
        | _ =>
            q <- reduce (joining_operator search_term) filters ;;
            Ok (filter q queryset, may_have_duplicates)
        end.

End Admin.

(* ===================================================================== *)
(** * [olympia.amo.admin]: the address column and the choices of a filter *)
(* ===================================================================== *)

(** ** [html.escape] and [sorted(set(...))] *)

Module html.

(** [s.replace(c, r)] for a one-character [c]. *)
Fixpoint replace_char (c : ascii) (r : string) (s : string) : string :=
  match s with
  | EmptyString => EmptyString
  | String d s' =>
      if Ascii.eqb d c then (r ++ replace_char c r s')%string
      else String d (replace_char c r s')
  end.

(** The double quote. *)
Definition quote : ascii := ascii_of_nat 34.

(** [html.escape(s)], which Django's [conditional_escape] applies to every
    argument of [format_html] that is not marked safe: the five
    replacements, the ampersand first. *)
Definition escape (s : string) : string :=
  let s := replace_char "&" "&amp;" s in
  let s := replace_char "<" "&lt;" s in
  let s := replace_char ">" "&gt;" s in
  let s := replace_char quote "&quot;" s in
  let s := replace_char "'" "&#x27;" s in
  s.

End html.

(** [sorted(set(l))] on strings: the distinct elements of [l] in increasing
    order, strings being compared by their code points. *)
Fixpoint insert_sorted (x : string) (l : list string) : list string :=
  match l with
  | [] => [x]
  | y :: ys =>
      match String.compare x y with
      | Lt => x :: y :: ys
      | Eq => y :: ys
      | Gt => y :: insert_sorted x ys
      end
  end.

Definition sorted_set (l : list string) : list string :=
  fold_right insert_sorted [] l.

(** ** [AMOModelAdmin.known_ip_adresses] *)

(** [getattr(obj, 'activity_ips', unset)]: the attribute is not set, or it
    is the value of the annotation, [None] or a string. *)
Inductive attribute : Type :=
  | Unset
  | Annotated (activity_ips : option string).

(** [known_ip_adresses(obj)].  When the row carries the annotation its
    value is split on the commas; otherwise the addresses come from a query
    on [IPLog], which is outside this file: [sorted_iplog_addresses] stands
    for what that query and [sorted] give, an exception or the sorted
    addresses, each as [format_html] prints it. *)
Definition known_ip_adresses (sorted_iplog_addresses : result (list string))
    (obj : attribute) : result string :=
  ip_addresses <-
    match obj with
    | Annotated activity_ips =>
        Ok (sorted_set
              (Str.split ","
                 (match activity_ips with
                  | Some s => if Str.nonempty s then s else EmptyString
                  | None => EmptyString
                  end)))
    | Unset => sorted_iplog_addresses
    end ;;
  let contents :=
    Str.join EmptyString
      (map (fun ip => ("<li>" ++ html.escape ip ++ "</li>")%string) ip_addresses) in
  Ok ("<ul>" ++ contents ++ "</ul>")%string.

(** ** [FakeChoicesMixin.choices] and [DateRangeFilter.choices] *)

(** A dictionary with string keys, in insertion order.  [d[k] = v] replaces
    the value of a key that is present and adds a new key at the end. *)
Definition dict (V : Type) : Type := list (string * V).

Fixpoint getitem {V} (k : string) (d : dict V) : option V :=
  match d with
  | [] => None
  | (k', v) :: rest => if String.eqb k' k then Some v else getitem k rest
  end.

Fixpoint setitem {V} (k : string) (v : V) (d : dict V) : dict V :=
  match d with
  | [] => [(k, v)]
  | (k', v') :: rest =>
      if String.eqb k' k then (k', v) :: rest else (k', v') :: setitem k v rest
  end.

(** The second component of a query part: the search query, or the value
    of a parameter of another filter. *)
Inductive part_value (P : Type) : Type :=
  | Query (s : string)
  | Param (p : P).

Arguments Query {P} s.
Arguments Param {P} p.

(** The values of a choice, the dictionary the template of a filter
    receives. *)
Inductive choice_value (P : Type) : Type :=
  | CBool (b : bool)
  | CStr (s : string)
  | CParts (query_parts : list (string * part_value P)).

Arguments CBool {P} b.
Arguments CStr {P} s.
Arguments CParts {P} query_parts.

Definition choice (P : Type) : Type := dict (choice_value P).

(** What the choices read of the change list: its [query] and the
    dictionary [get_filters_params()] returns. *)
Record ChangeList (P : Type) : Type := {
  query : string;
  get_filters_params : dict P
}.

Arguments query {P} _.
Arguments get_filters_params {P} _.

(** [SEARCH_VAR]. *)
Definition SEARCH_VAR : string := "q".

Module FakeChoicesMixin.

(** [choices(changelist)], a generator, as the list of what it yields;
    [None] when [next] finds nothing in [super().choices(changelist)],
    whose choices are [super_choices].  [expected_parameters] is what
    [self.expected_parameters()] returns. *)
Definition choices {P} (expected_parameters : list string)
    (super_choices : list (choice P)) (changelist : ChangeList P)
  : option (list (choice P)) :=
  let search_query_parts :=
    if Str.nonempty (query changelist)
    then [(SEARCH_VAR, Query (query changelist))]
    else [] in
  let filters_query_parts :=
    map (fun kv => (fst kv, Param (snd kv)))
      (List.filter
         (fun kv => negb (existsb (String.eqb (fst kv)) expected_parameters))
         (get_filters_params changelist)) in
  match super_choices with
  | all_choice :: _ =>
      Some [setitem "query_parts"
              (CParts (search_query_parts ++ filters_query_parts)) all_choice]
  | [] => None
  end.

End FakeChoicesMixin.

Module DateRangeFilter.

(** [choices(changelist)]: [super()] is [FakeChoicesMixin], and
    [used_parameters] is the dictionary of the parameters of the filter
    found in the request; [any] of a dictionary looks at its keys. *)
Definition choices {P} (expected_parameters : list string)
    (used_parameters : dict P) (super_choices : list (choice P))
    (changelist : ChangeList P) : option (list (choice P)) :=
  match FakeChoicesMixin.choices expected_parameters super_choices changelist with
  | Some (all_choice :: _) =>
      Some [setitem "selected"
              (CBool (negb (existsb (fun kv => Str.nonempty (fst kv)) used_parameters)))
              all_choice]
  | _ => None
  end.

End DateRangeFilter.

(* ===================================================================== *)
(** * [olympia.amo.admin]: the search with the calls on the query set run *)
(* ===================================================================== *)

(** [get_queryset_with_related_ips] and [get_search_results] once more,
    line by line as above, with the methods of the query set as functions
    that return the new query set or raise, as they do when Django builds
    the query (a value that is not a number given for an integer field, a
    lookup the field does not have).  An exception of a method leaves the
    function, which has no [try] around these calls. *)
Module Executed.

Section Methods.

Variable ip_address : string -> result address.
Variable ip_network : string -> result network.
Variable registry : string -> options.
Variable admin_utils_lookup_spawns_duplicates : options -> string -> bool.

(** The methods [annotate] and [filter] of the query set, [filter] with a
    [Q] and with keyword arguments. *)
Variable qs_annotate : list (string * expression) -> QuerySet -> result QuerySet.
Variable qs_filter : Q -> QuerySet -> result QuerySet.
Variable qs_filter_kw : list (string * value) -> QuerySet -> result QuerySet.

Variable self : ModelAdmin.

Definition get_queryset_with_related_ips (queryset : QuerySet)
    (ips_and_networks : option ips_and_networks) : result (QuerySet * bool) :=
  let condition := Q_empty in
  let condition :=
    match ips_and_networks with
    | Some d =>
        let condition :=
          if Str.nonempty_list (ips d) then
            let arg := (search_by_ip_activity_accessor self ++ "__"
                        ++ "iplog__ip_address_binary__in")%string in
            or_ condition (Q_kw arg (VAddrList (ips d)))
          else condition in
        if Str.nonempty_list (networks d) then
          let arg := (search_by_ip_activity_accessor self ++ "__"
                      ++ "iplog__ip_address_binary__range")%string in
          fold_left
            (fun condition network =>
               or_ condition
                   (Q_kw arg (VAddrPair (network_first network) (network_last network))))
            (networks d) condition
        else condition
    | None => condition
    end in
  let annotations :=
    [("activity_ips",
      GroupConcat
        (Inet6Ntoa (search_by_ip_activity_accessor self ++ "__iplog__ip_address_binary")%string)
        true);
     ("activity_ips_ids",
      F (search_by_ip_activity_accessor self ++ "__iplog__id")%string)] in
  let '(condition, annotations) :=
    if Q_bool condition then
      let arg := (search_by_ip_activity_accessor self ++ "__action__in")%string in
      let condition := and_ condition (Q_kw arg (VIntList (search_by_ip_actions self))) in
      (condition,
       annotations ++
       [("activitylog_filtered",
         FilteredRelation (search_by_ip_activity_accessor self ++ "__iplog")%string
           condition)])
    else (condition, annotations) in
  queryset <- qs_annotate annotations queryset ;;
  queryset <-
    (if Q_bool condition then
       qs_filter_kw [("activity_ips_ids__isnull", VBool false);
                     ("activitylog_filtered__isnull", VBool false)] queryset
     else Ok queryset) ;;
  let may_have_duplicates := false in
  Ok (queryset, may_have_duplicates).

Definition get_search_results (queryset : QuerySet) (search_term : string)
  : result (QuerySet * bool) :=
  early <-
    (if Str.nonempty_list (search_by_ip_actions self) then
       ips_and_networks <-
         ip_addresses_and_networks_from_query ip_address ip_network search_term ;;
       related <- get_queryset_with_related_ips queryset ips_and_networks ;;
       let '(queryset, may_have_duplicates) := related in
       match ips_and_networks with
       | Some _ => Ok (queryset, may_have_duplicates, true)
       | None => Ok (queryset, may_have_duplicates, false)
       end
     else Ok (queryset, false, false)) ;;
  let '(queryset, may_have_duplicates, returned) := early in
  if returned then Ok (queryset, may_have_duplicates)
  else
    let search_fields := search_fields self in
    if negb (Str.nonempty_list search_fields && Str.nonempty search_term)
    then Ok (queryset, may_have_duplicates)
    else
      let search_terms := search_terms_of search_term in
      let search_id_field := search_id_field self in
      if Str.nonempty search_id_field
         && (minimum_search_terms_to_search_by_id self <=? Z.of_nat (length search_terms))
         && forallb Str.isnumeric search_terms
      then
        queryset <-
          qs_filter_kw [((search_id_field ++ "__in")%string, VStrList search_terms)]
                       queryset ;;
        Ok (queryset, may_have_duplicates)
      else
        orm_lookups <- mapM (construct_search registry queryset) search_fields ;;
        filters <- mapM (q_for_this_term orm_lookups) search_terms ;;
        let may_have_duplicates :=
          may_have_duplicates
          || existsb
               (lookup_spawns_duplicates admin_utils_lookup_spawns_duplicates (opts self))
               orm_lookups in
        match filters with
        | [] => Ok (queryset, may_have_duplicates)
        | _ =>
            q <- reduce (joining_operator search_term) filters ;;
            queryset <- qs_filter q queryset ;;
            Ok (queryset, may_have_duplicates)
        end.

End Methods.

End Executed.

(** A field of integers, as the primary key mostly is: [filter] raises
    [ValueError] on a value that [int] does not read.  Of the strings that
    [str.isnumeric] accepts, [int] reads those made of decimal digits. *)
Definition int_reads (s : string) : bool :=
  Str.nonempty s && Str.all_chars Str.char_isdecimal s.

Definition integer_filter_kw (kwargs : list (string * value)) (qs : QuerySet)
  : result QuerySet :=
  if forallb
       (fun kv =>
          match snd kv with
          | VStrList l => forallb int_reads l
          | _ => true
          end)
       kwargs
  then Ok (filter_kw kwargs qs)
  else Raise ValueError.

(* ===================================================================== *)
(** * Vocabulary of the specification *)
(* ===================================================================== *)

(** Every exception [c] can raise is an instance of one of [classes]. *)
Definition raises_only {A} (classes : list exn) (c : result A) : Prop :=
  forall e, c = Raise e -> existsb (isinstance e) classes = true.

(** The documented behaviour of [ip_address] and [ip_network] on strings:
    a string that is not accepted raises [ValueError], and an accepted
    string has a ['.'] or a [':'] in it. *)
Definition raises_ValueError {A} (parse : string -> result A) : Prop :=
  forall s, raises_only [ValueError] (parse s).

Definition needs_separator {A} (parse : string -> result A) : Prop :=
  forall s a, parse s = Ok a ->
    Str.contains "." s || Str.contains ":" s = true.

(** What [ip_address] returns is an address of version 4 or 6 that fits its
    version. *)
Definition valid_address (a : address) : Prop :=
  (version a = 4 \/ version a = 6) /\ 0 <= ip a <= ALL_ONES (version a).

Definition returns_valid_addresses (parse : string -> result address) : Prop :=
  forall s a, parse s = Ok a -> valid_address a.

Section Readings.

Variable ip_address : string -> result address.
Variable ip_network : string -> result network.

(** The three readings of a term, in the order of the specification. *)
Inductive reading : Type :=
  | AsAddress (a : address)
  | AsNetwork (n : network)
  | AsRange (nets : list network).

(** The arguments and the call of the range reading, as the code writes
    them. *)
Definition range_call (term : string) : result (list network) :=
  args <- mapM (fun i => ip_address (Str.strip i)) (Str.split "-" term) ;;
  match args with
  | [first; last] => summarize_address_range first last
  | _ => Raise TypeError
  end.

(** The third reading: exactly one ['-'], both sides addresses, and the
    networks that summarize the range between them. *)
Definition read_as_range (term : string) : option (list network) :=
  if Str.count "-" term =? 1 then
    match Str.split "-" term with
    | [l; r] =>
        match ip_address (Str.strip l), ip_address (Str.strip r) with
        | Ok first, Ok last =>
            match summarize_address_range first last with
            | Ok nets => Some nets
            | Raise _ => None
            end
        | _, _ => None
        end
    | _ => None
    end
  else None.

(** The first reading that succeeds. *)
Definition first_reading (term : string) : option reading :=
  match ip_address term with
  | Ok a => Some (AsAddress a)
  | Raise _ =>
      match ip_network term with
      | Ok n => Some (AsNetwork n)
      | Raise _ => option_map AsRange (read_as_range term)
      end
  end.

Definition addresses_of (r : reading) : list address :=
  match r with AsAddress a => [a] | _ => [] end.

Definition networks_of (r : reading) : list network :=
  match r with AsAddress _ => [] | AsNetwork n => [n] | AsRange nets => nets end.

Fixpoint all_readings (terms : list string) : option (list reading) :=
  match terms with
  | [] => Some []
  | t :: rest =>
      match first_reading t, all_readings rest with
      | Some r, Some rs => Some (r :: rs)
      | _, _ => None
      end
  end.

(** The classification the specification describes: every term has a
    reading, and the addresses and networks are collected in order. *)
Definition classify_spec (terms : list string) : option ips_and_networks :=
  match all_readings terms with
  | Some rs => Some (IpsAndNetworks (flat_map addresses_of rs) (flat_map networks_of rs))
  | None => None
  end.

End Readings.

(** ** Blocks of addresses *)

(** [x] is an address of the network [n]. *)
Definition in_network (n : network) (x : Z) : Prop :=
  network_address n <= x <= broadcast_address n.

(** A network of version [v] in CIDR form: a prefix length in range and
    an address with no host bit set. *)
Definition cidr (v : Z) (n : network) : Prop :=
  net_version n = v /\
  0 <= prefixlen n <= max_prefixlen v /\
  0 <= network_address n <= ALL_ONES v /\
  network_address n mod 2 ^ (max_prefixlen v - prefixlen n) = 0.

(** The networks [nets] cover the inclusive range [lo..hi] and nothing
    else. *)
Definition covers (nets : list network) (lo hi : Z) : Prop :=
  forall x, (exists n, In n nets /\ in_network n x) <-> lo <= x <= hi.

(** No aligned block that lies in [F..L] starts before [f] and reaches
    it. *)
Definition no_block_across (F L f : Z) : Prop :=
  forall b j, 0 <= j -> b mod 2 ^ j = 0 -> b < f <= b + 2 ^ j - 1 ->
              F <= b -> b + 2 ^ j - 1 <= L -> False.

(** No aligned block that lies in [F..L] and contains the first address of
    [n] is larger than [n]. *)
Definition maximal_in (F L : Z) (n : network) : Prop :=
  forall b j, 0 <= j -> b mod 2 ^ j = 0 -> F <= b -> b + 2 ^ j - 1 <= L ->
              b <= network_address n <= b + 2 ^ j - 1 ->
              j <= max_prefixlen (net_version n) - prefixlen n.

(** [nets] is a smallest list of networks of version [v] that covers
    [lo..hi]. *)
Definition minimal_cover (v : Z) (nets : list network) (lo hi : Z) : Prop :=
  Forall (cidr v) nets /\ covers nets lo hi /\
  forall nets', Forall (cidr v) nets' -> covers nets' lo hi ->
                (length nets <= length nets')%nat.

(** ** Rows of the address log *)

(** A row of the join of the activity log with its address log: the
    address of the event and its action code. *)
Record log_row : Type := LogRow {
  row_address : address;
  row_action : Z
}.

Fixpoint strip_prefix (p s : string) : option string :=
  match p, s with
  | EmptyString, _ => Some s
  | String a p', String b s' => if Ascii.eqb a b then strip_prefix p' s' else None
  | String _ _, EmptyString => None
  end.

Definition same_address (a b : address) : bool :=
  (version a =? version b) && (ip a =? ip b).

(** The lookups of the condition on a row, as the ORM documents them:
    [__in] is membership and [__range] is SQL [BETWEEN], which includes
    both bounds.  Two addresses of one version are compared by their
    integers.  How the database compares the address of a row with the
    bounds of a network of the other version is not in the source; here
    such a row is not in the range, and the properties that speak of the
    rows a range finds are stated of the rows of the version of the
    range. *)
Definition holds_kw (accessor : string) (row : log_row) (lookup : string)
    (v : value) : bool :=
  match strip_prefix accessor lookup with
  | Some rest =>
      if String.eqb rest "__iplog__ip_address_binary__in" then
        match v with
        | VAddrList l => existsb (same_address (row_address row)) l
        | _ => false
        end
      else if String.eqb rest "__iplog__ip_address_binary__range" then
        match v with
        | VAddrPair lo hi =>
            (version lo =? version (row_address row))
            && (ip lo <=? ip (row_address row))
            && (ip (row_address row) <=? ip hi)
        | _ => false
        end
      else if String.eqb rest "__action__in" then
        match v with
        | VIntList l => existsb (Z.eqb (row_action row)) l
        | _ => false
        end
      else false
  | None => false
  end.

Fixpoint holds (accessor : string) (row : log_row) (q : Q) : bool :=
  match q with
  | Q_empty => true
  | Q_kw lookup v => holds_kw accessor row lookup v
  | Q_wrap q => holds accessor row q
  | Q_or a b => holds accessor row a || holds accessor row b
  | Q_and a b => holds accessor row a && holds accessor row b
  end.

(** The predicate of an address search, with the range test on a network
    either closed or half-open at the last address. *)
Definition in_block (closed : bool) (x : address) (n : network) : bool :=
  (net_version n =? version x)
  && (network_address n <=? ip x)
  && (if closed then ip x <=? broadcast_address n else ip x <? broadcast_address n).

Definition ip_predicate (closed : bool) (actions : list Z) (d : ips_and_networks)
    (row : log_row) : bool :=
  (existsb (same_address (row_address row)) (ips d)
   || existsb (in_block closed (row_address row)) (networks d))
  && existsb (Z.eqb (row_action row)) actions.

(** The characters of a query whose terms are all numeric. *)
Definition numeric_query_char (c : ascii) : bool :=
  Str.char_isnumeric c || Str.char_isspace c || Ascii.eqb c ",".

(** ** The condition of an address search *)

(** The condition [get_queryset_with_related_ips] builds from the addresses
    and the networks, before the restriction to the allowed actions. *)
Definition ip_condition (self : ModelAdmin) (d : ips_and_networks) : Q :=
  let condition :=
    if Str.nonempty_list (ips d) then
      Q_kw (search_by_ip_activity_accessor self ++ "__iplog__ip_address_binary__in")
        (VAddrList (ips d))
    else Q_empty in
  fold_left
    (fun condition network =>
       or_ condition
         (Q_kw (search_by_ip_activity_accessor self
                ++ "__iplog__ip_address_binary__range")
            (VAddrPair (network_first network) (network_last network))))
    (networks d) condition.

(** The condition of the filtered relation. *)
Definition filtered_condition (self : ModelAdmin) (d : ips_and_networks) : Q :=
  and_ (ip_condition self d)
    (Q_kw (search_by_ip_activity_accessor self ++ "__action__in")
       (VIntList (search_by_ip_actions self))).

(** ** Search modes *)

(** The query set after [get_queryset_with_related_ips] ran for a query
    that is not an address search: two annotations, no filter. *)
Definition with_ip_annotations (self : ModelAdmin) (qs : QuerySet) : QuerySet :=
  annotate
    [("activity_ips",
      GroupConcat
        (Inet6Ntoa (search_by_ip_activity_accessor self ++ "__iplog__ip_address_binary")%string)
        true);
     ("activity_ips_ids",
      F (search_by_ip_activity_accessor self ++ "__iplog__id")%string)] qs.

(** The query set the keyword search starts from. *)
Definition keyword_base (self : ModelAdmin) (qs : QuerySet) : QuerySet :=
  if Str.nonempty_list (search_by_ip_actions self) then with_ip_annotations self qs
  else qs.

(** The query is not searched by address: the search by address is off, or
    the classification returned [None]. *)
Definition not_ip_search (ip_address : string -> result address)
    (ip_network : string -> result network) (self : ModelAdmin)
    (search_term : string) : Prop :=
  search_by_ip_actions self = []
  \/ ip_addresses_and_networks_from_query ip_address ip_network search_term = Ok None.

(** The query is searched by id: an id field, enough terms, all numeric. *)
Definition is_id_search (self : ModelAdmin) (search_term : string) : bool :=
  Str.nonempty (search_id_field self)
  && (minimum_search_terms_to_search_by_id self
      <=? Z.of_nat (length (search_terms_of search_term)))
  && forallb Str.isnumeric (search_terms_of search_term).

(** The predicate of one term: its lookups on the fields, joined by OR. *)
Definition any_field (orm_lookups : list string) (bit : string) : Q :=
  match map (fun orm_lookup => Q_kw orm_lookup (VStr bit)) orm_lookups with
  | [] => Q_empty
  | q :: rest => Q_wrap (fold_left Q_or rest q)
  end.

(** The predicates of the terms joined by [conn], applied as a filter when
    there is at least one term. *)
Definition filter_joined (conn : Q -> Q -> Q) (filters : list Q) (qs : QuerySet)
  : QuerySet :=
  match filters with
  | [] => qs
  | q :: rest => filter (fold_left conn rest q) qs
  end.

(** A lookup path names a translation field. *)
Definition names_translation (lookup_path : string) : bool :=
  existsb (String.eqb "localized_string") (Str.split_dunder lookup_path)
  || existsb (String.eqb "localized_string_clean") (Str.split_dunder lookup_path).

(** The walk of a field path through the relations: a segment that is a
    field of the model reached so far becomes the previous field, and leads
    to the related model when it is a relation; any other segment leaves
    the walk where it is. *)
Fixpoint walk (registry : string -> options) (opts : options)
    (prev_field : option field) (path : list string)
  : options * option field :=
  match path with
  | [] => (opts, prev_field)
  | path_part :: rest =>
      let path_part := if String.eqb path_part "pk" then pk opts else path_part in
      match get_field opts path_part with
      | Ok f =>
          walk registry
            (match to_opts f with Some m => registry m | None => opts end)
            (Some f) rest
      | Raise _ => walk registry opts prev_field rest
      end
  end.

(** The segment is not a field of the model reached but a lookup of the
    previous field. *)
Definition is_lookup_of_previous (opts : options) (prev_field : option field)
    (path_part : string) : bool :=
  let path_part := if String.eqb path_part "pk" then pk opts else path_part in
  match get_field opts path_part with
  | Ok _ => false
  | Raise _ =>
      match prev_field with
      | Some f => get_lookup f path_part
      | None => false
      end
  end.

(** A segment of the path is used as a lookup somewhere along the walk
    from a given state: at the point the walk has reached, it is not a
    field but a lookup of the previous field. *)
Definition lookup_from (registry : string -> options) (opts : options)
    (prev_field : option field) (path : list string) : Prop :=
  exists before path_part after,
    path = before ++ path_part :: after
    /\ is_lookup_of_previous (fst (walk registry opts prev_field before))
         (snd (walk registry opts prev_field before)) path_part = true.

(** The field path includes a lookup. *)
Definition includes_lookup (registry : string -> options) (opts : options)
    (path : list string) : Prop :=
  lookup_from registry opts None path.

(** ** A sample configuration *)

Definition sample_user : options :=
  Options "id"
    [Field "id" ["exact"; "in"] None;
     Field "email" ["exact"; "iexact"; "icontains"] None;
     Field "addons" ["exact"] (Some "addon")].

Definition sample_addon : options :=
  Options "id"
    [Field "id" ["exact"] None;
     Field "name" ["exact"] (Some "translation")].

Definition sample_translation : options :=
  Options "autoid"
    [Field "autoid" [] None;
     Field "localized_string" ["exact"; "icontains"] None].

Definition sample_registry (m : string) : options :=
  if String.eqb m "user" then sample_user
  else if String.eqb m "addon" then sample_addon
  else sample_translation.

(** Stands for Django's [lookup_spawns_duplicates]: of the sample fields
    only [addons] has several rows for one user. *)
Definition sample_spawns (_ : options) (lookup_path : string) : bool :=
  match Str.split_dunder lookup_path with
  | first :: _ => String.eqb first "addons"
  | [] => false
  end.

(** An admin with the defaults of [AMOModelAdmin] (no search by address)
    and one with the search by address switched on. *)
Definition default_admin (fields : list string) : ModelAdmin :=
  {| search_by_ip_actions := [];
     search_by_ip_activity_accessor := "activitylog";
     extra_list_display_for_ip_searches := ["known_ip_adresses"];
     minimum_search_terms_to_search_by_id := 2;
     search_fields := fields;
     search_id_field := "pk";
     list_display := ["email"];
     opts := sample_user |}.

Definition ip_admin (fields : list string) : ModelAdmin :=
  {| search_by_ip_actions := [1; 2];
     search_by_ip_activity_accessor := "activitylog";
     extra_list_display_for_ip_searches := ["known_ip_adresses"];
     minimum_search_terms_to_search_by_id := 2;
     search_fields := fields;
     search_id_field := "pk";
     list_display := ["email"];
     opts := sample_user |}.

Definition users : QuerySet := query_set "user" [].

(** ** The terms of a cleaned query *)

(** What the search form keeps of a query with commas: the pieces between
    the commas, stripped, the empty ones left out. *)
Definition cleaned_terms (search_term : string) : list string :=
  List.filter Str.nonempty (map Str.strip (Str.split "," search_term)).

(** The first and the last character of a string are not whitespace. *)
Definition starts_clean (s : string) : bool :=
  match s with
  | EmptyString => true
  | String c _ => negb (Str.char_isspace c)
  end.

Fixpoint ends_clean (s : string) : bool :=
  match s with
  | EmptyString => true
  | String c EmptyString => negb (Str.char_isspace c)
  | String _ s' => ends_clean s'
  end.

(** ** What a search adds to a query set *)

Definition is_annotate (o : qs_op) : bool :=
  match o with Annotate _ => true | _ => false end.

(** [qs'] is [qs] with operations added at its end: at most one annotation,
    and after it at most one filter. *)
Definition extends (qs qs' : QuerySet) : Prop :=
  model qs' = model qs
  /\ exists annotations filters,
       ops qs' = ops qs ++ annotations ++ filters
       /\ Forall (fun o => is_annotate o = true) annotations
       /\ Forall (fun o => is_filter o = true) filters
       /\ (length annotations <= 1)%nat /\ (length filters <= 1)%nat.

(** The filter of an address search, on the two annotations. *)
Definition address_filter : qs_op :=
  FilterKw [("activity_ips_ids__isnull", VBool false);
            ("activitylog_filtered__isnull", VBool false)].

(** ** Search fields on a translation *)

(** The last character of a string is an underscore. *)
Fixpoint ends_with_underscore (s : string) : bool :=
  match s with
  | EmptyString => false
  | String c EmptyString => Ascii.eqb c "_"
  | String _ s' => ends_with_underscore s'
  end.

(** A search field without the character that chooses its lookup. *)
Definition without_sigil (field_name : string) : string :=
  if Str.startswith "^" field_name || Str.startswith "=" field_name
     || Str.startswith "@" field_name
  then Str.tail field_name else field_name.

(** ** The list of known addresses *)

(** Each element of the list is below all the elements after it, strings
    being compared by their code points. *)
Fixpoint strictly_increasing (l : list string) : Prop :=
  match l with
  | [] => True
  | x :: rest =>
      Forall (fun y => String.compare x y = Lt) rest /\ strictly_increasing rest
  end.

(** An item of the list with the given text between its tags. *)
Definition list_item (body : string) : string := ("<li>" ++ body ++ "</li>")%string.

(** The text has none of the characters that open or close a tag or a
    quoted attribute value. *)
Definition markup_free (body : string) : Prop :=
  Str.contains "<" body = false /\ Str.contains ">" body = false
  /\ Str.contains html.quote body = false /\ Str.contains "'" body = false.

(** ** Queries put together *)

(** The classifications of two queries put together: both are address
    searches, and the addresses and networks of the second follow those of
    the first. *)
Definition both (r1 r2 : option ips_and_networks) : option ips_and_networks :=
  match r1, r2 with
  | Some d1, Some d2 =>
      Some (IpsAndNetworks (ips d1 ++ ips d2) (networks d1 ++ networks d2))
  | _, _ => None
  end.

(** ** Numeric strings that are not numbers *)

(** The one-character strings of U+00BD and U+00BE, the fractions one half
    and three quarters: [str.isnumeric] accepts them, [int] does not. *)
Definition one_half : string := String (ascii_of_nat 189) EmptyString.
Definition three_quarters : string := String (ascii_of_nat 190) EmptyString.

(* ===================================================================== *)
(** * Facts about the string operations *)
(* ===================================================================== *)

Module StrFacts.
Import Str.

Lemma split_not_nil sep s : split sep s <> [].
Proof.
  destruct s as [|c s]; simpl; [discriminate|].
  destruct (Ascii.eqb c sep); [discriminate|].
  destruct (split sep s); discriminate.
Qed.

Lemma split_length_count sep s :
  Z.of_nat (length (split sep s)) = count sep s + 1.
Proof.
  induction s as [|c s IH]; cbn [split count]; [reflexivity|].
  destruct (Ascii.eqb c sep).
  - cbn [length]. lia.
  - pose proof (split_not_nil sep s) as Hne.
    destruct (split sep s) eqn:E; [contradiction|]. cbn [length] in *. lia.
Qed.

Lemma count_nonneg c s : 0 <= count c s.
Proof.
  induction s as [|d s IH]; cbn [count]; [lia|]. destruct (Ascii.eqb d c); lia.
Qed.

Lemma count_zero_contains c s : count c s = 0 <-> contains c s = false.
Proof.
  induction s as [|d s IH]; cbn [count contains]; [tauto|].
  pose proof (count_nonneg c s).
  destruct (Ascii.eqb d c); cbn [orb].
  - split; [lia | discriminate].
  - rewrite <- IH. split; lia.
Qed.

Lemma contains_false_split sep s : contains sep s = false -> split sep s = [s].
Proof.
  induction s as [|c s IH]; simpl; [reflexivity|].
  destruct (Ascii.eqb c sep); simpl; [discriminate|].
  intros H. rewrite (IH H). reflexivity.
Qed.

Lemma split_length_ge_2_contains sep s :
  (2 <= length (split sep s))%nat -> contains sep s = true.
Proof.
  intros H. destruct (contains sep s) eqn:E; [reflexivity|].
  rewrite (contains_false_split _ _ E) in H. simpl in H. lia.
Qed.

(** The pieces of a split: every character of a piece is a character of
    the string, and every character of the string is in a piece or is the
    separator. *)
Lemma all_chars_split p sep s :
  all_chars p s = true -> Forall (fun t => all_chars p t = true) (split sep s).
Proof.
  induction s as [|c s IH]; simpl; intros H.
  - constructor; [reflexivity | constructor].
  - apply andb_true_iff in H. destruct H as [Hc Hs]. specialize (IH Hs).
    destruct (Ascii.eqb c sep).
    + constructor; [reflexivity | exact IH].
    + destruct (split sep s) as [|w ws]; inversion IH; subst.
      * constructor; [simpl; rewrite Hc; reflexivity | constructor].
      * constructor; [simpl; rewrite Hc; assumption | assumption].
Qed.

Lemma split_all_chars p sep s :
  Forall (fun t => all_chars p t = true) (split sep s) ->
  all_chars (fun c => p c || Ascii.eqb c sep) s = true.
Proof.
  induction s as [|c s IH]; simpl; intros H; [reflexivity|].
  destruct (Ascii.eqb c sep) eqn:E.
  - rewrite orb_true_r. simpl. apply IH. inversion H; assumption.
  - pose proof (split_not_nil sep s) as Hne.
    destruct (split sep s) as [|w ws]; [contradiction|].
    inversion H as [|? ? Hw Hws]; subst. simpl in Hw.
    apply andb_true_iff in Hw. destruct Hw as [Hc Hw].
    rewrite Hc. simpl. apply IH. constructor; assumption.
Qed.

Lemma split_whitespace_all_chars p s :
  Forall (fun t => all_chars p t = true) (split_whitespace s) ->
  all_chars (fun c => p c || char_isspace c) s = true.
Proof.
  induction s as [|c s IH]; simpl; intros H; [reflexivity|].
  destruct (char_isspace c) eqn:E.
  - rewrite orb_true_r. simpl. apply IH. exact H.
  - rewrite orb_false_r. destruct (starts_word s) eqn:Ew.
    + destruct (split_whitespace s) as [|w ws] eqn:Es.
      * inversion H as [|? ? Hw _]; subst. simpl in Hw.
        rewrite andb_true_r in Hw. rewrite Hw. simpl. apply IH. constructor.
      * inversion H as [|? ? Hw Hws]; subst. simpl in Hw.
        apply andb_true_iff in Hw. destruct Hw as [Hc Hw].
        rewrite Hc. simpl. apply IH. constructor; assumption.
    + inversion H as [|? ? Hw Hws]; subst. simpl in Hw.
      rewrite andb_true_r in Hw. rewrite Hw. simpl. apply IH. exact Hws.
Qed.

Lemma all_chars_impl (p q : ascii -> bool) s :
  (forall c, p c = true -> q c = true) ->
  all_chars p s = true -> all_chars q s = true.
Proof.
  intros Hpq. induction s as [|c s IH]; simpl; [reflexivity|].
  intros H. apply andb_true_iff in H. destruct H as [Hc Hs].
  rewrite (Hpq _ Hc), (IH Hs). reflexivity.
Qed.

Lemma all_chars_replace p a b s :
  all_chars p (replace a b s) = true ->
  all_chars (fun c => p (if Ascii.eqb c a then b else c)) s = true.
Proof.
  induction s as [|c s IH]; simpl; [reflexivity|].
  intros H. apply andb_true_iff in H. destruct H as [Hc Hs].
  rewrite Hc, (IH Hs). reflexivity.
Qed.

Lemma contains_all_chars c s :
  contains c s = negb (all_chars (fun d => negb (Ascii.eqb d c)) s).
Proof.
  induction s as [|d s IH]; simpl; [reflexivity|].
  rewrite IH. destruct (Ascii.eqb d c); reflexivity.
Qed.

Lemma all_chars_not_contains p c s :
  all_chars p s = true -> p c = false -> contains c s = false.
Proof.
  intros H Hc. rewrite contains_all_chars.
  rewrite (all_chars_impl p (fun d => negb (Ascii.eqb d c))); [reflexivity| |exact H].
  intros d Hd. destruct (Ascii.eqb d c) eqn:E; [|reflexivity].
  apply Ascii.eqb_eq in E. subst. congruence.
Qed.

Lemma contains_replace_other c a b s :
  c <> a -> c <> b -> contains c (replace a b s) = contains c s.
Proof.
  intros Ha Hb. induction s as [|d s IH]; simpl; [reflexivity|].
  rewrite IH. destruct (Ascii.eqb d a) eqn:E.
  - apply Ascii.eqb_eq in E. subst d.
    apply Ascii.eqb_neq in Ha, Hb.
    rewrite Ascii.eqb_sym in Ha. rewrite Ascii.eqb_sym in Hb.
    rewrite Ha, Hb. reflexivity.
  - reflexivity.
Qed.

Lemma not_contains_replaced a b s : a <> b -> contains a (replace a b s) = false.
Proof.
  intros Hab. induction s as [|d s IH]; simpl; [reflexivity|].
  rewrite IH, orb_false_r. destruct (Ascii.eqb d a) eqn:E.
  - apply Ascii.eqb_neq. congruence.
  - exact E.
Qed.

(** A piece of a split contains only characters of the string. *)
Lemma in_split_contains sep d s t :
  In t (split sep s) -> contains d t = true -> contains d s = true.
Proof.
  intros Hin Ht. destruct (contains d s) eqn:E; [reflexivity|].
  rewrite contains_all_chars in E. apply negb_false_iff in E.
  pose proof (all_chars_split _ sep _ E) as HF.
  rewrite Forall_forall in HF. specialize (HF _ Hin).
  rewrite contains_all_chars, HF in Ht. discriminate.
Qed.

Lemma in_split_whitespace_contains d s t :
  In t (split_whitespace s) -> contains d t = true -> contains d s = true.
Proof.
  revert t. induction s as [|c s IH]; simpl; intros t Hin Ht; [contradiction|].
  destruct (char_isspace c).
  - rewrite (IH _ Hin Ht). apply orb_true_r.
  - destruct (starts_word s).
    + destruct (split_whitespace s) as [|w ws].
      * destruct Hin as [<-|[]]. simpl in Ht. rewrite orb_false_r in Ht.
        rewrite Ht. reflexivity.
      * destruct Hin as [<-|Hin].
        -- simpl in Ht. apply orb_true_iff in Ht. destruct Ht as [Ht|Ht].
           ++ rewrite Ht. reflexivity.
           ++ rewrite (IH w (or_introl eq_refl) Ht). apply orb_true_r.
        -- rewrite (IH t (or_intror Hin) Ht). apply orb_true_r.
    + destruct Hin as [<-|Hin].
      * simpl in Ht. rewrite orb_false_r in Ht. rewrite Ht. reflexivity.
      * rewrite (IH _ Hin Ht). apply orb_true_r.
Qed.

Lemma isdigit_isnumeric_char c : char_isdigit c = true -> char_isnumeric c = true.
Proof. unfold char_isnumeric. intros ->. reflexivity. Qed.

Lemma nonempty_true s : nonempty s = true <-> s <> EmptyString.
Proof. destruct s; simpl; split; congruence. Qed.

Lemma nonempty_list_true {A} (l : list A) : nonempty_list l = true <-> l <> [].
Proof. destruct l; simpl; split; congruence. Qed.

Lemma split_whitespace_empty : split_whitespace EmptyString = [].
Proof. reflexivity. Qed.

End StrFacts.

(* ===================================================================== *)
(** * Blocks of addresses: the arithmetic of [summarize_address_range] *)
(* ===================================================================== *)

Module BlockFacts.

Lemma odd_decomposition f :
  0 < f -> exists t q, 0 <= t /\ 0 <= q /\ f = 2 ^ t * (2 * q + 1).
Proof.
  intros Hf. destruct f as [|p|p]; try lia. clear Hf.
  induction p as [p IH|p IH|].
  - exists 0, (Z.pos p). rewrite Pos2Z.inj_xI. cbn [Z.pow]. lia.
  - destruct IH as [t [q [Ht [Hq E]]]]. exists (t + 1), q.
    rewrite Pos2Z.inj_xO, E, Z.pow_add_r by lia. cbn [Z.pow]. lia.
  - exists 0, 0. cbn. lia.
Qed.

Lemma land_odd_odd a b : Z.land (2 * a + 1) (2 * b + 1) = 2 * Z.land a b + 1.
Proof.
  apply Z.bits_inj'. intros n Hn. rewrite Z.land_spec.
  destruct (Z.eq_dec n 0) as [->|Hne].
  - rewrite !Z.testbit_odd_0. reflexivity.
  - replace n with (Z.succ (n - 1)) by lia.
    rewrite !Z.testbit_odd_succ by lia. rewrite Z.land_spec. reflexivity.
Qed.

Lemma land_even_even a b : Z.land (2 * a) (2 * b) = 2 * Z.land a b.
Proof.
  apply Z.bits_inj'. intros n Hn. rewrite Z.land_spec.
  destruct (Z.eq_dec n 0) as [->|Hne].
  - rewrite !Z.testbit_even_0. reflexivity.
  - replace n with (Z.succ (n - 1)) by lia.
    rewrite !Z.testbit_even_succ by lia. rewrite Z.land_spec. reflexivity.
Qed.

Lemma ones_succ t : 0 <= t -> Z.ones (t + 1) = 2 * Z.ones t + 1.
Proof.
  intros Ht. rewrite !Z.ones_equiv, Z.pow_add_r by lia. cbn [Z.pow]. lia.
Qed.

(** The bit trick of [_count_righthand_zero_bits]. *)
Lemma land_lnot_pred t q :
  0 <= t ->
  Z.land (Z.lnot (2 ^ t * (2 * q + 1))) (2 ^ t * (2 * q + 1) - 1) = Z.ones t.
Proof.
  intros Ht. revert q. pattern t. apply natlike_ind; [| |exact Ht]; clear t Ht.
  - intros q. cbn [Z.pow]. rewrite Z.mul_1_l.
    replace (Z.lnot (2 * q + 1)) with (2 * Z.lnot q) by (unfold Z.lnot; lia).
    replace (2 * q + 1 - 1) with (2 * q) by lia.
    rewrite land_even_even, Z.land_comm, Z.land_lnot_diag. reflexivity.
  - intros t Ht IH q. rewrite Z.pow_succ_r by lia.
    replace (Z.lnot (2 * 2 ^ t * (2 * q + 1)))
      with (2 * Z.lnot (2 ^ t * (2 * q + 1)) + 1) by (unfold Z.lnot; lia).
    replace (2 * 2 ^ t * (2 * q + 1) - 1)
      with (2 * (2 ^ t * (2 * q + 1) - 1) + 1) by lia.
    rewrite land_odd_odd, IH. unfold Z.succ. rewrite ones_succ by lia. reflexivity.
Qed.

Lemma bit_length_ones t : 0 <= t -> bit_length (Z.ones t) = t.
Proof.
  intros Ht. unfold bit_length. rewrite Z.ones_equiv.
  destruct (Z.eq_dec t 0) as [->|Hne]; [reflexivity|].
  assert (0 < 2 ^ t) by (apply Z.pow_pos_nonneg; lia).
  assert (2 ^ 1 <= 2 ^ t) by (apply Z.pow_le_mono_r; lia).
  replace (Z.pred (2 ^ t) =? 0) with false by (symmetry; apply Z.eqb_neq; cbn in *; lia).
  rewrite Z.abs_eq by (cbn in *; lia).
  rewrite Z.log2_pred_pow2 by lia. lia.
Qed.

Lemma bit_length_log2 n : 0 < n -> bit_length n - 1 = Z.log2 n.
Proof.
  intros Hn. unfold bit_length.
  replace (n =? 0) with false by (symmetry; apply Z.eqb_neq; lia).
  rewrite Z.abs_eq by lia. lia.
Qed.

(** [count_righthand_zero_bits] counts the trailing zero bits. *)
Lemma count_righthand_zero_bits_spec f bits :
  0 < f < 2 ^ bits -> 0 <= bits ->
  exists q, 0 <= q
    /\ 0 <= count_righthand_zero_bits f bits < bits
    /\ f = 2 ^ count_righthand_zero_bits f bits * (2 * q + 1).
Proof.
  intros Hf Hb. destruct (odd_decomposition f) as [t [q [Ht [Hq E]]]]; [lia|].
  assert (Htb : t < bits).
  { destruct (Z_lt_le_dec t bits) as [|Hge]; [assumption|].
    assert (2 ^ bits <= 2 ^ t) by (apply Z.pow_le_mono_r; lia).
    assert (0 < 2 ^ t) by (apply Z.pow_pos_nonneg; lia). nia. }
  assert (Ec : count_righthand_zero_bits f bits = t).
  { unfold count_righthand_zero_bits.
    replace (f =? 0) with false by (symmetry; apply Z.eqb_neq; lia).
    rewrite E at 1 2. rewrite land_lnot_pred, bit_length_ones by lia. lia. }
  exists q. rewrite Ec. repeat split; try lia.
Qed.

Lemma count_righthand_zero_bits_zero bits : count_righthand_zero_bits 0 bits = bits.
Proof. reflexivity. Qed.

Lemma count_righthand_zero_bits_range f bits :
  0 <= f < 2 ^ bits -> 0 <= bits -> 0 <= count_righthand_zero_bits f bits <= bits.
Proof.
  intros Hf Hb. destruct (Z.eq_dec f 0) as [->|Hne].
  - rewrite count_righthand_zero_bits_zero. lia.
  - destruct (count_righthand_zero_bits_spec f bits) as [q [_ [H _]]]; lia.
Qed.

(** [f] is a multiple of [2 ^ j] exactly for the [j] up to its number of
    trailing zero bits. *)
Lemma aligned_below f bits j :
  0 <= f < 2 ^ bits -> 0 <= bits ->
  0 <= j <= count_righthand_zero_bits f bits -> f mod 2 ^ j = 0.
Proof.
  intros Hf Hb Hj. destruct (Z.eq_dec f 0) as [->|Hne]; [apply Z.mod_0_l; apply Z.pow_nonzero; lia|].
  destruct (count_righthand_zero_bits_spec f bits) as [q [Hq [Hr E]]]; [lia|lia|].
  set (t := count_righthand_zero_bits f bits) in *.
  rewrite E. replace t with (j + (t - j)) by lia. rewrite Z.pow_add_r by lia.
  rewrite <- Z.mul_assoc, Z.mul_comm. apply Z.mod_mul.
  apply Z.pow_nonzero; lia.
Qed.

Lemma aligned_above f bits j :
  0 < f < 2 ^ bits -> 0 <= bits -> 0 <= j ->
  f mod 2 ^ j = 0 -> j <= count_righthand_zero_bits f bits.
Proof.
  intros Hf Hb Hj Hmod.
  destruct (count_righthand_zero_bits_spec f bits) as [q [Hq [Hr E]]]; [lia|lia|].
  set (t := count_righthand_zero_bits f bits) in *.
  destruct (Z_le_gt_dec j t) as [|Hgt]; [assumption|exfalso].
  apply Z.mod_divide in Hmod; [|apply Z.pow_nonzero; lia].
  destruct Hmod as [m Hm].
  replace j with (t + 1 + (j - t - 1)) in Hm by lia.
  rewrite !Z.pow_add_r in Hm by lia. change (2 ^ 1) with 2 in Hm.
  assert (H2t : 0 < 2 ^ t) by (apply Z.pow_pos_nonneg; lia).
  assert (Eq : 2 * q + 1 = 2 * (m * 2 ^ (j - t - 1))).
  { apply (Z.mul_reg_l _ _ (2 ^ t)); [lia|]. rewrite <- E, Hm. ring. }
  lia.
Qed.

Lemma max_prefixlen_pos v : 0 < max_prefixlen v.
Proof. unfold max_prefixlen. destruct (v =? 4); lia. Qed.

Lemma ALL_ONES_ones v : ALL_ONES v = Z.ones (max_prefixlen v).
Proof. unfold ALL_ONES. rewrite Z.ones_equiv. lia. Qed.

Lemma testbit_aligned_low f k i :
  0 <= k -> f mod 2 ^ k = 0 -> i < k -> Z.testbit f i = false.
Proof.
  intros Hk Hmod Hi. rewrite <- (Z.mod_pow2_bits_low f k i Hi), Hmod.
  apply Z.bits_0.
Qed.

Lemma testbit_small_high f bits i :
  0 <= f < 2 ^ bits -> 0 <= bits <= i -> Z.testbit f i = false.
Proof.
  intros Hf Hi. rewrite <- (Z.mod_small f (2 ^ bits)) by lia.
  apply Z.mod_pow2_bits_high. lia.
Qed.

(** An aligned address passes the host-bit check of the constructor. *)
Lemma network_of_int_ok v f k :
  0 <= f <= ALL_ONES v -> 0 <= k <= max_prefixlen v -> f mod 2 ^ k = 0 ->
  network_of_int v f (max_prefixlen v - k) = Ok (Network v f (max_prefixlen v - k)).
Proof.
  intros Hf Hk Hmod. unfold network_of_int.
  replace ((f <? 0) || (ALL_ONES v <? f)) with false
    by (symmetry; apply orb_false_iff; split; [apply Z.ltb_ge | apply Z.ltb_ge]; lia).
  replace ((max_prefixlen v - k <? 0) || (max_prefixlen v <? max_prefixlen v - k))
    with false
    by (symmetry; apply orb_false_iff; split; [apply Z.ltb_ge | apply Z.ltb_ge]; lia).
  cbv zeta.
  replace (max_prefixlen v - (max_prefixlen v - k)) with k by lia.
  assert (E : Z.land f (Z.lxor (ALL_ONES v) (2 ^ k - 1)) = f).
  { rewrite ALL_ONES_ones. replace (2 ^ k - 1) with (Z.ones k)
      by (rewrite Z.ones_equiv; lia).
    apply Z.bits_inj'. intros i Hi. rewrite Z.land_spec, Z.lxor_spec.
    destruct (Z_lt_le_dec i k) as [Hlt|Hge].
    - rewrite (testbit_aligned_low f k i) by lia. reflexivity.
    - rewrite (Z.ones_spec_high k i) by lia.
      destruct (Z_lt_le_dec i (max_prefixlen v)) as [Hlt|Hge'].
      + rewrite Z.ones_spec_low by lia. cbn. apply andb_true_r.
      + rewrite (testbit_small_high f (max_prefixlen v) i); [reflexivity| |lia].
        unfold ALL_ONES in Hf. lia. }
  rewrite E, Z.eqb_refl. reflexivity.
Qed.

(** The last address of an aligned block. *)
Lemma lor_aligned f k :
  0 <= k -> f mod 2 ^ k = 0 -> Z.lor f (2 ^ k - 1) = f + 2 ^ k - 1.
Proof.
  intros Hk Hmod.
  replace (2 ^ k - 1) with (Z.ones k) by (rewrite Z.ones_equiv; lia).
  assert (Hl : Z.land f (Z.ones k) = 0) by (rewrite Z.land_ones by lia; exact Hmod).
  rewrite <- (Z.lxor_lor _ _ Hl), <- (Z.add_nocarry_lxor _ _ Hl).
  rewrite Z.ones_equiv. lia.
Qed.

Lemma cidr_broadcast v n :
  cidr v n ->
  broadcast_address n = network_address n + 2 ^ (max_prefixlen v - prefixlen n) - 1.
Proof.
  intros [Hv [Hp [Ha Hmod]]]. unfold broadcast_address, hostmask. rewrite Hv.
  apply lor_aligned; [lia | exact Hmod].
Qed.

Lemma in_network_cidr v n x :
  cidr v n ->
  in_network n x <->
  network_address n <= x <= network_address n + 2 ^ (max_prefixlen v - prefixlen n) - 1.
Proof. intros H. unfold in_network. rewrite (cidr_broadcast v n H). reflexivity. Qed.

(** Two aligned blocks that share an address are nested. *)
Lemma laminar a i b j x :
  0 <= i <= j -> a mod 2 ^ i = 0 -> b mod 2 ^ j = 0 ->
  a <= x < a + 2 ^ i -> b <= x < b + 2 ^ j ->
  b <= a /\ a + 2 ^ i <= b + 2 ^ j.
Proof.
  intros Hij Ha Hb Hxa Hxb.
  assert (Hc : 0 < 2 ^ i) by (apply Z.pow_pos_nonneg; lia).
  assert (Hd : 0 < 2 ^ (j - i)) by (apply Z.pow_pos_nonneg; lia).
  assert (Ej : 2 ^ j = 2 ^ i * 2 ^ (j - i))
    by (rewrite <- Z.pow_add_r by lia; f_equal; lia).
  apply Z.mod_divide in Ha; [|lia]. destruct Ha as [u Hu].
  apply Z.mod_divide in Hb; [|rewrite Ej; nia]. destruct Hb as [w Hw].
  rewrite Ej in *. set (c := 2 ^ i) in *. set (d := 2 ^ (j - i)) in *.
  subst a b.
  assert (H1 : w * d < u + 1) by nia.
  assert (H2 : u < w * d + d) by nia.
  split; nia.
Qed.

(** The facts about the number of bits of one round. *)
Lemma nbits_of_spec v f l :
  0 <= f <= l -> l <= ALL_ONES v ->
  let k := nbits_of (max_prefixlen v) f l in
  0 <= k <= max_prefixlen v
  /\ f mod 2 ^ k = 0
  /\ f + 2 ^ k - 1 <= l
  /\ (forall j, 0 <= j -> k < j -> f mod 2 ^ j = 0 -> l < f + 2 ^ j - 1).
Proof.
  intros Hfl Hl. cbv zeta. unfold nbits_of.
  pose proof (max_prefixlen_pos v) as HB.
  assert (Hf : 0 <= f < 2 ^ max_prefixlen v) by (unfold ALL_ONES in Hl; lia).
  pose proof (count_righthand_zero_bits_range f (max_prefixlen v) Hf ltac:(lia)) as Htz.
  rewrite bit_length_log2 by lia.
  pose proof (Z.log2_nonneg (l - f + 1)) as Hlg.
  destruct (Z.log2_spec (l - f + 1)) as [Hlo Hhi]; [lia|].
  set (tz := count_righthand_zero_bits f (max_prefixlen v)) in *.
  set (lg := Z.log2 (l - f + 1)) in *.
  assert (Hk : 0 <= Z.min tz lg <= tz) by lia.
  split; [lia|]. split; [apply (aligned_below f (max_prefixlen v)); lia|].
  split.
  - assert (2 ^ Z.min tz lg <= 2 ^ lg) by (apply Z.pow_le_mono_r; lia). lia.
  - intros j Hj Hkj Hmod.
    destruct (Z_le_gt_dec (lg + 1) j) as [Hge|Hlt].
    + assert (2 ^ (lg + 1) <= 2 ^ j) by (apply Z.pow_le_mono_r; lia).
      unfold Z.succ in Hhi. lia.
    + (* then tz < j, so [f] is zero and [j] exceeds the width *)
      assert (Htzj : tz < j) by lia.
      destruct (Z.eq_dec f 0) as [E0|Hne].
      * subst f. subst tz. rewrite count_righthand_zero_bits_zero in *.
        assert (2 ^ lg <= l - 0 + 1) by lia.
        assert (l + 1 <= 2 ^ max_prefixlen v) by (unfold ALL_ONES in Hl; lia).
        assert (2 ^ max_prefixlen v < 2 ^ j) by (apply Z.pow_lt_mono_r; lia).
        lia.
      * pose proof (aligned_above f (max_prefixlen v) j ltac:(lia) ltac:(lia) Hj Hmod).
        subst tz. lia.
Qed.

End BlockFacts.

(* ===================================================================== *)
(** * Exceptions of the library calls *)
(* ===================================================================== *)

Lemma raises_only_Ok {A} classes (a : A) : raises_only classes (Ok a).
Proof. intros e H. discriminate. Qed.

Lemma raises_only_Raise {A} classes e :
  existsb (isinstance e) classes = true -> raises_only classes (@Raise A e).
Proof. intros H e' [= <-]. exact H. Qed.

Lemma raises_only_bind {A B} classes (c : result A) (k : A -> result B) :
  raises_only classes c -> (forall a, raises_only classes (k a)) ->
  raises_only classes (bind c k).
Proof.
  intros Hc Hk e. destruct c as [a|e']; simpl.
  - apply Hk.
  - intros [= <-]. apply Hc. reflexivity.
Qed.

Lemma raises_only_mapM {A B} classes (f : A -> result B) l :
  (forall a, raises_only classes (f a)) -> raises_only classes (mapM f l).
Proof.
  intros Hf. induction l as [|x xs IH]; simpl.
  - apply raises_only_Ok.
  - apply raises_only_bind; [apply Hf|]. intros y.
    apply raises_only_bind; [exact IH|]. intros ys. apply raises_only_Ok.
Qed.

Lemma raises_only_weaken {A} (c : result A) classes classes' :
  (forall e, existsb (isinstance e) classes = true ->
             existsb (isinstance e) classes' = true) ->
  raises_only classes c -> raises_only classes' c.
Proof. intros Hsub Hc e He. apply Hsub, Hc, He. Qed.

Lemma network_of_int_raises v addr prefix :
  raises_only [ValueError] (network_of_int v addr prefix).
Proof.
  unfold network_of_int.
  destruct ((addr <? 0) || (ALL_ONES v <? addr)); [apply raises_only_Raise; reflexivity|].
  destruct ((prefix <? 0) || (max_prefixlen v <? prefix));
    [apply raises_only_Raise; reflexivity|].
  cbv zeta.
  destruct (negb _); [apply raises_only_Raise; reflexivity | apply raises_only_Ok].
Qed.

Lemma summarize_loop_raises v first_int last_int :
  raises_only [ValueError] (summarize_loop v first_int last_int).
Proof.
  funelim (summarize_loop v first_int last_int).
  - cbv zeta. apply raises_only_bind; [apply network_of_int_raises|]. intros net.
    destruct (_ =? _); [apply raises_only_Ok|].
    apply raises_only_bind; [exact (H net) | intros; apply raises_only_Ok].
  - apply raises_only_Ok.
Qed.

Lemma summarize_address_range_raises first last :
  raises_only [ValueError; TypeError] (summarize_address_range first last).
Proof.
  unfold summarize_address_range.
  destruct (negb _); [apply raises_only_Raise; reflexivity|].
  destruct (address_gt first last); [apply raises_only_Raise; reflexivity|].
  destruct (_ || _); [|apply raises_only_Raise; reflexivity].
  eapply raises_only_weaken; [|apply summarize_loop_raises].
  intros e He. simpl in *. rewrite orb_false_r in He. rewrite He. reflexivity.
Qed.

(** A range of which the first address is above the last is refused. *)
Lemma summarize_address_range_reversed first last :
  ip last < ip first ->
  exists e, summarize_address_range first last = Raise e
            /\ existsb (isinstance e) [ValueError; TypeError] = true.
Proof.
  intros Hlt. unfold summarize_address_range.
  destruct (negb (version first =? version last)) eqn:Ev.
  - exists TypeError. split; reflexivity.
  - assert (Hgt : address_gt first last = true).
    { unfold address_gt, address_lt, address_eq.
      replace (ip first <? ip last) with false by (symmetry; apply Z.ltb_ge; lia).
      replace (ip first =? ip last) with false by (symmetry; apply Z.eqb_neq; lia).
      rewrite andb_false_r. reflexivity. }
    rewrite Hgt. exists ValueError. split; reflexivity.
Qed.

(* ===================================================================== *)
(** * The classification of a query *)
(* ===================================================================== *)

Section Classification.

Variable ip_address : string -> result address.
Variable ip_network : string -> result network.

Hypothesis ip_address_raises : raises_ValueError ip_address.
Hypothesis ip_network_raises : raises_ValueError ip_network.

Local Abbreviation loop := (for_term_in ip_address ip_network).
Local Abbreviation classify :=
  (ip_addresses_and_networks_from_query ip_address ip_network).

Lemma range_call_raises term :
  raises_only [ValueError; TypeError] (range_call ip_address term).
Proof.
  unfold range_call. apply raises_only_bind.
  - apply raises_only_mapM. intros i.
    eapply raises_only_weaken; [|apply ip_address_raises].
    intros e He. simpl in *. rewrite orb_false_r in He. rewrite He. reflexivity.
  - intros [|a [|b [|c l]]]; try (apply raises_only_Raise; reflexivity).
    apply summarize_address_range_raises.
Qed.

(** One round of the loop, by cases on the three readings. *)
Lemma for_term_in_step term rest ips networks :
  Str.isdigit term = false ->
  loop (term :: rest) ips networks =
    match ip_address term with
    | Ok a => loop rest (ips ++ [a]) networks
    | Raise _ =>
        match ip_network term with
        | Ok n => loop rest ips (networks ++ [n])
        | Raise _ =>
            if Str.count "-" term =? 1 then
              match range_call ip_address term with
              | Ok nets => loop rest ips (networks ++ nets)
              | Raise _ => Ok None
              end
            else Ok None
        end
    end.
Proof.
  intros Hd. cbn [for_term_in]. rewrite Hd. unfold try_except.
  destruct (ip_address term) as [a|e] eqn:Ea; [reflexivity|].
  rewrite (ip_address_raises _ _ Ea).
  destruct (ip_network term) as [n|e'] eqn:En; [reflexivity|].
  rewrite (ip_network_raises _ _ En).
  destruct (Str.count "-" term =? 1); [|reflexivity].
  fold (range_call ip_address term).
  destruct (range_call ip_address term) as [nets|e''] eqn:Er; [reflexivity|].
  rewrite (range_call_raises _ _ Er). reflexivity.
Qed.

Lemma for_term_in_returns terms :
  forall ips networks, exists r, loop terms ips networks = Ok r.
Proof.
  induction terms as [|term rest IH]; intros ips networks.
  - eexists; reflexivity.
  - destruct (Str.isdigit term) eqn:Hd.
    + exists None. cbn [for_term_in]. rewrite Hd. reflexivity.
    + rewrite (for_term_in_step _ _ _ _ Hd).
      destruct (ip_address term); [apply IH|].
      destruct (ip_network term); [apply IH|].
      destruct (_ =? _); [|eexists; reflexivity].
      destruct (range_call ip_address term); [apply IH | eexists; reflexivity].
Qed.

Lemma for_term_in_digit terms :
  (exists t, In t terms /\ Str.isdigit t = true) ->
  forall ips networks, loop terms ips networks = Ok None.
Proof.
  induction terms as [|term rest IH]; intros [t [Hin Ht]] ips networks.
  - contradiction.
  - destruct (Str.isdigit term) eqn:Hd.
    + cbn [for_term_in]. rewrite Hd. reflexivity.
    + assert (Hrest : exists t, In t rest /\ Str.isdigit t = true).
      { destruct Hin as [->|Hin]; [congruence|]. exists t. split; assumption. }
      rewrite (for_term_in_step _ _ _ _ Hd).
      destruct (ip_address term); [apply IH, Hrest|].
      destruct (ip_network term); [apply IH, Hrest|].
      destruct (_ =? _); [|reflexivity].
      destruct (range_call ip_address term); [apply IH, Hrest | reflexivity].
Qed.

Lemma range_call_two l r term :
  Str.split "-" term = [l; r] ->
  range_call ip_address term =
    match ip_address (Str.strip l) with
    | Ok first =>
        match ip_address (Str.strip r) with
        | Ok last => summarize_address_range first last
        | Raise e => Raise e
        end
    | Raise e => Raise e
    end.
Proof.
  intros Hs. unfold range_call. rewrite Hs. cbn [mapM bind].
  destruct (ip_address (Str.strip l)); [|reflexivity].
  destruct (ip_address (Str.strip r)); reflexivity.
Qed.

Lemma count_one_split term :
  Str.count "-" term = 1 -> exists l r, Str.split "-" term = [l; r].
Proof.
  intros Hc. pose proof (StrFacts.split_length_count "-" term) as Hl.
  rewrite Hc in Hl.
  destruct (Str.split "-" term) as [|l [|r [|x xs]]]; cbn [length] in Hl; try lia.
  exists l, r. reflexivity.
Qed.

Lemma read_as_range_call term :
  Str.count "-" term = 1 ->
  read_as_range ip_address term =
    match range_call ip_address term with
    | Ok nets => Some nets
    | Raise _ => None
    end.
Proof.
  intros Hc. destruct (count_one_split _ Hc) as [l [r Hs]].
  unfold read_as_range. rewrite (range_call_two _ _ _ Hs), Hs.
  apply Z.eqb_eq in Hc. rewrite Hc.
  destruct (ip_address (Str.strip l)); [|reflexivity].
  destruct (ip_address (Str.strip r)); reflexivity.
Qed.

(** One round of the loop in terms of the first reading of the term. *)
Lemma for_term_in_reading term rest ips networks :
  Str.isdigit term = false ->
  loop (term :: rest) ips networks =
    match first_reading ip_address ip_network term with
    | Some r => loop rest (ips ++ addresses_of r) (networks ++ networks_of r)
    | None => Ok None
    end.
Proof.
  intros Hd. rewrite (for_term_in_step _ _ _ _ Hd). unfold first_reading.
  destruct (ip_address term); cbn [addresses_of networks_of].
  - rewrite app_nil_r. reflexivity.
  - destruct (ip_network term); cbn [addresses_of networks_of].
    + rewrite app_nil_r. reflexivity.
    + destruct (Str.count "-" term =? 1) eqn:Hc.
      * apply Z.eqb_eq in Hc. rewrite (read_as_range_call _ Hc).
        destruct (range_call ip_address term); cbn [option_map addresses_of networks_of].
        -- rewrite app_nil_r. reflexivity.
        -- reflexivity.
      * unfold read_as_range. rewrite Hc. reflexivity.
Qed.

(** The loop computes the classification of the specification. *)
Lemma for_term_in_spec terms :
  (forall t, In t terms -> Str.isdigit t = false) ->
  forall ips networks,
    loop terms ips networks =
      Ok match all_readings ip_address ip_network terms with
         | Some rs =>
             Some (IpsAndNetworks (ips ++ flat_map addresses_of rs)
                                  (networks ++ flat_map networks_of rs))
         | None => None
         end.
Proof.
  induction terms as [|term rest IH]; intros Hd ips networks.
  - cbn. rewrite !app_nil_r. reflexivity.
  - rewrite for_term_in_reading by (apply Hd; left; reflexivity).
    cbn [all_readings].
    destruct (first_reading ip_address ip_network term) as [r|]; [|reflexivity].
    rewrite IH by (intros t Ht; apply Hd; right; exact Ht).
    destruct (all_readings ip_address ip_network rest) as [rs|]; [|reflexivity].
    cbn [flat_map]. rewrite !app_assoc. reflexivity.
Qed.

(** A term that is a number or has no reading ends the classification,
    wherever it stands. *)
Lemma for_term_in_miss terms t :
  In t terms ->
  Str.isdigit t = true \/ first_reading ip_address ip_network t = None ->
  forall ips networks, loop terms ips networks = Ok None.
Proof.
  induction terms as [|term rest IH]; intros Hin Ht ips networks; [contradiction|].
  destruct (Str.isdigit term) eqn:Hd.
  - cbn [for_term_in]. rewrite Hd. reflexivity.
  - rewrite (for_term_in_reading _ _ _ _ Hd).
    destruct (first_reading ip_address ip_network term) as [r|] eqn:Er; [|reflexivity].
    apply IH; [|exact Ht].
    destruct Hin as [->|Hin]; [|exact Hin].
    destruct Ht as [Ht|Ht]; congruence.
Qed.

(** A classified query has at least one address or network. *)
Lemma summarize_loop_not_nil v first_int last_int nets :
  first_int <= last_int ->
  summarize_loop v first_int last_int = Ok nets -> nets <> [].
Proof.
  intros Hle. funelim (summarize_loop v first_int last_int); [|lia].
  cbv zeta. destruct (network_of_int _ _ _) as [net|]; cbn [bind]; [|discriminate].
  destruct (_ =? _); [intros [= <-]; discriminate|].
  destruct (summarize_loop _ _ _); cbn [bind]; [|discriminate].
  intros [= <-]. discriminate.
Qed.

End Classification.

(* ===================================================================== *)
(** * The reference parsers satisfy the documented behaviour *)
(* ===================================================================== *)

Module Reference.

Lemma raises_only_try_except {A B} classes (c : result A) caught
    (on_ok : A -> result B) handler :
  raises_only classes c -> (forall a, raises_only classes (on_ok a)) ->
  raises_only classes handler ->
  raises_only classes (try_except c caught on_ok handler).
Proof.
  intros Hc Hok Hh. unfold try_except. destruct c as [a|e]; [apply Hok|].
  destruct (existsb _ caught); [exact Hh|].
  apply raises_only_Raise. apply Hc. reflexivity.
Qed.

Lemma raises_only_wrap {A} cls (c : result A) :
  isinstance cls ValueError = true ->
  raises_only [ValueError] c -> raises_only [ValueError] (wrap cls c).
Proof.
  intros Hcls Hc. unfold wrap. destruct c as [a|e]; [apply raises_only_Ok|].
  destruct (isinstance e ValueError) eqn:E.
  - apply raises_only_Raise. cbn. rewrite Hcls. reflexivity.
  - apply raises_only_Raise. cbn. rewrite E.
    specialize (Hc e eq_refl). cbn in Hc. rewrite E in Hc. exact Hc.
Qed.

Lemma raises_only_fold_left {A B} classes (f : result A -> B -> result A) l :
  (forall acc x, raises_only classes acc -> raises_only classes (f acc x)) ->
  forall init, raises_only classes init -> raises_only classes (fold_left f l init).
Proof.
  intros Hf. induction l as [|x xs IH]; intros init Hi; cbn; [exact Hi|].
  apply IH, Hf, Hi.
Qed.

Ltac raises_step :=
  match goal with
  | |- raises_only _ (Ok _) => apply raises_only_Ok
  | |- raises_only _ (Raise _) => apply raises_only_Raise; reflexivity
  | |- raises_only _ (bind _ _) => apply raises_only_bind; [|intros]
  | |- raises_only _ (wrap _ _) => apply raises_only_wrap; [reflexivity|]
  | |- raises_only _ (mapM _ _) => apply raises_only_mapM; intros
  | |- raises_only _ (try_except _ _ _ _) => apply raises_only_try_except; [|intros|]
  | |- raises_only _ (if ?b then _ else _) => destruct b
  | |- raises_only _ (let _ := _ in _) => cbv zeta
  | |- raises_only _ (match ?x with _ => _ end) => destruct x
  end.

Lemma parse_octet_raises s : raises_only [ValueError] (parse_octet s).
Proof. unfold parse_octet. repeat raises_step. Qed.

Lemma v4_int_from_string_raises s : raises_only [ValueError] (v4_int_from_string s).
Proof.
  unfold v4_int_from_string. repeat raises_step. apply parse_octet_raises.
Qed.

Lemma IPv4Address_raises s : raises_only [ValueError] (IPv4Address s).
Proof.
  unfold IPv4Address. repeat raises_step. apply v4_int_from_string_raises.
Qed.

Lemma parse_hextet_raises s : raises_only [ValueError] (parse_hextet s).
Proof. unfold parse_hextet. repeat raises_step. Qed.

Lemma parse_hextets_raises acc l : raises_only [ValueError] (parse_hextets acc l).
Proof.
  unfold parse_hextets. apply raises_only_fold_left; [|apply raises_only_Ok].
  intros a x Ha. apply raises_only_bind; [exact Ha|]. intros ip_int.
  apply raises_only_bind; [apply parse_hextet_raises|]. intros h.
  apply raises_only_Ok.
Qed.

Lemma find_skip_index_raises parts : raises_only [ValueError] (find_skip_index parts).
Proof.
  unfold find_skip_index. apply raises_only_fold_left; [|apply raises_only_Ok].
  intros a x Ha. apply raises_only_bind; [exact Ha|]. intros k.
  repeat raises_step.
Qed.

Lemma v6_int_from_string_raises s : raises_only [ValueError] (v6_int_from_string s).
Proof.
  unfold v6_int_from_string.
  destruct (negb (Str.nonempty s)); [raises_step|]. cbv zeta.
  destruct (length (Str.split ":" s) <? 3)%nat; [raises_step|].
  apply raises_only_bind.
  { destruct (Str.contains "." _); [|raises_step].
    apply raises_only_bind; [apply IPv4Address_raises | intros; raises_step]. }
  intros parts. destruct (9 <? length parts)%nat; [raises_step|].
  apply raises_only_bind; [apply find_skip_index_raises|]. intros skip_index.
  apply raises_only_bind.
  { destruct skip_index; cbv zeta; repeat raises_step. }
  intros [[parts_hi parts_lo] parts_skipped].
  apply raises_only_wrap; [reflexivity|].
  apply raises_only_bind; [apply parse_hextets_raises|]. intros hi.
  apply parse_hextets_raises.
Qed.

Lemma IPv6Address_raises s : raises_only [ValueError] (IPv6Address s).
Proof.
  unfold IPv6Address. destruct (Str.contains "/" s); [raises_step|].
  destruct (partition "%" s) as [[addr sep] scope].
  destruct (sep && _); [raises_step|].
  apply raises_only_bind; [apply v6_int_from_string_raises | intros; raises_step].
Qed.

Theorem ip_address_raises : raises_ValueError ipaddress.ip_address.
Proof.
  intros s. unfold ipaddress.ip_address.
  apply raises_only_try_except; [apply IPv4Address_raises | intros; raises_step |].
  apply raises_only_try_except; [apply IPv6Address_raises | intros; raises_step |].
  raises_step.
Qed.

Lemma prefix_from_prefix_string_raises v s :
  raises_only [ValueError] (prefix_from_prefix_string v s).
Proof. unfold prefix_from_prefix_string. repeat raises_step. Qed.

Lemma prefix_from_ip_int_raises v n : raises_only [ValueError] (prefix_from_ip_int v n).
Proof. unfold prefix_from_ip_int. repeat raises_step. Qed.

Lemma make_netmask_raises v s : raises_only [ValueError] (make_netmask v s).
Proof.
  unfold make_netmask. destruct (v =? 4); [|apply prefix_from_prefix_string_raises].
  apply raises_only_try_except;
    [apply prefix_from_prefix_string_raises | intros; raises_step |].
  unfold prefix_from_ip_string. apply raises_only_bind.
  - apply raises_only_wrap; [reflexivity | apply v4_int_from_string_raises].
  - intros ip_int. apply raises_only_try_except;
      [apply prefix_from_ip_int_raises | intros; raises_step |].
    apply raises_only_wrap; [reflexivity | apply prefix_from_ip_int_raises].
Qed.

Lemma ip_network_of_raises v address_of s :
  (forall t, raises_only [ValueError] (address_of t)) ->
  raises_only [ValueError] (ip_network_of v address_of s).
Proof.
  intros Ha. unfold ip_network_of. cbv zeta.
  destruct (2 <? length (Str.split "/" s))%nat; [raises_step|].
  apply raises_only_bind; [apply Ha|]. intros a.
  apply raises_only_bind.
  - destruct (Str.split "/" s) as [|x [|mask [|y l]]]; try raises_step.
    apply make_netmask_raises.
  - intros prefix. repeat raises_step.
Qed.

Theorem ip_network_raises : raises_ValueError ipaddress.ip_network.
Proof.
  intros s. unfold ipaddress.ip_network, IPv4Network, IPv6Network.
  apply raises_only_try_except;
    [apply ip_network_of_raises, IPv4Address_raises | intros; raises_step |].
  apply raises_only_try_except;
    [apply ip_network_of_raises, IPv6Address_raises | intros; raises_step |].
  raises_step.
Qed.

(** ** An accepted string has a ['.'] or a [':'] *)

Lemma bind_Ok {A B} (c : result A) (k : A -> result B) b :
  bind c k = Ok b -> exists a, c = Ok a /\ k a = Ok b.
Proof. destruct c as [a|e]; cbn; [|discriminate]. intros H. exists a. auto. Qed.

Lemma try_except_Ok_id {A} (c : result A) caught handler a :
  try_except c caught Ok handler = Ok a -> c = Ok a \/ handler = Ok a.
Proof.
  unfold try_except. destruct c as [x|e]; [left; assumption|].
  destruct (existsb _ caught); [right; assumption | discriminate].
Qed.

Lemma IPv4Address_dot s a : IPv4Address s = Ok a -> Str.contains "." s = true.
Proof.
  unfold IPv4Address, v4_int_from_string.
  destruct (Str.contains "/" s); [discriminate|].
  destruct (negb (Str.nonempty s)); [discriminate|]. cbv zeta.
  destruct (length (Str.split "." s) =? 4)%nat eqn:E; [|discriminate].
  intros _. apply Nat.eqb_eq in E.
  apply StrFacts.split_length_ge_2_contains. lia.
Qed.

Lemma partition_contains c d s a found b :
  partition c s = (a, found, b) -> Str.contains d a = true -> Str.contains d s = true.
Proof.
  revert a found b. induction s as [|x s IH]; cbn; intros a found b.
  - intros [= <- <- <-]. discriminate.
  - destruct (Ascii.eqb x c).
    + intros [= <- <- <-]. discriminate.
    + destruct (partition c s) as [[a' f'] b'] eqn:E. intros [= <- <- <-].
      cbn. intros H. apply orb_true_iff in H. destruct H as [->|H]; [reflexivity|].
      rewrite (IH _ _ _ eq_refl H). apply orb_true_r.
Qed.

Lemma v6_int_from_string_colon s n :
  v6_int_from_string s = Ok n -> Str.contains ":" s = true.
Proof.
  unfold v6_int_from_string.
  destruct (negb (Str.nonempty s)); [discriminate|]. cbv zeta.
  destruct (length (Str.split ":" s) <? 3)%nat eqn:E; [discriminate|].
  intros _. apply Nat.ltb_ge in E.
  apply StrFacts.split_length_ge_2_contains. lia.
Qed.

Lemma IPv6Address_colon s a : IPv6Address s = Ok a -> Str.contains ":" s = true.
Proof.
  unfold IPv6Address. destruct (Str.contains "/" s); [discriminate|].
  destruct (partition "%" s) as [[addr sep] scope] eqn:Ep.
  destruct (sep && _); [discriminate|].
  intros H. apply bind_Ok in H. destruct H as [n [Hn _]].
  eapply partition_contains; [exact Ep|].
  eapply v6_int_from_string_colon; exact Hn.
Qed.

Theorem ip_address_separator : needs_separator ipaddress.ip_address.
Proof.
  intros s a H. unfold ipaddress.ip_address in H.
  apply try_except_Ok_id in H. destruct H as [H|H].
  - rewrite (IPv4Address_dot _ _ H). reflexivity.
  - apply try_except_Ok_id in H. destruct H as [H|H]; [|discriminate].
    rewrite (IPv6Address_colon _ _ H). apply orb_true_r.
Qed.

Lemma ip_network_of_separator v address_of c s n :
  (forall t a, address_of t = Ok a -> Str.contains c t = true) ->
  ip_network_of v address_of s = Ok n -> Str.contains c s = true.
Proof.
  intros Ha. unfold ip_network_of. cbv zeta.
  destruct (2 <? length (Str.split "/" s))%nat; [discriminate|].
  intros H. apply bind_Ok in H. destruct H as [a [Haddr _]].
  apply Ha in Haddr.
  apply (StrFacts.in_split_contains "/" c s (hd "" (Str.split "/" s))); [|exact Haddr].
  pose proof (StrFacts.split_not_nil "/" s).
  destruct (Str.split "/" s); [contradiction | left; reflexivity].
Qed.

Theorem ip_network_separator : needs_separator ipaddress.ip_network.
Proof.
  intros s n H. unfold ipaddress.ip_network in H.
  apply try_except_Ok_id in H. destruct H as [H|H].
  - rewrite (ip_network_of_separator _ _ _ _ _ IPv4Address_dot H). reflexivity.
  - apply try_except_Ok_id in H. destruct H as [H|H]; [|discriminate].
    rewrite (ip_network_of_separator _ _ _ _ _ IPv6Address_colon H). apply orb_true_r.
Qed.

(** ** An accepted address fits its version *)

Lemma Ok_inj {A} (a b : A) : Ok a = Ok b -> a = b.
Proof. intros H. congruence. Qed.

Lemma wrap_Ok {A} cls (c : result A) a : wrap cls c = Ok a -> c = Ok a.
Proof.
  unfold wrap. destruct c as [x|e]; [auto|].
  destruct (isinstance e ValueError); discriminate.
Qed.

Lemma mapM_Forall {A B} (f : A -> result B) (P : B -> Prop) l :
  (forall a b, f a = Ok b -> P b) ->
  forall l', mapM f l = Ok l' -> Forall P l' /\ length l' = length l.
Proof.
  intros Hf. induction l as [|x xs IH]; cbn [mapM]; intros l' H.
  - injection H as <-. split; [constructor | reflexivity].
  - apply bind_Ok in H. destruct H as [y [Hy H]].
    apply bind_Ok in H. destruct H as [ys [Hys H]]. injection H as <-.
    destruct (IH ys Hys) as [HF Hl].
    split; [constructor; [eapply Hf; exact Hy | exact HF] | cbn; rewrite Hl; reflexivity].
Qed.

Lemma digit_value_range c : 0 <= Str.digit_value c <= 15.
Proof.
  unfold Str.digit_value. cbv zeta.
  repeat match goal with
         | |- context [?a <=? ?b] => destruct (Z.leb_spec a b)
         end; cbn [andb]; lia.
Qed.

Lemma int_acc_nonneg base s :
  0 <= base -> forall acc, 0 <= acc -> 0 <= Str.int_acc base acc s.
Proof.
  intros Hb. induction s as [|c s IH]; cbn [Str.int_acc]; intros acc Hacc; [exact Hacc|].
  apply IH. pose proof (digit_value_range c). nia.
Qed.

Lemma int_acc_hex s :
  forall acc, 0 <= acc ->
    Str.int_acc 16 acc s < (acc + 1) * 16 ^ Z.of_nat (String.length s).
Proof.
  induction s as [|c s IH]; cbn [Str.int_acc String.length]; intros acc Hacc.
  - cbn. lia.
  - pose proof (digit_value_range c).
    specialize (IH (acc * 16 + Str.digit_value c) ltac:(lia)).
    rewrite Nat2Z.inj_succ, Z.pow_succ_r by lia.
    assert (0 < 16 ^ Z.of_nat (String.length s)) by (apply Z.pow_pos_nonneg; lia).
    nia.
Qed.

Lemma parse_octet_range s n : parse_octet s = Ok n -> 0 <= n <= 255.
Proof.
  unfold parse_octet.
  destruct (negb (Str.nonempty s)); [discriminate|].
  destruct (negb _); [discriminate|].
  destruct (_ <? _)%nat; [discriminate|].
  destruct (_ && _); [discriminate|]. cbv zeta.
  destruct (255 <? Str.int 10 s) eqn:E; [discriminate|].
  intros [= <-]. apply Z.ltb_ge in E.
  split; [apply int_acc_nonneg; lia | exact E].
Qed.

Lemma parse_hextet_range s n : parse_hextet s = Ok n -> 0 <= n < 2 ^ 16.
Proof.
  unfold parse_hextet.
  destruct (Str.all_chars char_ishex s) eqn:Eh; [|discriminate]. cbn [negb].
  destruct (4 <? String.length s)%nat eqn:El; [discriminate|].
  destruct (negb (Str.nonempty s)); [discriminate|].
  intros [= <-]. apply Nat.ltb_ge in El.
  split; [apply int_acc_nonneg; lia|].
  pose proof (int_acc_hex s 0 ltac:(lia)) as Hb. unfold Str.int.
  assert (16 ^ Z.of_nat (String.length s) <= 16 ^ 4)
    by (apply Z.pow_le_mono_r; lia).
  change (2 ^ 16) with (16 ^ 4). lia.
Qed.

Lemma v4_int_from_string_range s n :
  v4_int_from_string s = Ok n -> 0 <= n <= 2 ^ 32 - 1.
Proof.
  unfold v4_int_from_string.
  destruct (negb (Str.nonempty s)); [discriminate|]. cbv zeta.
  destruct (length (Str.split "." s) =? 4)%nat eqn:El; [|discriminate]. cbn [negb].
  intros H. apply wrap_Ok, bind_Ok in H. destruct H as [l [Hl H]]. injection H as <-.
  destruct (mapM_Forall parse_octet (fun n => 0 <= n <= 255) _ parse_octet_range l Hl)
    as [HF Hlen].
  apply Nat.eqb_eq in El. rewrite El in Hlen.
  destruct l as [|a [|b [|c [|d [|x l]]]]]; try discriminate.
  repeat match goal with H : Forall _ (_ :: _) |- _ => inversion H; clear H; subst end.
  unfold from_bytes. cbn [fold_left]. change (2 ^ 32) with 4294967296. lia.
Qed.

Lemma IPv4Address_valid s a : IPv4Address s = Ok a -> valid_address a.
Proof.
  unfold IPv4Address. destruct (Str.contains "/" s); [discriminate|].
  intros H. apply bind_Ok in H. destruct H as [n [Hn H]]. injection H as <-.
  apply v4_int_from_string_range in Hn.
  split; [left; reflexivity | exact Hn].
Qed.

Lemma land_shiftl_small a h k :
  0 <= k -> 0 <= h < 2 ^ k -> Z.land (Z.shiftl a k) h = 0.
Proof.
  intros Hk Hh. apply Z.bits_inj'. intros i Hi. rewrite Z.land_spec, Z.bits_0.
  destruct (Z_lt_le_dec i k) as [Hlt|Hge].
  - rewrite Z.shiftl_spec_low by lia. reflexivity.
  - rewrite (BlockFacts.testbit_small_high h k i) by lia. apply andb_false_r.
Qed.

Lemma lor_shiftl_small a h :
  0 <= a -> 0 <= h < 2 ^ 16 ->
  Z.lor (Z.shiftl a 16) h = a * 2 ^ 16 + h.
Proof.
  intros Ha Hh. pose proof (land_shiftl_small a h 16 ltac:(lia) Hh) as Hl.
  rewrite <- (Z.lxor_lor _ _ Hl), <- (Z.add_nocarry_lxor _ _ Hl).
  rewrite Z.shiftl_mul_pow2 by lia. reflexivity.
Qed.

Lemma fold_left_Raise {A B} (f : result A -> B -> result A) l e :
  (forall x, f (Raise e) x = Raise e) -> fold_left f l (Raise e) = Raise e.
Proof.
  intros Hf. induction l as [|x xs IH]; cbn; [reflexivity|]. rewrite Hf. exact IH.
Qed.

Lemma parse_hextets_range l :
  forall acc k n,
    0 <= k -> 0 <= acc < 2 ^ k ->
    parse_hextets acc l = Ok n ->
    0 <= n < 2 ^ (k + 16 * Z.of_nat (length l)).
Proof.
  unfold parse_hextets.
  induction l as [|h l IH]; intros acc k n Hk Hacc; cbn [fold_left length].
  - intros [= <-]. rewrite Z.add_0_r. exact Hacc.
  - cbn [bind]. destruct (parse_hextet h) as [hv|e] eqn:Eh; cbn [bind].
    + apply parse_hextet_range in Eh. intros H.
      rewrite lor_shiftl_small in H by lia.
      apply (IH _ (k + 16)) in H; [|lia|].
      * replace (k + 16 * Z.of_nat (S (length l)))
          with (k + 16 + 16 * Z.of_nat (length l)) by lia.
        exact H.
      * rewrite Z.pow_add_r by lia. nia.
    + rewrite fold_left_Raise by reflexivity. discriminate.
Qed.

Lemma v6_int_from_string_range s n :
  v6_int_from_string s = Ok n -> 0 <= n <= 2 ^ 128 - 1.
Proof.
  unfold v6_int_from_string.
  destruct (negb (Str.nonempty s)); [discriminate|]. cbv zeta.
  destruct (length (Str.split ":" s) <? 3)%nat; [discriminate|].
  intros H. apply bind_Ok in H. destruct H as [parts [_ H]].
  destruct (9 <? length parts)%nat; [discriminate|].
  apply bind_Ok in H. destruct H as [skip_index [_ H]].
  apply bind_Ok in H. destruct H as [[[parts_hi parts_lo] parts_skipped] [Hcounts H]].
  apply wrap_Ok, bind_Ok in H. destruct H as [hi [Hhi Hlo]].
  assert (Hsum : (parts_hi + parts_lo + parts_skipped <= 8)%nat).
  { revert Hcounts. destruct skip_index as [k|]; cbv zeta.
    - destruct (_ && _); [discriminate|]. destruct (_ && _); [discriminate|].
      destruct (8 <? _)%nat eqn:E8; [discriminate|].
      apply Nat.ltb_ge in E8. intros Hc. apply Ok_inj in Hc.
      apply pair_equal_spec in Hc. destruct Hc as [Hc E3].
      apply pair_equal_spec in Hc. destruct Hc as [E1 E2].
      rewrite <- E1, <- E2, <- E3. lia.
    - destruct (negb (length parts =? 8)%nat) eqn:E8; [discriminate|].
      apply negb_false_iff, Nat.eqb_eq in E8.
      destruct (negb _); [discriminate|]. destruct (negb _); [discriminate|].
      intros Hc. apply Ok_inj in Hc.
      apply pair_equal_spec in Hc. destruct Hc as [Hc E3].
      apply pair_equal_spec in Hc. destruct Hc as [E1 E2].
      rewrite <- E1, <- E2, <- E3. lia. }
  apply (parse_hextets_range _ 0 0) in Hhi; [|lia|cbn; lia].
  pose proof (firstn_le_length parts_hi parts) as Hlf.
  assert (Hhi' : 0 <= hi < 2 ^ (16 * Z.of_nat parts_hi)).
  { split; [lia|]. eapply Z.lt_le_trans; [apply Hhi|].
    apply Z.pow_le_mono_r; lia. }
  assert (Hshift : 0 <= Z.shiftl hi (16 * Z.of_nat parts_skipped)
                   < 2 ^ (16 * Z.of_nat parts_hi + 16 * Z.of_nat parts_skipped)).
  { rewrite Z.shiftl_mul_pow2 by lia. rewrite Z.pow_add_r by lia.
    assert (0 < 2 ^ (16 * Z.of_nat parts_skipped)) by (apply Z.pow_pos_nonneg; lia).
    nia. }
  apply (parse_hextets_range _ _ (16 * Z.of_nat parts_hi + 16 * Z.of_nat parts_skipped))
    in Hlo; [|lia|exact Hshift].
  assert (Hls : (length (skipn (length parts - parts_lo) parts) <= parts_lo)%nat)
    by (rewrite length_skipn; lia).
  assert (2 ^ (16 * Z.of_nat parts_hi + 16 * Z.of_nat parts_skipped
               + 16 * Z.of_nat (length (skipn (length parts - parts_lo) parts)))
          <= 2 ^ 128) by (apply Z.pow_le_mono_r; lia).
  lia.
Qed.

Lemma IPv6Address_valid s a : IPv6Address s = Ok a -> valid_address a.
Proof.
  unfold IPv6Address. destruct (Str.contains "/" s); [discriminate|].
  destruct (partition "%" s) as [[addr sep] scope].
  destruct (sep && _); [discriminate|].
  intros H. apply bind_Ok in H. destruct H as [n [Hn H]]. injection H as <-.
  apply v6_int_from_string_range in Hn.
  split; [right; reflexivity | exact Hn].
Qed.

Theorem ip_address_valid : returns_valid_addresses ipaddress.ip_address.
Proof.
  intros s a H. unfold ipaddress.ip_address in H.
  apply try_except_Ok_id in H. destruct H as [H|H].
  - apply (IPv4Address_valid _ _ H).
  - apply try_except_Ok_id in H. destruct H as [H|H]; [|discriminate].
    apply (IPv6Address_valid _ _ H).
Qed.

End Reference.

(* ===================================================================== *)
(** * The search *)
(* ===================================================================== *)

Section Search.

Variable ip_address : string -> result address.
Variable ip_network : string -> result network.
Variable registry : string -> options.
Variable admin_utils_lookup_spawns_duplicates : options -> string -> bool.
Variable self : ModelAdmin.

Local Abbreviation classify :=
  (ip_addresses_and_networks_from_query ip_address ip_network).
Local Abbreviation search :=
  (get_search_results ip_address ip_network registry
     admin_utils_lookup_spawns_duplicates self).
Local Abbreviation construct := (construct_search registry).
Local Abbreviation spawns :=
  (lookup_spawns_duplicates admin_utils_lookup_spawns_duplicates).

Lemma get_field_cases opts field_name :
  (exists f, get_field opts field_name = Ok f)
  \/ get_field opts field_name = Raise FieldDoesNotExist.
Proof.
  unfold get_field. destruct (find _ _); [left; eexists; reflexivity | right; reflexivity].
Qed.

Lemma for_path_part_in_returns field_name lookup_fields :
  forall opts prev_field,
    for_path_part_in registry field_name lookup_fields opts prev_field = Ok field_name
    \/ for_path_part_in registry field_name lookup_fields opts prev_field
       = Ok (field_name ++ "__icontains")%string.
Proof.
  induction lookup_fields as [|p rest IH]; intros opts prev_field; cbn [for_path_part_in].
  - right. reflexivity.
  - cbv zeta. destruct (get_field_cases opts (if String.eqb p "pk" then pk opts else p))
      as [[f ->] | ->]; cbn [try_except existsb isinstance exn_eqb orb].
    + apply IH.
    + destruct (match prev_field with Some f => _ | None => false end); [left; reflexivity|].
      apply IH.
Qed.

Lemma construct_search_returns qs field_name :
  exists lookup, construct qs field_name = Ok lookup.
Proof.
  unfold construct_search.
  destruct (Str.startswith "^" field_name); [eexists; reflexivity|].
  destruct (Str.startswith "=" field_name); [eexists; reflexivity|].
  destruct (Str.startswith "@" field_name); [eexists; reflexivity|].
  cbv zeta.
  destruct (for_path_part_in_returns field_name (Str.split_dunder field_name)
              (registry (model qs)) None) as [-> | ->]; eexists; reflexivity.
Qed.

Lemma construct_search_model qs qs' field_name :
  model qs = model qs' -> construct qs field_name = construct qs' field_name.
Proof. intros H. unfold construct_search. rewrite H. reflexivity. Qed.

Lemma existsb_pointwise {A} (f g : A -> bool) l :
  (forall a, f a = g a) -> existsb f l = existsb g l.
Proof.
  intros H. induction l as [|x xs IH]; cbn; [reflexivity|]. rewrite H, IH. reflexivity.
Qed.

Lemma mapM_ext {A B} (f g : A -> result B) l :
  (forall a, f a = g a) -> mapM f l = mapM g l.
Proof.
  intros H. induction l as [|x xs IH]; cbn; [reflexivity|]. rewrite H, IH. reflexivity.
Qed.

Lemma mapM_returns {A B} (f : A -> result B) l :
  (forall a, exists b, f a = Ok b) ->
  exists bs, mapM f l = Ok bs /\ length bs = length l.
Proof.
  intros H. induction l as [|x xs [bs [IH Hl]]]; cbn [mapM].
  - exists []. split; reflexivity.
  - destruct (H x) as [b Hb]. rewrite Hb, IH. cbn [bind].
    exists (b :: bs). split; [reflexivity | cbn; rewrite Hl; reflexivity].
Qed.

Lemma mapM_pure {A B} (f : A -> result B) (g : A -> B) l :
  (forall a, f a = Ok (g a)) -> mapM f l = Ok (map g l).
Proof.
  intros H. induction l as [|x xs IH]; cbn [mapM map]; [reflexivity|].
  rewrite H, IH. reflexivity.
Qed.

(** Joining predicates that are not empty is plain [Q_or] or [Q_and]. *)
Lemma fold_left_combine conn l :
  (forall a b, Q_bool (conn a b) = true) ->
  Forall (fun x => Q_bool x = true) l ->
  forall q, Q_bool q = true ->
    fold_left (combine conn) l q = fold_left conn l q
    /\ Q_bool (fold_left conn l q) = true.
Proof.
  intros Hconn. induction l as [|x xs IH]; intros HF q Hq; cbn [fold_left].
  - split; [reflexivity | exact Hq].
  - inversion HF as [|? ? Hx Hxs]; subst.
    assert (E : combine conn q x = conn q x).
    { unfold combine. rewrite Hq, Hx. reflexivity. }
    rewrite E. apply IH; [exact Hxs | apply Hconn].
Qed.

Lemma q_for_this_term_any orm_lookups bit :
  orm_lookups <> [] ->
  q_for_this_term orm_lookups bit = Ok (any_field orm_lookups bit).
Proof.
  intros Hne. unfold q_for_this_term, any_field. cbv zeta.
  destruct orm_lookups as [|l ls]; [contradiction|]. cbn [map reduce bind].
  f_equal. f_equal. apply fold_left_combine; [reflexivity| |reflexivity].
  apply Forall_forall. intros x Hx. apply in_map_iff in Hx.
  destruct Hx as [y [<- _]]. reflexivity.
Qed.

Lemma any_field_bool orm_lookups bit :
  orm_lookups <> [] -> Q_bool (any_field orm_lookups bit) = true.
Proof.
  intros Hne. unfold any_field. destruct orm_lookups; [contradiction | reflexivity].
Qed.

Lemma reduce_joining search_term q filters orm_lookups terms :
  orm_lookups <> [] ->
  q :: filters = map (any_field orm_lookups) terms ->
  reduce (joining_operator search_term) (q :: filters)
  = Ok (fold_left (if Str.contains "," search_term then Q_or else Q_and) filters q).
Proof.
  intros Hne Hmap. cbn [reduce]. f_equal. unfold joining_operator.
  assert (HF : Forall (fun x => Q_bool x = true) (q :: filters)).
  { rewrite Hmap. apply Forall_forall. intros x Hx. apply in_map_iff in Hx.
    destruct Hx as [t [<- _]]. apply any_field_bool, Hne. }
  inversion HF; subst.
  destruct (Str.contains "," search_term);
    apply fold_left_combine; auto.
Qed.

(** The result of [get_queryset_with_related_ips] for a query that is not
    an address search. *)
Lemma related_ips_None qs :
  get_queryset_with_related_ips self qs None = (with_ip_annotations self qs, false).
Proof. reflexivity. Qed.

Ltac prelude H :=
  unfold get_search_results, keyword_base;
  let Hact := fresh "Hact" in
  let Hcls := fresh "Hcls" in
  destruct H as [Hact | Hcls];
  [ rewrite Hact; cbn [Str.nonempty_list bind]
  | destruct (Str.nonempty_list (search_by_ip_actions self));
    [ rewrite Hcls; cbn [bind]; rewrite related_ips_None | ]; cbn [bind] ].

(** [get_queryset_with_related_ips] always says there are no duplicates. *)
Lemma related_ips_flag qs ips_and_networks :
  snd (get_queryset_with_related_ips self qs ips_and_networks) = false.
Proof.
  unfold get_queryset_with_related_ips. cbv zeta.
  match goal with |- context [if Q_bool ?c then _ else _] => destruct (Q_bool c) end;
    reflexivity.
Qed.

(** Nothing to search in, or nothing to search for. *)
Lemma search_noop qs search_term :
  not_ip_search ip_address ip_network self search_term ->
  search_fields self = [] \/ search_term = EmptyString ->
  search qs search_term = Ok (keyword_base self qs, false).
Proof.
  intros Hip Hno.
  assert (E : negb (Str.nonempty_list (search_fields self) && Str.nonempty search_term)
              = true).
  { destruct Hno as [-> | ->]; [reflexivity|]. rewrite andb_false_r. reflexivity. }
  prelude Hip; cbv zeta; rewrite E; reflexivity.
Qed.

(** The search by id. *)
Lemma search_by_id qs search_term :
  not_ip_search ip_address ip_network self search_term ->
  search_fields self <> [] -> search_term <> EmptyString ->
  is_id_search self search_term = true ->
  search qs search_term
  = Ok (filter_kw [((search_id_field self ++ "__in")%string,
                    VStrList (search_terms_of search_term))]
          (keyword_base self qs), false).
Proof.
  intros Hip Hf Hs Hid.
  apply StrFacts.nonempty_list_true in Hf. apply StrFacts.nonempty_true in Hs.
  unfold is_id_search in Hid.
  prelude Hip; cbv zeta; rewrite Hf, Hs; cbn [andb negb]; rewrite Hid; reflexivity.
Qed.

(** The search by keywords. *)
Lemma search_by_keywords qs search_term :
  not_ip_search ip_address ip_network self search_term ->
  search_fields self <> [] -> search_term <> EmptyString ->
  is_id_search self search_term = false ->
  exists orm_lookups,
    mapM (construct qs) (search_fields self) = Ok orm_lookups
    /\ orm_lookups <> []
    /\ search qs search_term
       = Ok (filter_joined (if Str.contains "," search_term then Q_or else Q_and)
               (map (any_field orm_lookups) (search_terms_of search_term))
               (keyword_base self qs),
             existsb (spawns (opts self)) orm_lookups).
Proof.
  intros Hip Hf Hs Hid.
  destruct (mapM_returns (construct qs) (search_fields self)
              (construct_search_returns qs)) as [orm_lookups [Hm Hl]].
  assert (Hne : orm_lookups <> []).
  { intros ->. destruct (search_fields self); [contradiction | discriminate]. }
  exists orm_lookups. split; [exact Hm|]. split; [exact Hne|].
  assert (Hm' : forall qs', model qs' = model qs ->
            mapM (construct qs') (search_fields self) = Ok orm_lookups).
  { intros qs' E. rewrite <- Hm. apply mapM_ext. intros a.
    apply construct_search_model, E. }
  apply StrFacts.nonempty_list_true in Hf. apply StrFacts.nonempty_true in Hs.
  unfold is_id_search in Hid.
  assert (Htail : forall base, model base = model qs ->
    (orm_lookups0 <- mapM (construct base) (search_fields self) ;;
     filters <- mapM (q_for_this_term orm_lookups0) (search_terms_of search_term) ;;
     let may_have_duplicates :=
       false || existsb (spawns (opts self)) orm_lookups0 in
     match filters with
     | [] => Ok (base, may_have_duplicates)
     | _ :: _ =>
         q <- reduce (joining_operator search_term) filters ;;
         Ok (filter q base, may_have_duplicates)
     end)
    = Ok (filter_joined (if Str.contains "," search_term then Q_or else Q_and)
            (map (any_field orm_lookups) (search_terms_of search_term)) base,
          existsb (spawns (opts self)) orm_lookups)).
  { intros base Hb. rewrite (Hm' _ Hb). cbn [bind].
    rewrite (mapM_pure _ (any_field orm_lookups))
      by (intros; apply q_for_this_term_any, Hne).
    cbn [bind]. cbv zeta. cbn [orb].
    destruct (map (any_field orm_lookups) (search_terms_of search_term))
      as [|q filters] eqn:Emap; [reflexivity|].
    rewrite (reduce_joining search_term q filters orm_lookups
               (search_terms_of search_term) Hne (eq_sym Emap)).
    reflexivity. }
  prelude Hip; cbv zeta; rewrite Hf, Hs; cbn [andb negb]; rewrite Hid;
    apply Htail; reflexivity.
Qed.

(** The search by address. *)
Lemma search_by_ip qs search_term d :
  search_by_ip_actions self <> [] ->
  classify search_term = Ok (Some d) ->
  search qs search_term = Ok (get_queryset_with_related_ips self qs (Some d)).
Proof.
  intros Hact Hcls. apply StrFacts.nonempty_list_true in Hact.
  unfold get_search_results. rewrite Hact, Hcls. cbn [bind].
  destruct (get_queryset_with_related_ips self qs (Some d)). reflexivity.
Qed.

End Search.

(* ===================================================================== *)
(** * Numeric queries are never address searches *)
(* ===================================================================== *)

Section Numeric.

Variable ip_address : string -> result address.
Variable ip_network : string -> result network.

Hypothesis ip_address_raises : raises_ValueError ip_address.
Hypothesis ip_network_raises : raises_ValueError ip_network.
Hypothesis ip_address_separator : needs_separator ip_address.
Hypothesis ip_network_separator : needs_separator ip_network.

Local Abbreviation classify :=
  (ip_addresses_and_networks_from_query ip_address ip_network).

Lemma isnumeric_all_chars t :
  Str.isnumeric t = true -> Str.all_chars Str.char_isnumeric t = true.
Proof. unfold Str.isnumeric. intros H. apply andb_true_iff in H. apply H. Qed.

Lemma numeric_terms_chars search_term :
  forallb Str.isnumeric (search_terms_of search_term) = true ->
  Str.all_chars numeric_query_char search_term = true.
Proof.
  intros H. rewrite forallb_forall in H.
  assert (HF : Forall (fun t => Str.all_chars Str.char_isnumeric t = true)
                 (search_terms_of search_term)).
  { apply Forall_forall. intros t Ht. apply isnumeric_all_chars, H, Ht. }
  unfold search_terms_of, separator, Str.split_opt in HF.
  assert (Hr : Str.all_chars
                 (fun c => Str.char_isnumeric c || Str.char_isspace c || Ascii.eqb c ",")
                 (Str.replace "*" "%" search_term) = true).
  { destruct (Str.contains "," search_term).
    - apply StrFacts.split_all_chars in HF.
      eapply StrFacts.all_chars_impl; [|exact HF].
      intros c Hc. cbv beta in Hc. apply orb_true_iff in Hc.
      destruct Hc as [-> | ->]; [reflexivity | apply orb_true_r].
    - apply StrFacts.split_whitespace_all_chars in HF.
      eapply StrFacts.all_chars_impl; [|exact HF].
      intros c Hc. cbv beta in Hc. rewrite Hc. reflexivity. }
  apply StrFacts.all_chars_replace in Hr.
  eapply StrFacts.all_chars_impl; [|exact Hr].
  intros c Hc. cbv beta in Hc. unfold numeric_query_char.
  destruct (Ascii.eqb c "*"); [discriminate | exact Hc].
Qed.

Lemma term_without_separators t :
  Str.all_chars numeric_query_char t = true ->
  first_reading ip_address ip_network t = None.
Proof.
  intros Hc.
  assert (Hdot : Str.contains "." t = false)
    by (apply (StrFacts.all_chars_not_contains _ _ _ Hc); reflexivity).
  assert (Hcolon : Str.contains ":" t = false)
    by (apply (StrFacts.all_chars_not_contains _ _ _ Hc); reflexivity).
  assert (Hdash : Str.contains "-" t = false)
    by (apply (StrFacts.all_chars_not_contains _ _ _ Hc); reflexivity).
  unfold first_reading.
  destruct (ip_address t) as [a|e] eqn:Ea.
  { apply ip_address_separator in Ea. rewrite Hdot, Hcolon in Ea. discriminate. }
  destruct (ip_network t) as [n|e'] eqn:En.
  { apply ip_network_separator in En. rewrite Hdot, Hcolon in En. discriminate. }
  unfold read_as_range.
  apply StrFacts.count_zero_contains in Hdash. rewrite Hdash. reflexivity.
Qed.

Lemma numeric_not_ip search_term :
  forallb Str.isnumeric (search_terms_of search_term) = true ->
  classify search_term = Ok None.
Proof.
  intros H. apply numeric_terms_chars in H.
  pose proof (StrFacts.all_chars_split _ "," _ H) as HF.
  pose proof (StrFacts.split_not_nil "," search_term) as Hne.
  unfold ip_addresses_and_networks_from_query.
  destruct (Str.split "," search_term) as [|t rest]; [contradiction|].
  inversion HF as [|? ? Ht _]; subst.
  apply (for_term_in_miss ip_address ip_network ip_address_raises ip_network_raises
           (t :: rest) t);
    [left; reflexivity|].
  right. apply term_without_separators, Ht.
Qed.

(** A term that [str.isnumeric] accepts ends the classification as well,
    whether or not [str.isdigit] accepts it. *)
Lemma isnumeric_term_not_ip search_term term :
  In term (Str.split "," search_term) -> Str.isnumeric term = true ->
  classify search_term = Ok None.
Proof.
  intros Hin Hnum. unfold ip_addresses_and_networks_from_query.
  apply (for_term_in_miss ip_address ip_network ip_address_raises ip_network_raises
           _ term Hin).
  right. apply term_without_separators.
  apply isnumeric_all_chars in Hnum.
  eapply StrFacts.all_chars_impl; [|exact Hnum].
  intros c Hc. unfold numeric_query_char. rewrite Hc. reflexivity.
Qed.

End Numeric.

(* ===================================================================== *)
(** * The condition of an address search *)
(* ===================================================================== *)

Lemma address_gt_false first last : address_gt first last = false -> ip first <= ip last.
Proof.
  unfold address_gt, address_lt, address_eq. intros H.
  destruct (ip first <? ip last) eqn:E1; [apply Z.ltb_lt in E1; lia|].
  destruct (ip first =? ip last) eqn:E2; [apply Z.eqb_eq in E2; lia|].
  rewrite andb_false_r in H. discriminate.
Qed.

Lemma summarize_address_range_not_nil first last nets :
  summarize_address_range first last = Ok nets -> nets <> [].
Proof.
  unfold summarize_address_range.
  destruct (negb _); [discriminate|].
  destruct (address_gt first last) eqn:Egt; [discriminate|].
  destruct (_ || _); [|discriminate].
  apply summarize_loop_not_nil, address_gt_false, Egt.
Qed.

Section Condition.

Variable ip_address : string -> result address.
Variable ip_network : string -> result network.

Hypothesis ip_address_raises : raises_ValueError ip_address.
Hypothesis ip_network_raises : raises_ValueError ip_network.

Variable self : ModelAdmin.

Local Abbreviation accessor := (search_by_ip_activity_accessor self).

Lemma reading_not_empty t r :
  first_reading ip_address ip_network t = Some r ->
  (1 <= length (addresses_of r) + length (networks_of r))%nat.
Proof.
  unfold first_reading.
  destruct (ip_address t); [intros [= <-]; cbn; lia|].
  destruct (ip_network t); [intros [= <-]; cbn; lia|].
  unfold read_as_range. destruct (_ =? _); [|discriminate].
  destruct (Str.split "-" t) as [|l [|r' [|x xs]]]; try discriminate.
  destruct (ip_address (Str.strip l)); [|discriminate].
  destruct (ip_address (Str.strip r')); [|discriminate].
  destruct (summarize_address_range a a0) as [nets|] eqn:Es; [|discriminate].
  intros [= <-]. cbn. apply summarize_address_range_not_nil in Es.
  destruct nets; [contradiction | cbn; lia].
Qed.

Lemma for_term_in_grows terms :
  forall acc_ips acc_nets d,
    for_term_in ip_address ip_network terms acc_ips acc_nets = Ok (Some d) ->
    (length acc_ips + length acc_nets + length terms
     <= length (ips d) + length (networks d))%nat.
Proof.
  induction terms as [|t rest IH]; intros acc_ips acc_nets d.
  - cbn. intros [= <-]. cbn. lia.
  - destruct (Str.isdigit t) eqn:Hd.
    + cbn [for_term_in]. rewrite Hd. discriminate.
    + rewrite (for_term_in_reading ip_address ip_network
                 ip_address_raises ip_network_raises _ _ _ _ Hd).
      destruct (first_reading ip_address ip_network t) as [r|] eqn:Er; [|discriminate].
      intros H. apply IH in H. apply reading_not_empty in Er.
      rewrite !length_app in H. cbn [length]. lia.
Qed.

(** A classified query names at least one address or network. *)
Lemma classified_not_empty search_term d :
  ip_addresses_and_networks_from_query ip_address ip_network search_term
  = Ok (Some d) ->
  ips d <> [] \/ networks d <> [].
Proof.
  unfold ip_addresses_and_networks_from_query. intros H.
  apply for_term_in_grows in H.
  pose proof (StrFacts.split_not_nil "," search_term) as Hne.
  destruct (Str.split "," search_term); [contradiction|].
  cbn [length] in H.
  destruct (ips d); [|left; discriminate].
  destruct (networks d); [cbn in H; lia | right; discriminate].
Qed.

Lemma strip_prefix_app p r : strip_prefix p (p ++ r) = Some r.
Proof.
  induction p as [|c p IH]; cbn; [destruct r; reflexivity|].
  rewrite Ascii.eqb_refl. exact IH.
Qed.

Lemma holds_in row l :
  holds accessor row
    (Q_kw (accessor ++ "__" ++ "iplog__ip_address_binary__in") (VAddrList l))
  = existsb (same_address (row_address row)) l.
Proof. cbn [holds]. unfold holds_kw. rewrite strip_prefix_app. reflexivity. Qed.

Lemma holds_range row n :
  holds accessor row
    (Q_kw (accessor ++ "__" ++ "iplog__ip_address_binary__range")
       (VAddrPair (network_first n) (network_last n)))
  = in_block true (row_address row) n.
Proof. cbn [holds]. unfold holds_kw. rewrite strip_prefix_app. reflexivity. Qed.

Lemma holds_action row l :
  holds accessor row (Q_kw (accessor ++ "__action__in") (VIntList l))
  = existsb (Z.eqb (row_action row)) l.
Proof. cbn [holds]. unfold holds_kw. rewrite strip_prefix_app. reflexivity. Qed.

Lemma holds_or acc row a b :
  holds acc row (Q_or a b) = holds acc row a || holds acc row b.
Proof. reflexivity. Qed.

Lemma holds_and acc row a b :
  holds acc row (Q_and a b) = holds acc row a && holds acc row b.
Proof. reflexivity. Qed.

Lemma holds_fold_networks row nets :
  forall c, Q_bool c = true ->
    let built :=
      fold_left
        (fun condition network =>
           or_ condition
             (Q_kw (accessor ++ "__" ++ "iplog__ip_address_binary__range")
                (VAddrPair (network_first network) (network_last network))))
        nets c in
    Q_bool built = true
    /\ holds accessor row built
       = holds accessor row c || existsb (in_block true (row_address row)) nets.
Proof.
  induction nets as [|n rest IH]; intros c Hc; cbn [fold_left existsb].
  - cbv zeta. rewrite orb_false_r. split; [exact Hc | reflexivity].
  - assert (E : or_ c (Q_kw (accessor ++ "__" ++ "iplog__ip_address_binary__range")
                         (VAddrPair (network_first n) (network_last n)))
                = Q_or c (Q_kw (accessor ++ "__" ++ "iplog__ip_address_binary__range")
                            (VAddrPair (network_first n) (network_last n)))).
    { unfold or_, combine. rewrite Hc. reflexivity. }
    rewrite E.
    destruct (IH (Q_or c (Q_kw (accessor ++ "__" ++ "iplog__ip_address_binary__range")
                            (VAddrPair (network_first n) (network_last n))))
                 eq_refl) as [Hb Hh].
    cbv zeta in *. split; [exact Hb|]. rewrite Hh, holds_or.
    rewrite holds_range, orb_assoc. reflexivity.
Qed.

(** The condition built for a classified query, on a row. *)
Lemma holds_ip_condition row d :
  ips d <> [] \/ networks d <> [] ->
  Q_bool (ip_condition self d) = true
  /\ holds accessor row (ip_condition self d)
     = existsb (same_address (row_address row)) (ips d)
       || existsb (in_block true (row_address row)) (networks d).
Proof.
  intros Hne. unfold ip_condition. cbv zeta.
  destruct (ips d) as [|a l] eqn:Ei; cbn [Str.nonempty_list].
  - destruct Hne as [Hne|Hne]; [contradiction|].
    destruct (networks d) as [|n rest] eqn:En; [contradiction|].
    cbn [fold_left]. change (or_ Q_empty ?q) with q.
    destruct (holds_fold_networks row rest
                (Q_kw (accessor ++ "__" ++ "iplog__ip_address_binary__range")
                   (VAddrPair (network_first n) (network_last n))) eq_refl)
      as [Hb Hh].
    cbv zeta in *. split; [exact Hb|].
    etransitivity; [exact Hh|]. rewrite holds_range. reflexivity.
  - destruct (holds_fold_networks row (networks d)
                (Q_kw (accessor ++ "__" ++ "iplog__ip_address_binary__in")
                   (VAddrList (a :: l))) eq_refl) as [Hb Hh].
    cbv zeta in *. split; [exact Hb|].
    etransitivity; [exact Hh|]. rewrite holds_in. reflexivity.
Qed.

Lemma holds_filtered_condition row d :
  ips d <> [] \/ networks d <> [] ->
  Q_bool (filtered_condition self d) = true
  /\ holds accessor row (filtered_condition self d)
     = ip_predicate true (search_by_ip_actions self) d row.
Proof.
  intros Hne. destruct (holds_ip_condition row d Hne) as [Hb Hh].
  unfold filtered_condition, and_, combine. rewrite Hb. cbn [negb Q_bool].
  split; [reflexivity|]. rewrite holds_and, Hh, holds_action. reflexivity.
Qed.

Lemma related_ips_Some qs d :
  ips d <> [] \/ networks d <> [] ->
  get_queryset_with_related_ips self qs (Some d)
  = (filter_kw [("activity_ips_ids__isnull", VBool false);
                ("activitylog_filtered__isnull", VBool false)]
       (annotate
          [("activity_ips",
            GroupConcat (Inet6Ntoa (accessor ++ "__iplog__ip_address_binary")) true);
           ("activity_ips_ids", F (accessor ++ "__iplog__id"));
           ("activitylog_filtered",
            FilteredRelation (accessor ++ "__iplog") (filtered_condition self d))] qs),
     false).
Proof.
  intros Hne.
  destruct (holds_filtered_condition (LogRow (Address 4 0 None) 0) d Hne) as [Hf _].
  destruct (holds_ip_condition (LogRow (Address 4 0 None) 0) d Hne) as [Hb _].
  unfold get_queryset_with_related_ips. cbv zeta.
  assert (E : (if Str.nonempty_list (networks d)
               then
                fold_left
                  (fun condition network =>
                     or_ condition
                       (Q_kw (accessor ++ "__" ++ "iplog__ip_address_binary__range")
                          (VAddrPair (network_first network) (network_last network))))
                  (networks d)
                  (if Str.nonempty_list (ips d)
                   then or_ Q_empty
                          (Q_kw (accessor ++ "__" ++ "iplog__ip_address_binary__in")
                             (VAddrList (ips d)))
                   else Q_empty)
               else
                if Str.nonempty_list (ips d)
                then or_ Q_empty
                       (Q_kw (accessor ++ "__" ++ "iplog__ip_address_binary__in")
                          (VAddrList (ips d)))
                else Q_empty)
              = ip_condition self d).
  { unfold ip_condition. destruct (networks d); destruct (ips d); reflexivity. }
  rewrite E, Hb. fold (filtered_condition self d). rewrite Hf. reflexivity.
Qed.

End Condition.

(* ===================================================================== *)
(** * The lookup of a search field *)
(* ===================================================================== *)

Section Construct.

Variable registry : string -> options.

Lemma for_path_part_in_cons field_name path_part rest opts prev_field :
  for_path_part_in registry field_name (path_part :: rest) opts prev_field
  = if is_lookup_of_previous opts prev_field path_part then Ok field_name
    else for_path_part_in registry field_name rest
           (fst (walk registry opts prev_field [path_part]))
           (snd (walk registry opts prev_field [path_part])).
Proof.
  cbn [for_path_part_in walk]. unfold is_lookup_of_previous. cbv zeta.
  destruct (get_field_cases opts (if String.eqb path_part "pk" then pk opts else path_part))
    as [[f ->] | ->]; cbn [try_except existsb isinstance exn_eqb orb fst snd].
  - reflexivity.
  - destruct (match prev_field with Some f => _ | None => false end); reflexivity.
Qed.

Lemma walk_cons path_part rest opts prev_field :
  walk registry opts prev_field (path_part :: rest)
  = walk registry (fst (walk registry opts prev_field [path_part]))
      (snd (walk registry opts prev_field [path_part])) rest.
Proof.
  cbn [walk]. cbv zeta.
  destruct (get_field opts (if String.eqb path_part "pk" then pk opts else path_part));
    reflexivity.
Qed.

Lemma for_path_part_in_lookup field_name path :
  forall opts prev_field,
    (lookup_from registry opts prev_field path ->
     for_path_part_in registry field_name path opts prev_field = Ok field_name)
    /\ (~ lookup_from registry opts prev_field path ->
        for_path_part_in registry field_name path opts prev_field
        = Ok (field_name ++ "__icontains")%string).
Proof.
  induction path as [|p rest IH]; intros opts prev_field.
  - split; [|reflexivity].
    intros [before [q [after [E _]]]]. destruct before; discriminate.
  - rewrite for_path_part_in_cons.
    destruct (is_lookup_of_previous opts prev_field p) eqn:Ep.
    + split; [reflexivity|]. intros Hno. exfalso. apply Hno.
      exists [], p, rest. split; [reflexivity | exact Ep].
    + destruct (IH (fst (walk registry opts prev_field [p]))
                   (snd (walk registry opts prev_field [p]))) as [IH1 IH2].
      split.
      * intros [before [q [after [E Hq]]]]. apply IH1.
        destruct before as [|x before]; cbn [app] in E; injection E as E1 E2; subst.
        -- cbn [walk fst snd] in Hq. congruence.
        -- exists before, q, after. split; [reflexivity|].
           rewrite walk_cons in Hq. exact Hq.
      * intros Hno. apply IH2. intros [before [q [after [E Hq]]]]. apply Hno.
        exists (p :: before), q, after. split; [cbn; f_equal; exact E|].
        rewrite walk_cons. exact Hq.
Qed.

Lemma construct_search_lookup qs field_name :
  Str.startswith "^" field_name = false ->
  Str.startswith "=" field_name = false ->
  Str.startswith "@" field_name = false ->
  (includes_lookup registry (registry (model qs)) (Str.split_dunder field_name) ->
   construct_search registry qs field_name = Ok field_name)
  /\ (~ includes_lookup registry (registry (model qs)) (Str.split_dunder field_name) ->
      construct_search registry qs field_name
      = Ok (field_name ++ "__icontains")%string).
Proof.
  intros H1 H2 H3. unfold construct_search. rewrite H1, H2, H3. cbv zeta.
  apply for_path_part_in_lookup.
Qed.

(** A lookup as last segment is enough. *)
Lemma includes_lookup_last opts path path_part :
  is_lookup_of_previous (fst (walk registry opts None path))
    (snd (walk registry opts None path)) path_part = true ->
  includes_lookup registry opts (path ++ [path_part]).
Proof. intros H. exists path, path_part, []. split; [reflexivity | exact H]. Qed.

End Construct.

Lemma search_terms_no_star search_term :
  Forall (fun t => Str.contains "*" t = false) (search_terms_of search_term).
Proof.
  assert (H : Str.contains "*" (Str.replace "*" "%" search_term) = false)
    by (apply StrFacts.not_contains_replaced; discriminate).
  apply Forall_forall. intros t Ht.
  destruct (Str.contains "*" t) eqn:E; [|reflexivity].
  unfold search_terms_of, Str.split_opt in Ht.
  destruct (separator search_term).
  - rewrite (StrFacts.in_split_contains _ _ _ _ Ht E) in H. discriminate.
  - rewrite (StrFacts.in_split_whitespace_contains _ _ _ Ht E) in H. discriminate.
Qed.

(* ===================================================================== *)
(** * [summarize_address_range] returns a smallest cover *)
(* ===================================================================== *)

Module CoverFacts.
Import BlockFacts.

Lemma summarize_loop_spec v f l :
  forall F, 0 <= F <= f -> l <= ALL_ONES v -> no_block_across F l f ->
  exists nets,
    summarize_loop v f l = Ok nets
    /\ Forall (cidr v) nets
    /\ covers nets f l
    /\ Forall (maximal_in F l) nets
    /\ Forall (fun n => f <= network_address n) nets
    /\ NoDup (map network_address nets).
Proof.
  funelim (summarize_loop v f l); intros F HF Hl Hinv.
  - (* one more round *)
    rename first_int into f. rename last_int into l.
    destruct (nbits_of_spec v f l ltac:(lia) Hl) as [Hk [Hal [Hend Hmax]]].
    set (k := nbits_of (max_prefixlen v) f l) in *.
    assert (Hpow : 0 < 2 ^ k) by (apply Z.pow_pos_nonneg; lia).
    rewrite (network_of_int_ok v f k) by lia. cbn [bind].
    rewrite Z.shiftl_1_l.
    set (net := Network v f (max_prefixlen v - k)).
    assert (Hcidr : cidr v net).
    { unfold cidr, net. cbn. replace (max_prefixlen v - (max_prefixlen v - k)) with k by lia.
      repeat split; first [lia | exact Hal]. }
    assert (Hin : forall x, in_network net x <-> f <= x <= f + 2 ^ k - 1).
    { intros x. rewrite (in_network_cidr v net x Hcidr). unfold net. cbn.
      replace (max_prefixlen v - (max_prefixlen v - k)) with k by lia. reflexivity. }
    assert (Hmaximal : maximal_in F l net).
    { intros b j Hj Hb HFb HbL Hfb. unfold net in *. cbn in *.
      replace (max_prefixlen v - (max_prefixlen v - k)) with k by lia.
      destruct (Z_le_gt_dec j k) as [|Hgt]; [assumption|exfalso].
      destruct (Z.eq_dec b f) as [->|Hne].
      - pose proof (Hmax j Hj ltac:(lia) Hb). lia.
      - apply (Hinv b j Hj Hb); lia. }
    destruct (f + 2 ^ k - 1 =? ALL_ONES v) eqn:Ebreak.
    + (* the address space is exhausted *)
      apply Z.eqb_eq in Ebreak. exists [net]. split; [reflexivity|].
      split; [constructor; [exact Hcidr | constructor]|].
      split.
      { intros x. split.
        - intros [n [[<-|[]] Hn]]. apply Hin in Hn. lia.
        - intros Hx. exists net. split; [left; reflexivity|]. apply Hin. lia. }
      split; [constructor; [exact Hmaximal | constructor]|].
      split; [constructor; [cbn; lia | constructor]|].
      cbn. constructor; [intros [] | constructor].
    + apply Z.eqb_neq in Ebreak.
      assert (Hinv' : no_block_across F l (f + 2 ^ k)).
      { intros b j Hj Hb Hbf HFb HbL.
        assert (Hpj : 0 < 2 ^ j) by (apply Z.pow_pos_nonneg; lia).
        destruct (Z_le_gt_dec j k) as [Hle'|Hgt].
        - destruct (laminar b j f k (f + 2 ^ k - 1)); try lia; assumption.
        - destruct (laminar f k b j (f + 2 ^ k - 1)) as [Hbf' Hend']; try lia; try assumption.
          destruct (Z.eq_dec b f) as [->|Hne].
          + pose proof (Hmax j Hj ltac:(lia) Hb). lia.
          + apply (Hinv b j Hj Hb); lia. }
      destruct (H net F ltac:(rewrite Z.shiftl_1_l; lia) Hl
                  ltac:(rewrite Z.shiftl_1_l; exact Hinv'))
        as [rest [Hrest [Hc [Hcov [Hm [Hge Hnd]]]]]].
      rewrite Z.shiftl_1_l in Hrest, Hcov, Hge.
      rewrite Hrest. cbn [bind]. exists (net :: rest). split; [reflexivity|].
      split; [constructor; assumption|].
      split.
      { intros x. split.
        - intros [n [[<-|Hn] Hx]].
          + apply Hin in Hx. lia.
          + assert (f + 2 ^ k <= x <= l) by (apply Hcov; exists n; auto). lia.
        - intros Hx. destruct (Z_le_gt_dec (f + 2 ^ k) x) as [Hhi|Hlo].
          + destruct (proj2 (Hcov x) ltac:(lia)) as [n [Hn Hxn]].
            exists n. split; [right; exact Hn | exact Hxn].
          + exists net. split; [left; reflexivity|]. apply Hin. lia. }
      split; [constructor; assumption|].
      split.
      { constructor; [cbn; lia|]. eapply Forall_impl; [|exact Hge].
        cbv beta. intros n Hn. lia. }
      cbn [map]. constructor; [|exact Hnd].
      intros Hmem. apply in_map_iff in Hmem. destruct Hmem as [n [Hn1 Hn2]].
      rewrite Forall_forall in Hge. specialize (Hge n Hn2). cbn in Hn1. lia.
  - (* the range is empty *)
    exists []. split; [reflexivity|]. split; [constructor|].
    split; [|repeat split; constructor].
    intros x. split; [intros [n [[] _]] | lia].
Qed.

(** Every smallest block of a cover starts a block of any other cover. *)
Lemma cover_has_start v F L nets' n :
  Forall (cidr v) nets' -> covers nets' F L ->
  cidr v n -> maximal_in F L n -> F <= network_address n <= L ->
  In (network_address n) (map network_address nets').
Proof.
  intros Hc Hcov Hn Hmax Ha.
  destruct (proj2 (Hcov (network_address n)) Ha) as [n' [Hin Hx]].
  rewrite Forall_forall in Hc. pose proof (Hc n' Hin) as Hn'.
  rewrite (in_network_cidr v n' _ Hn') in Hx.
  destruct Hn' as [Hv' [Hp' [Ha' Hmod']]]. destruct Hn as [Hv [Hp [Han Hmod]]].
  set (j := max_prefixlen v - prefixlen n') in *.
  assert (Hpj : 0 < 2 ^ j) by (apply Z.pow_pos_nonneg; lia).
  assert (Hfirst : F <= network_address n' <= L).
  { apply Hcov. exists n'. split; [exact Hin|].
    rewrite (in_network_cidr v n'); [fold j; lia | repeat split; assumption || lia]. }
  assert (Hlast : F <= network_address n' + 2 ^ j - 1 <= L).
  { apply Hcov. exists n'. split; [exact Hin|].
    rewrite (in_network_cidr v n'); [fold j; lia | repeat split; assumption || lia]. }
  assert (Hj : j <= max_prefixlen v - prefixlen n).
  { rewrite <- Hv at 1. apply (Hmax (network_address n') j); first [lia | exact Hmod']. }
  assert (Hpk : 0 < 2 ^ (max_prefixlen v - prefixlen n))
    by (apply Z.pow_pos_nonneg; lia).
  destruct (laminar (network_address n') j (network_address n)
              (max_prefixlen v - prefixlen n) (network_address n));
    try lia; try assumption.
  apply in_map_iff. exists n'. split; [lia | exact Hin].
Qed.

Lemma summarize_loop_minimal v f l :
  0 <= f -> l <= ALL_ONES v ->
  exists nets, summarize_loop v f l = Ok nets /\ minimal_cover v nets f l.
Proof.
  intros Hf Hl.
  destruct (summarize_loop_spec v f l f ltac:(lia) Hl) as
    [nets [Hs [Hc [Hcov [Hmax [Hge Hnd]]]]]].
  { intros b j _ _ Hb HF _. lia. }
  exists nets. split; [exact Hs|]. split; [exact Hc|]. split; [exact Hcov|].
  intros nets' Hc' Hcov'.
  rewrite <- (length_map network_address nets), <- (length_map network_address nets').
  apply NoDup_incl_length; [exact Hnd|].
  intros a Ha. apply in_map_iff in Ha. destruct Ha as [n [<- Hn]].
  rewrite Forall_forall in Hc, Hmax.
  apply (cover_has_start v f l nets' n Hc' Hcov' (Hc n Hn) (Hmax n Hn)).
  apply Hcov. exists n. split; [exact Hn|].
  rewrite (in_network_cidr v n _ (Hc n Hn)).
  destruct (Hc n Hn) as [_ [Hp _]].
  assert (0 < 2 ^ (max_prefixlen v - prefixlen n)) by (apply Z.pow_pos_nonneg; lia).
  lia.
Qed.

(** The range reading of two valid addresses in order succeeds with a
    smallest cover of the inclusive range. *)
Theorem summarize_address_range_minimal first last :
  valid_address first -> valid_address last ->
  version first = version last -> address_gt first last = false ->
  exists nets,
    summarize_address_range first last = Ok nets
    /\ minimal_cover (version first) nets (ip first) (ip last).
Proof.
  intros [Hv Hf] [_ Hl] Hvv Hgt. unfold summarize_address_range.
  rewrite Hvv, Z.eqb_refl, Hgt. cbn [negb]. rewrite <- Hvv.
  replace ((version first =? 4) || (version first =? 6)) with true
    by (destruct Hv as [-> | ->]; reflexivity).
  apply summarize_loop_minimal; [lia | rewrite Hvv; lia].
Qed.

Theorem summarize_address_range_cover first last nets :
  valid_address first -> valid_address last ->
  summarize_address_range first last = Ok nets ->
  minimal_cover (version first) nets (ip first) (ip last).
Proof.
  intros Hf Hl Hs.
  assert (Hvv : version first = version last).
  { unfold summarize_address_range in Hs.
    destruct (version first =? version last) eqn:E; [apply Z.eqb_eq, E | discriminate]. }
  assert (Hgt : address_gt first last = false).
  { unfold summarize_address_range in Hs. destruct (negb _); [discriminate|].
    destruct (address_gt first last); [discriminate | reflexivity]. }
  destruct (summarize_address_range_minimal first last Hf Hl Hvv Hgt) as [nets' [Hs' Hm]].
  congruence.
Qed.

End CoverFacts.

(* ===================================================================== *)
(** * Examples *)
(* ===================================================================== *)

Example split_keeps_empty_pieces : Str.split "," "a,,b," = ["a"; ""; "b"; ""].
Proof. reflexivity. Qed.

Example split_whitespace_drops_blanks :
  Str.split_whitespace "  alice  bob " = ["alice"; "bob"].
Proof. reflexivity. Qed.

Example split_dunder_is_greedy : Str.split_dunder "a___b__c_d" = ["a"; "_b"; "c_d"].
Proof. reflexivity. Qed.

Example clean_trims_the_terms : clean " 10.0.0.1 , ,bob  " = "10.0.0.1,bob".
Proof. reflexivity. Qed.

Example ip_address_v4 :
  ipaddress.ip_address "10.0.0.1" = Ok (Address 4 167772161 None).
Proof. reflexivity. Qed.

Example ip_address_leading_zero : ipaddress.ip_address "010.0.0.1" = Raise ValueError.
Proof. reflexivity. Qed.

Example ip_address_of_digits : ipaddress.ip_address "167772161" = Raise ValueError.
Proof. reflexivity. Qed.

Example ip_address_v6 : ipaddress.ip_address "::ffff:10.0.0.1"
                        = Ok (Address 6 281470849515521 None).
Proof. reflexivity. Qed.

Example ip_address_zone : ipaddress.ip_address "fe80::1%eth0"
  = Ok (Address 6 338288524927261089654018896841347694593 (Some "eth0")).
Proof. reflexivity. Qed.

Example ip_address_two_gaps : ipaddress.ip_address "1::2::3" = Raise ValueError.
Proof. reflexivity. Qed.

Example ip_network_prefix :
  ipaddress.ip_network "10.0.0.0/24" = Ok (Network 4 167772160 24).
Proof. reflexivity. Qed.

Example ip_network_netmask :
  ipaddress.ip_network "10.0.0.0/255.255.255.0" = Ok (Network 4 167772160 24).
Proof. reflexivity. Qed.

Example ip_network_host_bits : ipaddress.ip_network "10.0.0.1/24" = Raise ValueError.
Proof. reflexivity. Qed.

Example ip_network_v6 : ipaddress.ip_network "::/0" = Ok (Network 6 0 0).
Proof. reflexivity. Qed.

Example network_ends :
  network_first (Network 4 167772160 24) = Address 4 167772160 None
  /\ network_last (Network 4 167772160 24) = Address 4 167772415 None.
Proof. split; reflexivity. Qed.

Example summarize_mixed_versions :
  summarize_address_range (Address 4 1 None) (Address 6 1 None) = Raise TypeError.
Proof. reflexivity. Qed.

Example summarize_whole_space :
  summarize_address_range (Address 4 0 None) (Address 4 4294967295 None)
  = Ok [Network 4 0 0].
Proof. reflexivity. Qed.

Example range_with_blanks :
  ip_addresses_and_networks_from_query ipaddress.ip_address ipaddress.ip_network
    "10.0.0.4 - 10.0.0.7"
  = Ok (Some (IpsAndNetworks [] [Network 4 167772164 30])).
Proof. reflexivity. Qed.

(** A term with one ['-'] may still be an address: the text after ['%'] is
    a zone, and is not looked into. *)
Example dash_in_a_zone :
  ip_addresses_and_networks_from_query ipaddress.ip_address ipaddress.ip_network
    "::2%a-::1"
  = Ok (Some (IpsAndNetworks [Address 6 2 (Some "a-::1")] [])).
Proof. reflexivity. Qed.

Example search_by_address :
  get_search_results ipaddress.ip_address ipaddress.ip_network sample_registry
    sample_spawns (ip_admin ["email"]) users "10.0.0.0/31"
  = Ok (filter_kw [("activity_ips_ids__isnull", VBool false);
                   ("activitylog_filtered__isnull", VBool false)]
          (annotate
             [("activity_ips",
               GroupConcat (Inet6Ntoa "activitylog__iplog__ip_address_binary") true);
              ("activity_ips_ids", F "activitylog__iplog__id");
              ("activitylog_filtered",
               FilteredRelation "activitylog__iplog"
                 (Q_and
                    (Q_kw "activitylog__iplog__ip_address_binary__range"
                       (VAddrPair (Address 4 167772160 None)
                                  (Address 4 167772161 None)))
                    (Q_kw "activitylog__action__in" (VIntList [1; 2]))))]
             users),
        false).
Proof. reflexivity. Qed.

Example search_by_keywords_on_a_translation :
  get_search_results ipaddress.ip_address ipaddress.ip_network sample_registry
    sample_spawns (default_admin ["=email"; "pk"; "addons__name__localized_string"])
    users "al*ce"
  = Ok (filter
          (Q_wrap
             (Q_or
                (Q_or (Q_kw "email__iexact" (VStr "al%ce"))
                      (Q_kw "pk__icontains" (VStr "al%ce")))
                (Q_kw "addons__name__localized_string__icontains" (VStr "al%ce"))))
          users,
        true).
Proof. reflexivity. Qed.

Example one_number_is_a_keyword :
  get_search_results ipaddress.ip_address ipaddress.ip_network sample_registry
    sample_spawns (default_admin ["email"]) users "123"
  = Ok (filter (Q_wrap (Q_kw "email__icontains" (VStr "123"))) users, false).
Proof. reflexivity. Qed.

(* ===================================================================== *)
(** * The claims of the specification *)
(* ===================================================================== *)

(** C1: if one comma-separated term of a query is purely numeric, the
    classification returns [None], whatever the other terms are, and no
    address search follows: the list display gets no extra column and the
    query set gets the two address annotations without any filter. *)
Theorem C1_numeric_term_excludes_ip_search
    (ip_address : string -> result address)
    (ip_network : string -> result network)
    (self : ModelAdmin) (search_term : string) :
  raises_ValueError ip_address -> raises_ValueError ip_network ->
  (exists term, In term (Str.split "," search_term) /\ Str.isdigit term = true) ->
  ip_addresses_and_networks_from_query ip_address ip_network search_term = Ok None
  /\ get_list_display ip_address ip_network self (Some search_term)
     = Ok (list_display self)
  /\ forall qs,
       get_queryset_with_related_ips self qs None = (with_ip_annotations self qs, false).
Proof.
  intros Ha Hn Hdigit.
  assert (E : ip_addresses_and_networks_from_query ip_address ip_network search_term
              = Ok None).
  { unfold ip_addresses_and_networks_from_query.
    destruct Hdigit as [t [Hin Ht]].
    apply (for_term_in_miss ip_address ip_network Ha Hn _ t Hin). left. exact Ht. }
  split; [exact E|]. split; [|reflexivity].
  unfold get_list_display. destruct (Str.nonempty search_term); [|reflexivity].
  rewrite E. reflexivity.
Qed.

(** C1 at a query with an address and a number. *)
Lemma C1_witness :
  ip_addresses_and_networks_from_query ipaddress.ip_address ipaddress.ip_network
    "10.0.0.1,123" = Ok None
  /\ get_list_display ipaddress.ip_address ipaddress.ip_network (ip_admin [])
       (Some "10.0.0.1,123") = Ok ["email"]
  /\ get_queryset_with_related_ips (ip_admin []) users None
     = (with_ip_annotations (ip_admin []) users, false).
Proof.
  destruct (C1_numeric_term_excludes_ip_search
              ipaddress.ip_address ipaddress.ip_network (ip_admin []) "10.0.0.1,123"
              Reference.ip_address_raises Reference.ip_network_raises)
    as [Hnone [Hdisplay Hqs]].
  - exists "123". split; [right; left; reflexivity | reflexivity].
  - split; [exact Hnone|]. split; [exact Hdisplay | apply Hqs].
Defined.

(** C2: a term that is not a number is read as an address, else as a
    network, else, when it has exactly one ['-'], as a range between two
    addresses, summarized by networks; the first reading that succeeds is
    taken, and a term without a reading makes the classification return
    [None].  The networks of a range are a smallest list of CIDR networks
    that covers exactly the addresses from the first to the last, both
    included.  The query ["10.0.0.1,10.0.0.5-10.0.0.8"] gives the address
    10.0.0.1 and the smallest cover of 10.0.0.5 to 10.0.0.8. *)
Theorem C2_readings_in_order
    (ip_address : string -> result address)
    (ip_network : string -> result network) :
  raises_ValueError ip_address -> raises_ValueError ip_network ->
  returns_valid_addresses ip_address ->
  (forall search_term,
      (forall term, In term (Str.split "," search_term) -> Str.isdigit term = false) ->
      ip_addresses_and_networks_from_query ip_address ip_network search_term
      = Ok (classify_spec ip_address ip_network (Str.split "," search_term)))
  /\ (forall search_term term,
         In term (Str.split "," search_term) ->
         first_reading ip_address ip_network term = None ->
         ip_addresses_and_networks_from_query ip_address ip_network search_term
         = Ok None)
  /\ (forall term l r first last,
         Str.split "-" term = [l; r] ->
         ip_address (Str.strip l) = Ok first ->
         ip_address (Str.strip r) = Ok last ->
         version first = version last -> address_gt first last = false ->
         exists nets,
           read_as_range ip_address term = Some nets
           /\ minimal_cover (version first) nets (ip first) (ip last))
  /\ ip_addresses_and_networks_from_query ipaddress.ip_address ipaddress.ip_network
       "10.0.0.1,10.0.0.5-10.0.0.8"
     = Ok (Some (IpsAndNetworks
                   [Address 4 167772161 None]
                   [Network 4 167772165 32; Network 4 167772166 31;
                    Network 4 167772168 32]))
  /\ minimal_cover 4
       [Network 4 167772165 32; Network 4 167772166 31; Network 4 167772168 32]
       167772165 167772168.
Proof.
  intros Ha Hn Hvalid. split; [|split; [|split; [|split]]].
  - intros search_term Hd. unfold ip_addresses_and_networks_from_query, classify_spec.
    rewrite (for_term_in_spec ip_address ip_network Ha Hn _ Hd). reflexivity.
  - intros search_term term Hin Hr. unfold ip_addresses_and_networks_from_query.
    apply (for_term_in_miss ip_address ip_network Ha Hn _ term Hin). right. exact Hr.
  - intros term l r first last Hsplit Hl Hr Hv Hgt.
    destruct (CoverFacts.summarize_address_range_minimal first last
                (Hvalid _ _ Hl) (Hvalid _ _ Hr) Hv Hgt) as [nets [Hs Hm]].
    exists nets. split; [|exact Hm].
    assert (Hc : Str.count "-" term = 1).
    { pose proof (StrFacts.split_length_count "-" term) as E.
      rewrite Hsplit in E. cbn [length] in E. lia. }
    unfold read_as_range. rewrite Hc, Hsplit, Hl, Hr, Hs. reflexivity.
  - reflexivity.
  - apply (CoverFacts.summarize_address_range_cover
             (Address 4 167772165 None) (Address 4 167772168 None)).
    + split; [left; reflexivity | cbn; lia].
    + split; [left; reflexivity | cbn; lia].
    + reflexivity.
Qed.

(** C2 at a query with a network, a range written with blanks and an
    address of version 6, and at the range of that query. *)
Lemma C2_witness :
  ip_addresses_and_networks_from_query ipaddress.ip_address ipaddress.ip_network
    "10.0.0.0/24,10.0.0.5 - 10.0.0.8,::1"
  = Ok (classify_spec ipaddress.ip_address ipaddress.ip_network
          ["10.0.0.0/24"; "10.0.0.5 - 10.0.0.8"; "::1"])
  /\ exists nets,
       read_as_range ipaddress.ip_address "10.0.0.5 - 10.0.0.8" = Some nets
       /\ minimal_cover 4 nets 167772165 167772168.
Proof.
  pose proof (C2_readings_in_order ipaddress.ip_address ipaddress.ip_network
                Reference.ip_address_raises Reference.ip_network_raises
                Reference.ip_address_valid) as [Hspec [_ [Hrange _]]].
  split.
  - apply (Hspec "10.0.0.0/24,10.0.0.5 - 10.0.0.8,::1").
    intros term [<-|[<-|[<-|[]]]]; reflexivity.
  - apply (Hrange "10.0.0.5 - 10.0.0.8" "10.0.0.5 " " 10.0.0.8"
             (Address 4 167772165 None) (Address 4 167772168 None));
      reflexivity.
Defined.

(** C8: the classification of a query never raises: a parse that fails is
    caught, and the result is a classification or [None]. *)
Theorem C8_classification_never_raises
    (ip_address : string -> result address)
    (ip_network : string -> result network) (search_term : string) :
  raises_ValueError ip_address -> raises_ValueError ip_network ->
  exists r,
    ip_addresses_and_networks_from_query ip_address ip_network search_term = Ok r.
Proof.
  intros Ha Hn. unfold ip_addresses_and_networks_from_query.
  apply (for_term_in_returns ip_address ip_network Ha Hn).
Qed.

(** C8 at a query with terms of every kind. *)
Lemma C8_witness :
  exists r,
    ip_addresses_and_networks_from_query ipaddress.ip_address ipaddress.ip_network
      "10.0.0.1,fe80::/64,1.2.3.4-x,,%" = Ok r.
Proof.
  apply (C8_classification_never_raises ipaddress.ip_address ipaddress.ip_network
           "10.0.0.1,fe80::/64,1.2.3.4-x,,%"
           Reference.ip_address_raises Reference.ip_network_raises).
Defined.

(** C10 as stated fails: a term with one ['-'] between two addresses, the
    first above the second, is not always without a reading.  In
    ["::2%a-::1"] the two sides are the addresses ::2 (of zone a) and ::1,
    in reversed order, yet the term is an address itself, ::2 with the zone
    ["a-::1"], and the query is classified with that address. *)
Lemma C10_counterexample :
  Str.split "-" "::2%a-::1" = ["::2%a"; "::1"]
  /\ ipaddress.ip_address (Str.strip "::2%a") = Ok (Address 6 2 (Some "a"))
  /\ ipaddress.ip_address (Str.strip "::1") = Ok (Address 6 1 None)
  /\ ip (Address 6 1 None) < ip (Address 6 2 (Some "a"))
  /\ ip_addresses_and_networks_from_query ipaddress.ip_address ipaddress.ip_network
       "::2%a-::1"
     = Ok (Some (IpsAndNetworks [Address 6 2 (Some "a-::1")] []))
  /\ ip_addresses_and_networks_from_query ipaddress.ip_address ipaddress.ip_network
       "::2%a-::1"
     <> Ok None.
Proof.
  split; [reflexivity|]. split; [reflexivity|]. split; [reflexivity|].
  split; [reflexivity|]. split; [reflexivity | discriminate].
Qed.

(** C10, amended: a term that is neither an address nor a network itself
    and is read as a range whose first address is above the second has no
    reading: [summarize_address_range] raises, the exception is caught, and
    the classification of the whole query returns [None]; the two addresses
    are not swapped. *)
Theorem C10_reversed_range_falls_back
    (ip_address : string -> result address)
    (ip_network : string -> result network)
    (search_term term l r : string) (first last : address) :
  raises_ValueError ip_address -> raises_ValueError ip_network ->
  In term (Str.split "," search_term) ->
  raises (ip_address term) -> raises (ip_network term) ->
  Str.split "-" term = [l; r] ->
  ip_address (Str.strip l) = Ok first ->
  ip_address (Str.strip r) = Ok last ->
  ip last < ip first ->
  (exists e, summarize_address_range first last = Raise e
             /\ existsb (isinstance e) [ValueError; TypeError] = true)
  /\ read_as_range ip_address term = None
  /\ ip_addresses_and_networks_from_query ip_address ip_network search_term = Ok None.
Proof.
  intros Ha Hn Hin [e1 H1] [e2 H2] Hsplit Hl Hr Hlt.
  pose proof (summarize_address_range_reversed first last Hlt) as Hrev.
  assert (Hrange : read_as_range ip_address term = None).
  { unfold read_as_range. rewrite Hsplit, Hl, Hr.
    destruct Hrev as [e [-> _]]. destruct (_ =? _); reflexivity. }
  split; [exact Hrev|]. split; [exact Hrange|].
  unfold ip_addresses_and_networks_from_query.
  apply (for_term_in_miss ip_address ip_network Ha Hn _ term Hin). right.
  unfold first_reading. rewrite H1, H2, Hrange. reflexivity.
Qed.

(** C10 at a query with an address and a reversed range. *)
Lemma C10_witness :
  ip_addresses_and_networks_from_query ipaddress.ip_address ipaddress.ip_network
    "10.0.0.1,10.0.0.8-10.0.0.5" = Ok None.
Proof.
  apply (C10_reversed_range_falls_back ipaddress.ip_address ipaddress.ip_network
           "10.0.0.1,10.0.0.8-10.0.0.5" "10.0.0.8-10.0.0.5" "10.0.0.8" "10.0.0.5"
           (Address 4 167772168 None) (Address 4 167772165 None)
           Reference.ip_address_raises Reference.ip_network_raises).
  - right; left; reflexivity.
  - exists ValueError. reflexivity.
  - exists ValueError. reflexivity.
  - reflexivity.
  - reflexivity.
  - reflexivity.
  - cbn. lia.
Defined.

(** C3 as stated fails: without a comma the raw string is not kept as one
    term.  ["alice bob"] is split on the blank into two terms, and the
    filter is the AND of the predicates of the two. *)
Lemma C3_counterexample :
  search_terms_of "alice bob" = ["alice"; "bob"]
  /\ search_terms_of "alice bob" <> ["alice bob"]
  /\ get_search_results ipaddress.ip_address ipaddress.ip_network
       sample_registry sample_spawns (default_admin ["email"]) users "alice bob"
     = Ok (filter
             (Q_and (Q_wrap (Q_kw "email__icontains" (VStr "alice")))
                    (Q_wrap (Q_kw "email__icontains" (VStr "bob"))))
             users, false).
Proof. split; [reflexivity|]. split; [discriminate | reflexivity]. Qed.

(** C3, amended: in a keyword search the predicates of the terms are joined
    with OR when the raw string has a comma, and the terms are then the
    pieces between the commas; otherwise they are joined with AND, and the
    terms are the pieces between runs of whitespace.  The predicate of one
    term is the OR of its lookups on the search fields.  ["alice,bob"] gives
    the terms alice and bob joined by OR, ["alice bob"] the terms alice and
    bob joined by AND. *)
Theorem C3_terms_are_joined
    (ip_address : string -> result address)
    (ip_network : string -> result network)
    (registry : string -> options)
    (admin_utils_lookup_spawns_duplicates : options -> string -> bool)
    (self : ModelAdmin) (qs : QuerySet) (search_term : string) :
  not_ip_search ip_address ip_network self search_term ->
  search_fields self <> [] -> search_term <> EmptyString ->
  is_id_search self search_term = false ->
  (exists orm_lookups,
      mapM (construct_search registry qs) (search_fields self) = Ok orm_lookups
      /\ get_search_results ip_address ip_network registry
           admin_utils_lookup_spawns_duplicates self qs search_term
         = Ok (filter_joined
                 (if Str.contains "," search_term then Q_or else Q_and)
                 (map (any_field orm_lookups) (search_terms_of search_term))
                 (keyword_base self qs),
               existsb
                 (lookup_spawns_duplicates admin_utils_lookup_spawns_duplicates
                    (opts self))
                 orm_lookups))
  /\ search_terms_of search_term
     = (if Str.contains "," search_term
        then Str.split "," (Str.replace "*" "%" search_term)
        else Str.split_whitespace (Str.replace "*" "%" search_term))
  /\ (Str.contains "," "alice,bob" = true
      /\ search_terms_of "alice,bob" = ["alice"; "bob"])
  /\ (Str.contains "," "alice bob" = false
      /\ search_terms_of "alice bob" = ["alice"; "bob"]).
Proof.
  intros Hip Hf Hs Hid. split; [|split; [|split; split; reflexivity]].
  - destruct (search_by_keywords ip_address ip_network registry
                admin_utils_lookup_spawns_duplicates self qs search_term
                Hip Hf Hs Hid) as [orm_lookups [Hm [_ Hr]]].
    exists orm_lookups. split; assumption.
  - unfold search_terms_of, separator, Str.split_opt.
    destruct (Str.contains "," search_term); reflexivity.
Qed.

(** C3 at a query with a comma and a wildcard. *)
Lemma C3_witness :
  exists orm_lookups,
    mapM (construct_search sample_registry users) ["=email"; "addons__name"]
    = Ok orm_lookups
    /\ get_search_results ipaddress.ip_address ipaddress.ip_network sample_registry
         sample_spawns (ip_admin ["=email"; "addons__name"]) users "al*ce,bob"
       = Ok (filter_joined Q_or
               (map (any_field orm_lookups) ["al%ce"; "bob"])
               (with_ip_annotations (ip_admin ["=email"; "addons__name"]) users),
             existsb (lookup_spawns_duplicates sample_spawns sample_user) orm_lookups).
Proof.
  apply (proj1 (C3_terms_are_joined ipaddress.ip_address ipaddress.ip_network
                  sample_registry sample_spawns (ip_admin ["=email"; "addons__name"])
                  users "al*ce,bob"
                  (or_intror eq_refl)
                  ltac:(discriminate) ltac:(discriminate) eq_refl)).
Defined.




(** C5 as stated fails: the range test on a network is not half-open.  The
    last address of the network 10.0.0.0/31 satisfies the condition built
    for the query ["10.0.0.0/31"], and a half-open test would leave it
    out. *)
Lemma C5_counterexample :
  ip_addresses_and_networks_from_query ipaddress.ip_address ipaddress.ip_network
    "10.0.0.0/31"
  = Ok (Some (IpsAndNetworks [] [Network 4 167772160 31]))
  /\ holds "activitylog" (LogRow (Address 4 167772161 None) 1)
       (filtered_condition (ip_admin [])
          (IpsAndNetworks [] [Network 4 167772160 31]))
     = true
  /\ ip_predicate false [1; 2] (IpsAndNetworks [] [Network 4 167772160 31])
       (LogRow (Address 4 167772161 None) 1)
     = false.
Proof. repeat split. Qed.

(** C5, amended: for a query classified as an address search the condition
    of the filtered relation is the OR of the membership of the address of
    the row in the list of addresses and, for each network, of a range test
    from the first to the last address of the network, both included; the
    whole restricted (AND) to the rows whose action is in
    [search_by_ip_actions].  The query set is annotated with it and
    filtered on its presence. *)
Theorem C5_ip_condition
    (ip_address : string -> result address)
    (ip_network : string -> result network)
    (self : ModelAdmin) (qs : QuerySet) (search_term : string)
    (d : ips_and_networks) :
  raises_ValueError ip_address -> raises_ValueError ip_network ->
  ip_addresses_and_networks_from_query ip_address ip_network search_term
  = Ok (Some d) ->
  get_queryset_with_related_ips self qs (Some d)
  = (filter_kw [("activity_ips_ids__isnull", VBool false);
                ("activitylog_filtered__isnull", VBool false)]
       (annotate
          [("activity_ips",
            GroupConcat
              (Inet6Ntoa (search_by_ip_activity_accessor self
                          ++ "__iplog__ip_address_binary")) true);
           ("activity_ips_ids",
            F (search_by_ip_activity_accessor self ++ "__iplog__id"));
           ("activitylog_filtered",
            FilteredRelation (search_by_ip_activity_accessor self ++ "__iplog")
              (filtered_condition self d))] qs),
     false)
  /\ forall row,
       holds (search_by_ip_activity_accessor self) row
         (filtered_condition self d)
       = ip_predicate true (search_by_ip_actions self) d row.
Proof.
  intros Ha Hn Hcls.
  pose proof (classified_not_empty ip_address ip_network Ha Hn search_term d Hcls)
    as Hne.
  split; [apply related_ips_Some, Hne|].
  intros row. apply holds_filtered_condition, Hne.
Qed.

(** C5 at the query of C2, on a row inside the range. *)
Lemma C5_witness :
  holds "activitylog" (LogRow (Address 4 167772167 None) 2)
    (filtered_condition (ip_admin [])
       (IpsAndNetworks [Address 4 167772161 None]
          [Network 4 167772165 32; Network 4 167772166 31;
           Network 4 167772168 32]))
  = ip_predicate true [1; 2]
      (IpsAndNetworks [Address 4 167772161 None]
         [Network 4 167772165 32; Network 4 167772166 31;
          Network 4 167772168 32])
      (LogRow (Address 4 167772167 None) 2).
Proof.
  apply (proj2 (C5_ip_condition ipaddress.ip_address ipaddress.ip_network
                  (ip_admin []) users "10.0.0.1,10.0.0.5-10.0.0.8"
                  (IpsAndNetworks [Address 4 167772161 None]
                     [Network 4 167772165 32; Network 4 167772166 31;
                      Network 4 167772168 32])
                  Reference.ip_address_raises Reference.ip_network_raises
                  eq_refl)).
Defined.

(** C6: the flag that tells whether the results may contain duplicates
    depends on the mode of the search.  An address search returns it false.
    A keyword search returns it true exactly when one of the lookups built
    from the search fields spawns duplicates, which is what Django says of
    the lookup, or true when the lookup names a translation field
    ([localized_string] or [localized_string_clean]). *)
Theorem C6_may_have_duplicates
    (ip_address : string -> result address)
    (ip_network : string -> result network)
    (registry : string -> options)
    (admin_utils_lookup_spawns_duplicates : options -> string -> bool)
    (self : ModelAdmin) (qs : QuerySet) (search_term : string) :
  (forall d,
      search_by_ip_actions self <> [] ->
      ip_addresses_and_networks_from_query ip_address ip_network search_term
      = Ok (Some d) ->
      exists qs',
        get_search_results ip_address ip_network registry
          admin_utils_lookup_spawns_duplicates self qs search_term
        = Ok (qs', false))
  /\ (not_ip_search ip_address ip_network self search_term ->
      search_fields self <> [] -> search_term <> EmptyString ->
      is_id_search self search_term = false ->
      exists qs' orm_lookups,
        mapM (construct_search registry qs) (search_fields self) = Ok orm_lookups
        /\ get_search_results ip_address ip_network registry
             admin_utils_lookup_spawns_duplicates self qs search_term
           = Ok (qs',
                 existsb
                   (fun orm_lookup =>
                      admin_utils_lookup_spawns_duplicates (opts self) orm_lookup
                      || names_translation orm_lookup)
                   orm_lookups))
  /\ (forall opts lookup_path,
         lookup_spawns_duplicates admin_utils_lookup_spawns_duplicates opts lookup_path
         = admin_utils_lookup_spawns_duplicates opts lookup_path
           || names_translation lookup_path).
Proof.
  assert (Hspawn : forall opts lookup_path,
    lookup_spawns_duplicates admin_utils_lookup_spawns_duplicates opts lookup_path
    = admin_utils_lookup_spawns_duplicates opts lookup_path
      || names_translation lookup_path).
  { intros o p. unfold lookup_spawns_duplicates, names_translation. cbv zeta.
    cbn [existsb]. rewrite orb_false_r.
    assert (E : forall a l, existsb (String.eqb a) l
                            = existsb (fun x => String.eqb x a) l).
    { intros a l. induction l as [|x l IH]; cbn; [reflexivity|].
      rewrite IH, String.eqb_sym. reflexivity. }
    rewrite !E.
    destruct (existsb (fun x => String.eqb x "localized_string") (Str.split_dunder p)
              || existsb (fun x => String.eqb x "localized_string_clean")
                   (Str.split_dunder p));
      [rewrite orb_true_r | rewrite orb_false_r]; reflexivity. }
  split; [|split; [|exact Hspawn]].
  - intros d Hact Hcls.
    rewrite (search_by_ip ip_address ip_network registry
               admin_utils_lookup_spawns_duplicates self qs search_term d Hact Hcls).
    pose proof (related_ips_flag self qs (Some d)) as Hflag.
    destruct (get_queryset_with_related_ips self qs (Some d)) as [qs' flag].
    cbn [snd] in Hflag. subst flag. exists qs'. reflexivity.
  - intros Hip Hf Hs Hid.
    destruct (search_by_keywords ip_address ip_network registry
                admin_utils_lookup_spawns_duplicates self qs search_term
                Hip Hf Hs Hid) as [orm_lookups [Hm [_ Hr]]].
    eexists. exists orm_lookups. split; [exact Hm|]. rewrite Hr. f_equal. f_equal.
    apply existsb_pointwise. intros l. apply Hspawn.
Qed.

(** C6 at an address search and at a keyword search on a translated
    field. *)
Lemma C6_witness :
  (exists qs',
      get_search_results ipaddress.ip_address ipaddress.ip_network sample_registry
        sample_spawns (ip_admin ["=email"; "addons__name__localized_string"])
        users "10.0.0.1"
      = Ok (qs', false))
  /\ exists qs' orm_lookups,
       mapM (construct_search sample_registry users)
         ["=email"; "addons__name__localized_string"] = Ok orm_lookups
       /\ get_search_results ipaddress.ip_address ipaddress.ip_network
            sample_registry sample_spawns
            (ip_admin ["=email"; "addons__name__localized_string"]) users "alice"
          = Ok (qs',
                existsb
                  (fun orm_lookup =>
                     sample_spawns sample_user orm_lookup
                     || names_translation orm_lookup)
                  orm_lookups).
Proof.
  split.
  - apply (proj1
             (C6_may_have_duplicates ipaddress.ip_address ipaddress.ip_network
                sample_registry sample_spawns
                (ip_admin ["=email"; "addons__name__localized_string"]) users
                "10.0.0.1")
             (IpsAndNetworks [Address 4 167772161 None] [])
             ltac:(discriminate) eq_refl).
  - apply (proj1 (proj2
             (C6_may_have_duplicates ipaddress.ip_address ipaddress.ip_network
                sample_registry sample_spawns
                (ip_admin ["=email"; "addons__name__localized_string"]) users
                "alice"))
             (or_intror eq_refl) ltac:(discriminate) ltac:(discriminate) eq_refl).
Defined.

(** C7 as stated fails: it is not the last segment alone that decides.
    In ["email__iexact__email"] the last segment is a field of the model,
    yet the name is used as it is, because the segment before it is a
    lookup of the field [email]. *)
Lemma C7_counterexample :
  construct_search sample_registry users "email__iexact__email"
  = Ok "email__iexact__email"
  /\ Str.split_dunder "email__iexact__email" = ["email"; "iexact"] ++ ["email"]
  /\ is_lookup_of_previous
       (fst (walk sample_registry (sample_registry (model users)) None
               ["email"; "iexact"]))
       (snd (walk sample_registry (sample_registry (model users)) None
               ["email"; "iexact"]))
       "email" = false
  /\ construct_search sample_registry users "email__iexact__email"
     <> Ok "email__iexact__email__icontains".
Proof. repeat split. discriminate. Qed.

(** C7, amended: the lookup of a search field follows its first character:
    [^] gives a case-insensitive starts-with, [=] a case-insensitive exact
    and [@] a case-insensitive contains lookup on the rest of the name.
    Otherwise the field path is walked through the relations: when one of
    its segments (the last one in particular) is not a field of the model
    reached but a lookup of the previous field, the name is used as it is,
    and else a case-insensitive contains lookup is added.  Every ['*'] of the
    raw search text is replaced by ['%'] before the text is split into
    terms. *)
Theorem C7_lookup_of_a_search_field
    (registry : string -> options) (qs : QuerySet) :
  (forall name,
      construct_search registry qs (String "^" name)
      = Ok (name ++ "__istartswith")%string)
  /\ (forall name,
         construct_search registry qs (String "=" name)
         = Ok (name ++ "__iexact")%string)
  /\ (forall name,
         construct_search registry qs (String "@" name)
         = Ok (name ++ "__icontains")%string)
  /\ (forall field_name,
         Str.startswith "^" field_name = false ->
         Str.startswith "=" field_name = false ->
         Str.startswith "@" field_name = false ->
         (includes_lookup registry (registry (model qs))
            (Str.split_dunder field_name) ->
          construct_search registry qs field_name = Ok field_name)
         /\ (~ includes_lookup registry (registry (model qs))
                 (Str.split_dunder field_name) ->
             construct_search registry qs field_name
             = Ok (field_name ++ "__icontains")%string))
  /\ (forall path path_part,
         is_lookup_of_previous
           (fst (walk registry (registry (model qs)) None path))
           (snd (walk registry (registry (model qs)) None path)) path_part = true ->
         includes_lookup registry (registry (model qs)) (path ++ [path_part]))
  /\ (forall search_term,
         search_terms_of search_term
         = Str.split_opt (separator search_term) (Str.replace "*" "%" search_term)
         /\ Forall (fun term => Str.contains "*" term = false)
              (search_terms_of search_term)).
Proof.
  split; [|split; [|split; [|split; [|split]]]]; try (intros name; reflexivity).
  - intros field_name H1 H2 H3. apply construct_search_lookup; assumption.
  - intros path path_part. apply includes_lookup_last.
  - intros search_term. split; [reflexivity | apply search_terms_no_star].
Qed.

(** C7 at a search field that ends with a lookup and at one that is a path
    of fields. *)
Lemma C7_witness :
  construct_search sample_registry users "email__iexact" = Ok "email__iexact"
  /\ construct_search sample_registry users "addons__name"
     = Ok "addons__name__icontains".
Proof.
  pose proof (C7_lookup_of_a_search_field sample_registry users)
    as [_ [_ [_ [Hpath [Hlast _]]]]].
  split.
  - apply (proj1 (Hpath "email__iexact" eq_refl eq_refl eq_refl)).
    apply (Hlast ["email"] "iexact"). reflexivity.
  - apply (proj2 (Hpath "addons__name" eq_refl eq_refl eq_refl)).
    intros [before [path_part [after [E H]]]].
    destruct before as [|a [|b [|c before]]]; cbn [app] in E.
    + injection E as <- <-. discriminate H.
    + injection E as <- <- <-. discriminate H.
    + injection E as _ _ E. discriminate E.
    + injection E as _ _ E. destruct before; discriminate E.
Defined.

(** C9 as stated fails: with no search fields configured an address search
    still filters.  With the search by address on and no search field, the
    query ["10.0.0.1"] is answered by a filtered query set. *)
Lemma C9_counterexample :
  search_fields (ip_admin []) = []
  /\ (exists qs',
         get_search_results ipaddress.ip_address ipaddress.ip_network
           sample_registry sample_spawns (ip_admin []) users "10.0.0.1"
         = Ok (qs', false)
         /\ existsb is_filter (ops qs') = true)
  /\ get_search_results ipaddress.ip_address ipaddress.ip_network
       sample_registry sample_spawns (ip_admin []) users "10.0.0.1"
     <> Ok (users, false).
Proof.
  split; [reflexivity|]. split.
  - eexists. split; reflexivity.
  - discriminate.
Qed.

(** C9, amended: for an empty search term, and for an admin without search
    fields when the query is not an address search (always, when the search
    by address is off), [get_search_results] raises nothing and adds no
    filter: the query set comes back as it is when the search by address is
    off, and with the two address annotations only when it is on. *)
Theorem C9_nothing_to_search
    (ip_address : string -> result address)
    (ip_network : string -> result network)
    (registry : string -> options)
    (admin_utils_lookup_spawns_duplicates : options -> string -> bool)
    (self : ModelAdmin) (qs : QuerySet) (search_term : string) :
  raises_ValueError ip_address -> raises_ValueError ip_network ->
  needs_separator ip_address -> needs_separator ip_network ->
  search_term = EmptyString
  \/ (search_fields self = []
      /\ not_ip_search ip_address ip_network self search_term) ->
  get_search_results ip_address ip_network registry
    admin_utils_lookup_spawns_duplicates self qs search_term
  = Ok (keyword_base self qs, false)
  /\ List.filter is_filter (ops (keyword_base self qs)) = List.filter is_filter (ops qs)
  /\ (search_by_ip_actions self = [] -> keyword_base self qs = qs).
Proof.
  intros Ha Hn Hsa Hsn Hcase. split; [|split].
  - destruct Hcase as [-> | [Hf Hip]].
    + apply search_noop; [|right; reflexivity].
      right. apply (numeric_not_ip ip_address ip_network Ha Hn Hsa Hsn). reflexivity.
    + apply search_noop; [exact Hip | left; exact Hf].
  - unfold keyword_base, with_ip_annotations, annotate.
    destruct (Str.nonempty_list (search_by_ip_actions self)); [|reflexivity].
    cbn [ops]. rewrite filter_app. cbn. apply app_nil_r.
  - intros Hoff. unfold keyword_base. rewrite Hoff. reflexivity.
Qed.

(** C9 at an empty query and at an admin without search fields. *)
Lemma C9_witness :
  get_search_results ipaddress.ip_address ipaddress.ip_network sample_registry
    sample_spawns (ip_admin ["email"]) users ""
  = Ok (with_ip_annotations (ip_admin ["email"]) users, false)
  /\ get_search_results ipaddress.ip_address ipaddress.ip_network sample_registry
       sample_spawns (default_admin []) users "alice"
     = Ok (users, false).
Proof.
  split.
  - apply (proj1 (C9_nothing_to_search ipaddress.ip_address ipaddress.ip_network
                    sample_registry sample_spawns (ip_admin ["email"]) users ""
                    Reference.ip_address_raises Reference.ip_network_raises
                    Reference.ip_address_separator Reference.ip_network_separator
                    (or_introl eq_refl))).
  - apply (proj1 (C9_nothing_to_search ipaddress.ip_address ipaddress.ip_network
                    sample_registry sample_spawns (default_admin []) users "alice"
                    Reference.ip_address_raises Reference.ip_network_raises
                    Reference.ip_address_separator Reference.ip_network_separator
                    (or_intror (conj eq_refl (or_introl eq_refl))))).
Defined.

(* ===================================================================== *)
(** * More facts about strings: stripping, joining, splitting *)
(* ===================================================================== *)

Module CleanFacts.
Import Str.

Lemma lstrip_starts_clean s : starts_clean (lstrip s) = true.
Proof.
  induction s as [|c s IH]; cbn [lstrip]; [reflexivity|].
  destruct (char_isspace c) eqn:E; [exact IH | cbn; rewrite E; reflexivity].
Qed.

Lemma lstrip_clean s : starts_clean s = true -> lstrip s = s.
Proof.
  destruct s as [|c s]; cbn; [reflexivity|].
  destruct (char_isspace c); [discriminate | reflexivity].
Qed.

Lemma rstrip_cons c s :
  rstrip (String c s)
  = match rstrip s with
    | EmptyString => if char_isspace c then EmptyString else String c EmptyString
    | r => String c r
    end.
Proof. reflexivity. Qed.

Lemma rstrip_ends_clean s : ends_clean (rstrip s) = true.
Proof.
  induction s as [|c s IH]; [reflexivity|]. rewrite rstrip_cons.
  destruct (rstrip s) as [|d r].
  - destruct (char_isspace c) eqn:E; cbn; [reflexivity | rewrite E; reflexivity].
  - exact IH.
Qed.

Lemma rstrip_clean s : ends_clean s = true -> rstrip s = s.
Proof.
  induction s as [|c s IH]; [reflexivity|]. intros H. rewrite rstrip_cons.
  destruct s as [|d s'].
  - cbn in *. destruct (char_isspace c); [discriminate | reflexivity].
  - rewrite (IH H). reflexivity.
Qed.

Lemma lstrip_ends_clean s : ends_clean s = true -> ends_clean (lstrip s) = true.
Proof.
  induction s as [|c s IH]; [reflexivity|]. intros H. cbn [lstrip].
  destruct (char_isspace c) eqn:E; [|exact H].
  apply IH. destruct s; [reflexivity | exact H].
Qed.

(** A stripped string is one that stripping leaves as it is. *)
Lemma strip_clean s :
  starts_clean s = true -> ends_clean s = true -> strip s = s.
Proof.
  intros H1 H2. unfold strip. rewrite (rstrip_clean _ H2). apply lstrip_clean, H1.
Qed.

Lemma strip_is_clean s :
  starts_clean (strip s) = true /\ ends_clean (strip s) = true.
Proof.
  unfold strip. split; [apply lstrip_starts_clean|].
  apply lstrip_ends_clean, rstrip_ends_clean.
Qed.

Lemma strip_idempotent s : strip (strip s) = strip s.
Proof. destruct (strip_is_clean s) as [H1 H2]. apply strip_clean; assumption. Qed.

(** Stripping adds no character. *)
Lemma contains_lstrip c s : contains c (lstrip s) = true -> contains c s = true.
Proof.
  induction s as [|d s IH]; cbn [lstrip]; [discriminate|].
  destruct (char_isspace d); [|trivial].
  intros H. cbn [contains]. rewrite (IH H). apply orb_true_r.
Qed.

Lemma contains_rstrip c s : contains c (rstrip s) = true -> contains c s = true.
Proof.
  induction s as [|d s IH]; [discriminate|]. rewrite rstrip_cons.
  destruct (rstrip s) as [|e r].
  - destruct (char_isspace d); [discriminate|].
    cbn [contains]. rewrite orb_false_r. intros ->. reflexivity.
  - cbn [contains] in *. intros H. apply orb_true_iff in H.
    destruct H as [-> | H]; [reflexivity|]. rewrite (IH H). apply orb_true_r.
Qed.

Lemma contains_strip c s : contains c (strip s) = true -> contains c s = true.
Proof. unfold strip. intros H. apply contains_rstrip, contains_lstrip, H. Qed.

Lemma not_contains_strip c s : contains c s = false -> contains c (strip s) = false.
Proof.
  intros H. destruct (contains c (strip s)) eqn:E; [|reflexivity].
  rewrite (contains_strip _ _ E) in H. discriminate.
Qed.

(** The pieces of a split do not contain the separator. *)
Lemma split_pieces sep s : Forall (fun t => contains sep t = false) (split sep s).
Proof.
  induction s as [|c s IH]; cbn [split].
  - constructor; [reflexivity | constructor].
  - destruct (Ascii.eqb c sep) eqn:E.
    + constructor; [reflexivity | exact IH].
    + destruct (split sep s) as [|w ws]; inversion IH; subst;
        constructor; cbn [contains]; rewrite ?E; auto.
Qed.

Lemma split_app_sep sep x rest :
  contains sep x = false ->
  split sep (x ++ String sep rest) = x :: split sep rest.
Proof.
  induction x as [|c x IH]; cbn [append split contains].
  - intros _. rewrite Ascii.eqb_refl. reflexivity.
  - intros H. apply orb_false_iff in H. destruct H as [Hc Hx].
    rewrite Hc, (IH Hx). reflexivity.
Qed.

(** Splitting what was joined gives the pieces back. *)
Lemma split_join sep l :
  l <> [] -> Forall (fun t => contains sep t = false) l ->
  split sep (join (String sep EmptyString) l) = l.
Proof.
  induction l as [|x [|y l] IH]; intros Hne HF; [contradiction| |].
  - cbn [join]. inversion HF; subst. apply StrFacts.contains_false_split. assumption.
  - inversion HF as [|? ? Hx Hrest]; subst.
    change (join (String sep EmptyString) (x :: y :: l))
      with (x ++ String sep (join (String sep EmptyString) (y :: l)))%string.
    rewrite (split_app_sep _ _ _ Hx). f_equal. apply IH; [discriminate | exact Hrest].
Qed.

Lemma contains_app c a b : contains c (a ++ b) = contains c a || contains c b.
Proof.
  induction a as [|d a IH]; cbn [append contains]; [reflexivity|].
  rewrite IH. apply orb_assoc.
Qed.



Lemma contains_replace_false c a b s :
  contains c s = false -> c <> b -> contains c (replace a b s) = false.
Proof.
  intros H Hb. induction s as [|d s IH]; [reflexivity|].
  cbn [contains replace] in *. apply orb_false_iff in H. destruct H as [Hd Hs].
  rewrite (IH Hs), orb_false_r. destruct (Ascii.eqb d a); [|exact Hd].
  apply Ascii.eqb_neq. congruence.
Qed.

End CleanFacts.

(** The terms the form keeps are not empty, are stripped and have no
    comma. *)
Lemma cleaned_terms_clean s :
  Forall (fun t => t <> EmptyString /\ Str.strip t = t /\ Str.contains "," t = false)
    (cleaned_terms s).
Proof.
  unfold cleaned_terms. apply Forall_forall. intros t Ht.
  apply filter_In in Ht. destruct Ht as [Ht Hne].
  apply in_map_iff in Ht. destruct Ht as [u [<- Hu]].
  split; [apply StrFacts.nonempty_true, Hne|].
  split; [apply CleanFacts.strip_idempotent|].
  apply CleanFacts.not_contains_strip.
  pose proof (CleanFacts.split_pieces "," s) as HF.
  rewrite Forall_forall in HF. apply HF, Hu.
Qed.

Lemma cleaned_terms_no_comma s :
  Forall (fun t => Str.contains "," t = false) (cleaned_terms s).
Proof.
  eapply Forall_impl; [|apply cleaned_terms_clean]. intros t [_ [_ H]]. exact H.
Qed.

Lemma clean_with_comma s :
  Str.contains "," s = true -> clean s = Str.join "," (cleaned_terms s).
Proof. intros H. unfold clean, cleaned_terms. rewrite H. reflexivity. Qed.

Lemma cleaned_terms_fixed l :
  Forall (fun t => t <> EmptyString /\ Str.strip t = t /\ Str.contains "," t = false) l ->
  List.filter Str.nonempty (map Str.strip l) = l.
Proof.
  induction l as [|t l IH]; intros HF; [reflexivity|].
  inversion HF as [|? ? [Hne [Hs _]] Hl]; subst. cbn [map List.filter].
  rewrite Hs. apply StrFacts.nonempty_true in Hne. rewrite Hne, (IH Hl). reflexivity.
Qed.

Section Separators.

Variable ip_address : string -> result address.
Variable ip_network : string -> result network.

Hypothesis ip_address_separator : needs_separator ip_address.
Hypothesis ip_network_separator : needs_separator ip_network.

(** A term without ['.'] and [':'] has none of the three readings: the two
    sides of a range are pieces of the term. *)
Lemma no_reading_without_separator t :
  Str.contains "." t = false -> Str.contains ":" t = false ->
  first_reading ip_address ip_network t = None.
Proof.
  intros Hdot Hcolon. unfold first_reading.
  destruct (ip_address t) as [a|e] eqn:Ea.
  { apply ip_address_separator in Ea. rewrite Hdot, Hcolon in Ea. discriminate. }
  destruct (ip_network t) as [n|e'] eqn:En.
  { apply ip_network_separator in En. rewrite Hdot, Hcolon in En. discriminate. }
  unfold read_as_range. destruct (Str.count "-" t =? 1); [|reflexivity].
  destruct (Str.split "-" t) as [|l [|r [|x xs]]] eqn:Es; try reflexivity.
  destruct (ip_address (Str.strip l)) as [first|] eqn:El; [|reflexivity].
  exfalso. apply ip_address_separator in El. apply orb_true_iff in El.
  assert (Hin : In l (Str.split "-" t)) by (rewrite Es; left; reflexivity).
  destruct El as [El|El]; apply CleanFacts.contains_strip in El;
    pose proof (StrFacts.in_split_contains _ _ _ _ Hin El) as H; congruence.
Qed.

End Separators.

(** A list of networks that covers a range, as a test on one address. *)
Lemma cover_in_block v nets lo hi x :
  Forall (cidr v) nets -> covers nets lo hi ->
  existsb (in_block true x) nets
  = (v =? version x) && (lo <=? ip x) && (ip x <=? hi).
Proof.
  intros HF Hcov. apply eq_true_iff_eq. rewrite existsb_exists, !andb_true_iff.
  rewrite Z.eqb_eq, !Z.leb_le. rewrite Forall_forall in HF. split.
  - intros [n [Hin Hb]]. unfold in_block in Hb. rewrite !andb_true_iff in Hb.
    destruct Hb as [[Hv Hlo] Hhi]. apply Z.eqb_eq in Hv. apply Z.leb_le in Hlo, Hhi.
    destruct (HF _ Hin) as [Hnv _].
    assert (Hx : lo <= ip x <= hi).
    { apply Hcov. exists n. split; [exact Hin|]. unfold in_network. lia. }
    lia.
  - intros [[Hv Hlo] Hhi].
    destruct (proj2 (Hcov (ip x)) (conj Hlo Hhi)) as [n [Hin [H1 H2]]].
    exists n. split; [exact Hin|]. unfold in_block.
    destruct (HF _ Hin) as [Hnv _]. rewrite Hnv, Hv, Z.eqb_refl.
    apply Z.leb_le in H1, H2. rewrite H1, H2. reflexivity.
Qed.

Lemma isdigit_no_dash t : Str.isdigit t = true -> Str.contains "-" t = false.
Proof.
  unfold Str.isdigit. intros H. apply andb_true_iff in H. destruct H as [_ H].
  apply (StrFacts.all_chars_not_contains _ _ _ H). reflexivity.
Qed.

(* ===================================================================== *)
(** * The shape of a search *)
(* ===================================================================== *)

Section Shape.

Variable ip_address : string -> result address.
Variable ip_network : string -> result network.
Variable registry : string -> options.
Variable admin_utils_lookup_spawns_duplicates : options -> string -> bool.
Variable self : ModelAdmin.

Local Abbreviation classify :=
  (ip_addresses_and_networks_from_query ip_address ip_network).
Local Abbreviation search :=
  (get_search_results ip_address ip_network registry
     admin_utils_lookup_spawns_duplicates self).

Lemma extends_intro qs qs' annotations filters :
  model qs' = model qs ->
  ops qs' = ops qs ++ annotations ++ filters ->
  Forall (fun o => is_annotate o = true) annotations ->
  Forall (fun o => is_filter o = true) filters ->
  (length annotations <= 1)%nat -> (length filters <= 1)%nat ->
  extends qs qs'.
Proof. intros. split; [assumption|]. exists annotations, filters. auto. Qed.

Lemma extends_refl qs : extends qs qs.
Proof.
  apply (extends_intro qs qs [] []); cbn; auto. rewrite app_nil_r. reflexivity.
Qed.

Lemma extends_annotate qs a : extends qs (annotate a qs).
Proof.
  apply (extends_intro qs _ [Annotate a] []); cbn; auto.
Qed.

(** A filter on top of the query set the keyword search starts from. *)
Lemma extends_keyword_base qs : extends qs (keyword_base self qs).
Proof.
  unfold keyword_base, with_ip_annotations.
  destruct (Str.nonempty_list _); [apply extends_annotate | apply extends_refl].
Qed.

Lemma extends_filter qs base o :
  extends qs base -> ops base = ops qs \/ (exists a, ops base = ops qs ++ [Annotate a]) ->
  is_filter o = true ->
  extends qs (query_set (model base) (ops base ++ [o])).
Proof.
  intros [Hm _] Hb Ho. destruct Hb as [E | [a E]].
  - apply (extends_intro qs _ [] [o]); cbn; auto. rewrite E. reflexivity.
  - apply (extends_intro qs _ [Annotate a] [o]); cbn; auto.
    rewrite E, <- app_assoc. reflexivity.
Qed.

Lemma keyword_base_ops qs :
  ops (keyword_base self qs) = ops qs
  \/ exists a, ops (keyword_base self qs) = ops qs ++ [Annotate a].
Proof.
  unfold keyword_base, with_ip_annotations, annotate.
  destruct (Str.nonempty_list _); [right; eexists; reflexivity | left; reflexivity].
Qed.

(** What [get_queryset_with_related_ips] does to the query set: the
    annotations, and the filter when there is a condition. *)
Lemma related_ips_shape qs x :
  exists a,
    fst (get_queryset_with_related_ips self qs x) = annotate a qs
    \/ fst (get_queryset_with_related_ips self qs x)
       = query_set (model qs) (ops qs ++ [Annotate a] ++ [address_filter]).
Proof.
  unfold get_queryset_with_related_ips. cbv zeta.
  match goal with
  | |- context [if Q_bool ?c then (and_ ?c ?q, _) else _] =>
      destruct (Q_bool c) eqn:Ec;
      [assert (Eq : Q_bool (and_ c q) = true)
         by (unfold and_, combine; rewrite Ec; reflexivity)|]
  end.
  - rewrite Eq. eexists. right. cbn [fst].
    unfold filter_kw, annotate, address_filter. cbn [ops model].
    rewrite <- app_assoc. reflexivity.
  - rewrite Ec. eexists. left. reflexivity.
Qed.

Lemma extends_related_ips qs x :
  extends qs (fst (get_queryset_with_related_ips self qs x)).
Proof.
  destruct (related_ips_shape qs x) as [a [-> | ->]].
  - apply extends_annotate.
  - apply (extends_intro qs _ [Annotate a] [address_filter]); cbn; auto.
Qed.

(** Either the query is an address search, or it is not. *)
Lemma search_mode search_term :
  raises_ValueError ip_address -> raises_ValueError ip_network ->
  (search_by_ip_actions self <> []
   /\ exists d, classify search_term = Ok (Some d))
  \/ not_ip_search ip_address ip_network self search_term.
Proof.
  intros Ha Hn.
  destruct (search_by_ip_actions self) eqn:Eact; [right; left; exact Eact|].
  destruct (for_term_in_returns ip_address ip_network Ha Hn (Str.split "," search_term)
              [] []) as [[d|] Hr].
  - left. split; [discriminate | exists d; exact Hr].
  - right. right. exact Hr.
Qed.

(** The three ways of a search that is not an address search. *)
Lemma search_not_ip qs search_term :
  not_ip_search ip_address ip_network self search_term ->
  exists qs' dup,
    search qs search_term = Ok (qs', dup)
    /\ (qs' = keyword_base self qs
        \/ exists o, is_filter o = true /\ o <> address_filter
             /\ qs' = query_set (model (keyword_base self qs))
                        (ops (keyword_base self qs) ++ [o])).
Proof.
  intros Hip.
  destruct (search_fields self) as [|f fs] eqn:Ef.
  { eexists _, _. split; [apply search_noop; [exact Hip | left; exact Ef]|].
    left. reflexivity. }
  destruct search_term as [|c s] eqn:Es.
  { eexists _, _. split; [apply search_noop; [exact Hip | right; reflexivity]|].
    left. reflexivity. }
  rewrite <- Es in *.
  assert (Hf : search_fields self <> []) by (rewrite Ef; discriminate).
  assert (Hs : search_term <> EmptyString) by (rewrite Es; discriminate).
  destruct (is_id_search self search_term) eqn:Hid.
  - eexists _, _. split; [apply search_by_id; assumption|].
    right. eexists. split; [|split; [|reflexivity]]; [reflexivity | discriminate].
  - destruct (search_by_keywords ip_address ip_network registry
                admin_utils_lookup_spawns_duplicates self qs search_term
                Hip Hf Hs Hid) as [orm_lookups [_ [_ Hr]]].
    eexists _, _. split; [exact Hr|]. unfold filter_joined.
    destruct (map _ _) as [|q rest]; [left; reflexivity|].
    right. eexists. split; [|split; [|reflexivity]]; [reflexivity | discriminate].
Qed.

End Shape.

Lemma all_space_no_words s :
  Str.all_chars Str.char_isspace s = true -> Str.split_whitespace s = [].
Proof.
  induction s as [|c s IH]; cbn [Str.all_chars Str.split_whitespace]; [reflexivity|].
  intros H. apply andb_true_iff in H. destruct H as [-> Hs]. exact (IH Hs).
Qed.

Lemma all_space_replace s :
  Str.all_chars Str.char_isspace s = true -> Str.replace "*" "%" s = s.
Proof.
  induction s as [|c s IH]; cbn [Str.all_chars Str.replace]; [reflexivity|].
  intros H. apply andb_true_iff in H. destruct H as [Hc Hs]. rewrite (IH Hs).
  destruct (Ascii.eqb c "*") eqn:E; [|reflexivity].
  apply Ascii.eqb_eq in E. subst c. discriminate Hc.
Qed.


(* ===================================================================== *)
(** * Paths with a lookup added at their end *)
(* ===================================================================== *)

Module DunderFacts.
Import Str.

Lemma split_dunder_not_nil s : split_dunder s <> [].
Proof.
  destruct s as [|c s]; cbn [split_dunder]; [discriminate|].
  destruct (Ascii.eqb c "_"); destruct s as [|d s];
    try (destruct (split_dunder _); discriminate).
  destruct (Ascii.eqb d "_"); [discriminate|].
  destruct (split_dunder _); discriminate.
Qed.

Lemma split_dunder_cons2 c d s :
  split_dunder (String c (String d s))
  = if Ascii.eqb c "_" && Ascii.eqb d "_" then EmptyString :: split_dunder s
    else match split_dunder (String d s) with
         | w :: ws => String c w :: ws
         | [] => [String c EmptyString]
         end.
Proof.
  change (split_dunder (String c (String d s)))
    with (match Ascii.eqb c "_", String d s with
          | true, String d' s'' =>
              if Ascii.eqb d' "_" then EmptyString :: split_dunder s''
              else match split_dunder (String d s) with
                   | w :: ws => String c w :: ws
                   | [] => [String c EmptyString]
                   end
          | _, _ =>
              match split_dunder (String d s) with
              | w :: ws => String c w :: ws
              | [] => [String c EmptyString]
              end
          end).
  destruct (Ascii.eqb c "_"), (Ascii.eqb d "_"); reflexivity.
Qed.

Lemma split_dunder_single c : split_dunder (String c EmptyString) = [String c EmptyString].
Proof. cbn [split_dunder]. destruct (Ascii.eqb c "_"); reflexivity. Qed.

Lemma ends_with_underscore_cons c s :
  ends_with_underscore (String c s) = false -> ends_with_underscore s = false.
Proof. destruct s; [reflexivity | trivial]. Qed.

(** The segments of a path to which a lookup is added: all the segments
    but the last stay, and so does the last one unless it ends with an
    underscore. *)
Lemma split_dunder_app t :
  startswith "_" t = false ->
  forall s,
    exists segs last tl,
      split_dunder s = segs ++ [last]
      /\ split_dunder (s ++ "__" ++ t) = segs ++ tl
      /\ (ends_with_underscore last = false -> tl = last :: split_dunder t).
Proof.
  intros Ht.
  assert (Hstep : forall c s,
    (exists segs last tl,
        split_dunder s = segs ++ [last]
        /\ split_dunder (s ++ "__" ++ t) = segs ++ tl
        /\ (ends_with_underscore last = false -> tl = last :: split_dunder t)) ->
    exists segs last tl,
      match split_dunder s with
      | w :: ws => String c w :: ws
      | [] => [String c EmptyString]
      end = segs ++ [last]
      /\ match split_dunder (s ++ "__" ++ t) with
         | w :: ws => String c w :: ws
         | [] => [String c EmptyString]
         end = segs ++ tl
      /\ (ends_with_underscore last = false -> tl = last :: split_dunder t)).
  { intros c s [segs [last [tl [E1 [E2 E3]]]]]. rewrite E1, E2.
    destruct segs as [|g gs]; cbn [app].
    - pose proof (split_dunder_not_nil (s ++ "__" ++ t)) as Hne.
      rewrite E2 in Hne. cbn [app] in Hne.
      destruct tl as [|w' ws']; [contradiction|].
      exists [], (String c last), (String c w' :: ws').
      split; [reflexivity|]. split; [reflexivity|].
      intros He. apply ends_with_underscore_cons in He.
      specialize (E3 He). injection E3 as -> ->. reflexivity.
    - exists (String c g :: gs), last, tl.
      split; [reflexivity|]. split; [reflexivity | exact E3]. }
  assert (H : forall s,
    (exists segs last tl,
        split_dunder s = segs ++ [last]
        /\ split_dunder (s ++ "__" ++ t) = segs ++ tl
        /\ (ends_with_underscore last = false -> tl = last :: split_dunder t))
    /\ forall c,
        exists segs last tl,
          split_dunder (String c s) = segs ++ [last]
          /\ split_dunder (String c s ++ "__" ++ t) = segs ++ tl
          /\ (ends_with_underscore last = false -> tl = last :: split_dunder t)).
  { induction s as [|d s [IH1 IH2]].
    - assert (H0 : exists segs last tl,
                split_dunder EmptyString = segs ++ [last]
                /\ split_dunder (EmptyString ++ "__" ++ t) = segs ++ tl
                /\ (ends_with_underscore last = false -> tl = last :: split_dunder t)).
      { exists [], EmptyString, (EmptyString :: split_dunder t).
        split; [reflexivity|]. split; [|reflexivity].
        cbn [append]. rewrite split_dunder_cons2. reflexivity. }
      split; [exact H0|]. intros c.
      destruct (Ascii.eqb c "_") eqn:Ec.
      + exists [], (String c EmptyString), (EmptyString :: split_dunder ("_" ++ t)).
        split; [apply split_dunder_single|]. split.
        * cbn [append]. rewrite split_dunder_cons2, Ec. reflexivity.
        * cbn [ends_with_underscore]. rewrite Ec. discriminate.
      + exists [], (String c EmptyString), (String c EmptyString :: split_dunder t).
        split; [apply split_dunder_single|]. split; [|reflexivity].
        cbn [append]. rewrite split_dunder_cons2, Ec. cbn [andb].
        rewrite split_dunder_cons2. reflexivity.
    - split; [apply IH2|]. intros c.
      change (String c (String d s) ++ "__" ++ t)%string
        with (String c (String d (s ++ "__" ++ t))).
      rewrite !split_dunder_cons2.
      destruct (Ascii.eqb c "_" && Ascii.eqb d "_").
      + destruct IH1 as [segs [last [tl [E1 [E2 E3]]]]].
        exists (EmptyString :: segs), last, tl. rewrite E1, E2.
        split; [reflexivity|]. split; [reflexivity | exact E3].
      + apply (Hstep c (String d s)). apply IH2. }
  intros s. apply H.
Qed.

(** A segment that does not end with an underscore is still a segment
    when a lookup is added to the path. *)
Lemma in_split_dunder_app seg s t :
  startswith "_" t = false -> ends_with_underscore seg = false ->
  In seg (split_dunder s) -> In seg (split_dunder (s ++ "__" ++ t)).
Proof.
  intros Ht Hseg Hin.
  destruct (split_dunder_app t Ht s) as [segs [last [tl [E1 [E2 E3]]]]].
  rewrite E1 in Hin. rewrite E2. apply in_app_iff in Hin. apply in_app_iff.
  destruct Hin as [Hin | [<- | []]]; [left; exact Hin|].
  right. rewrite (E3 Hseg). left. reflexivity.
Qed.

End DunderFacts.

Lemma mapM_In {A B} (f : A -> result B) l :
  forall bs a, mapM f l = Ok bs -> In a l -> exists b, f a = Ok b /\ In b bs.
Proof.
  induction l as [|x xs IH]; intros bs a Hm Hin; [contradiction|].
  cbn [mapM] in Hm. destruct (f x) as [y|] eqn:Ey; cbn [bind] in Hm; [|discriminate].
  destruct (mapM f xs) as [ys|] eqn:Eys; cbn [bind] in Hm; [|discriminate].
  injection Hm as <-. destruct Hin as [<- | Hin].
  - exists y. split; [exact Ey | left; reflexivity].
  - destruct (IH ys a eq_refl Hin) as [b [Hb Hin']].
    exists b. split; [exact Hb | right; exact Hin'].
Qed.

(** The lookup built for a search field is the field without its first
    character when that chooses the lookup, as it is or with a lookup added
    at its end. *)
Lemma construct_search_path registry qs field_name lookup :
  construct_search registry qs field_name = Ok lookup ->
  lookup = without_sigil field_name
  \/ exists t, Str.startswith "_" t = false
               /\ lookup = (without_sigil field_name ++ "__" ++ t)%string.
Proof.
  unfold construct_search, without_sigil.
  destruct (Str.startswith "^" field_name).
  { intros [= <-]. right. exists "istartswith". split; reflexivity. }
  destruct (Str.startswith "=" field_name).
  { intros [= <-]. right. exists "iexact". split; reflexivity. }
  destruct (Str.startswith "@" field_name).
  { intros [= <-]. right. exists "icontains". split; reflexivity. }
  cbv zeta. cbn [orb].
  destruct (for_path_part_in_returns registry field_name (Str.split_dunder field_name)
              (registry (model qs)) None) as [-> | ->]; intros [= <-].
  - left. reflexivity.
  - right. exists "icontains". split; reflexivity.
Qed.

Lemma names_translation_app path t :
  Str.startswith "_" t = false ->
  names_translation path = true ->
  names_translation (path ++ "__" ++ t) = true.
Proof.
  intros Ht. unfold names_translation. rewrite !orb_true_iff, !existsb_exists.
  intros [[x [Hin Hx]] | [x [Hin Hx]]]; apply String.eqb_eq in Hx; subst x;
    [left | right]; eexists; (split; [|apply String.eqb_refl]);
    apply DunderFacts.in_split_dunder_app; auto.
Qed.

Lemma lookup_spawns_duplicates_translation spawns opts lookup_path :
  names_translation lookup_path = true ->
  lookup_spawns_duplicates spawns opts lookup_path = true.
Proof.
  unfold names_translation, lookup_spawns_duplicates. cbv zeta. cbn [existsb].
  rewrite orb_false_r. intros ->. reflexivity.
Qed.

(* ===================================================================== *)
(** * Sorted sets of strings, escaped text, dictionaries *)
(* ===================================================================== *)

Module OrderFacts.

Lemma ascii_compare_refl c : Ascii.compare c c = Eq.
Proof. unfold Ascii.compare. apply N.compare_refl. Qed.

Lemma ascii_compare_lt_trans a b c :
  Ascii.compare a b = Lt -> Ascii.compare b c = Lt -> Ascii.compare a c = Lt.
Proof. unfold Ascii.compare. rewrite !N.compare_lt_iff. lia. Qed.

Lemma compare_lt_trans s1 :
  forall s2 s3,
    String.compare s1 s2 = Lt -> String.compare s2 s3 = Lt -> String.compare s1 s3 = Lt.
Proof.
  induction s1 as [|c1 s1 IH]; intros [|c2 s2] [|c3 s3]; cbn [String.compare];
    try discriminate; try reflexivity.
  destruct (Ascii.compare c1 c2) eqn:E12; try discriminate;
    destruct (Ascii.compare c2 c3) eqn:E23; try discriminate; intros H1 H2.
  - apply Ascii.compare_eq_iff in E12, E23. subst. rewrite ascii_compare_refl.
    exact (IH _ _ H1 H2).
  - apply Ascii.compare_eq_iff in E12. subst. rewrite E23. reflexivity.
  - apply Ascii.compare_eq_iff in E23. subst. rewrite E12. reflexivity.
  - rewrite (ascii_compare_lt_trans _ _ _ E12 E23). reflexivity.
Qed.

Lemma compare_gt_lt a b : String.compare a b = Gt -> String.compare b a = Lt.
Proof. intros H. rewrite String.compare_antisym, H. reflexivity. Qed.

Lemma in_insert_sorted x l : forall y, In y (insert_sorted x l) <-> y = x \/ In y l.
Proof.
  induction l as [|z l IH]; intros y; cbn [insert_sorted].
  - cbn. intuition congruence.
  - destruct (String.compare x z) eqn:E.
    + apply String.compare_eq_iff in E. subst z. cbn. intuition congruence.
    + cbn. intuition congruence.
    + cbn [In]. rewrite IH. intuition congruence.
Qed.

Lemma insert_sorted_increasing x l :
  strictly_increasing l -> strictly_increasing (insert_sorted x l).
Proof.
  induction l as [|z l IH]; cbn [insert_sorted strictly_increasing].
  - intros _. split; [constructor | exact I].
  - intros [Hz Hl]. destruct (String.compare x z) eqn:E.
    + split; assumption.
    + cbn [strictly_increasing]. split; [|split; assumption].
      constructor; [exact E|]. eapply Forall_impl; [|exact Hz].
      intros y Hy. exact (compare_lt_trans _ _ _ E Hy).
    + cbn [strictly_increasing]. split; [|apply IH, Hl].
      apply Forall_forall. intros y Hy. apply in_insert_sorted in Hy.
      destruct Hy as [-> | Hy]; [apply compare_gt_lt, E|].
      rewrite Forall_forall in Hz. apply Hz, Hy.
Qed.

(** [sorted_set l] has the elements of [l], each once, in order. *)
Lemma sorted_set_spec l :
  strictly_increasing (sorted_set l) /\ forall y, In y (sorted_set l) <-> In y l.
Proof.
  induction l as [|x l [IH1 IH2]]; cbn [sorted_set fold_right].
  - split; [exact I | reflexivity].
  - split; [apply insert_sorted_increasing, IH1|].
    intros y. fold (sorted_set l). rewrite in_insert_sorted, IH2. cbn. intuition congruence.
Qed.

Lemma compare_irrefl s : String.compare s s <> Lt.
Proof.
  induction s as [|c s IH]; cbn [String.compare]; [discriminate|].
  rewrite ascii_compare_refl. exact IH.
Qed.

(** In an increasing list no string occurs twice. *)
Lemma strictly_increasing_NoDup l : strictly_increasing l -> NoDup l.
Proof.
  induction l as [|x l IH]; cbn [strictly_increasing]; [constructor|].
  intros [Hx Hl]. constructor; [|apply IH, Hl].
  intros Hin. rewrite Forall_forall in Hx. apply (compare_irrefl x), Hx, Hin.
Qed.

End OrderFacts.

Module EscapeFacts.
Import Str html.

Lemma replace_char_removes c r s :
  contains c r = false -> contains c (replace_char c r s) = false.
Proof.
  intros Hr. induction s as [|d s IH]; cbn [replace_char]; [reflexivity|].
  destruct (Ascii.eqb d c) eqn:E.
  - rewrite CleanFacts.contains_app, Hr, IH. reflexivity.
  - cbn [contains]. rewrite E, IH. reflexivity.
Qed.

Lemma replace_char_keeps_out d c r s :
  contains d r = false -> contains d s = false ->
  contains d (replace_char c r s) = false.
Proof.
  intros Hr. induction s as [|e s IH]; cbn [replace_char contains]; [reflexivity|].
  intros H. apply orb_false_iff in H. destruct H as [He Hs].
  destruct (Ascii.eqb e c).
  - rewrite CleanFacts.contains_app, Hr, (IH Hs). reflexivity.
  - cbn [contains]. rewrite He, (IH Hs). reflexivity.
Qed.

(** Escaped text has no character of markup left. *)
Lemma escape_markup_free s : markup_free (escape s).
Proof.
  unfold markup_free, escape. cbv zeta.
  repeat split;
    repeat first
      [ apply replace_char_removes; reflexivity
      | apply replace_char_keeps_out; [reflexivity|] ].
Qed.

End EscapeFacts.

Module DictFacts.

Lemma getitem_setitem_same {V} k (v : V) d : getitem k (setitem k v d) = Some v.
Proof.
  induction d as [|[k' v'] d IH]; cbn [setitem getitem].
  - rewrite String.eqb_refl. reflexivity.
  - destruct (String.eqb k' k) eqn:E; cbn [getitem]; rewrite E; [reflexivity | exact IH].
Qed.

Lemma getitem_setitem_other {V} k k' (v : V) d :
  k <> k' -> getitem k' (setitem k v d) = getitem k' d.
Proof.
  intros Hk. induction d as [|[k0 v0] d IH]; cbn [setitem getitem].
  - apply String.eqb_neq in Hk. rewrite Hk. reflexivity.
  - destruct (String.eqb k0 k) eqn:E; cbn [getitem].
    + apply String.eqb_eq in E. subst k0. apply String.eqb_neq in Hk.
      rewrite Hk. reflexivity.
    + rewrite IH. reflexivity.
Qed.

End DictFacts.


(* ===================================================================== *)
(** * The classification of a query made of two *)
(* ===================================================================== *)

Lemma split_app_comma sep a b :
  Str.split sep (a ++ String sep b) = Str.split sep a ++ Str.split sep b.
Proof.
  induction a as [|c a IH]; cbn [append Str.split].
  - rewrite Ascii.eqb_refl. reflexivity.
  - rewrite IH. destruct (Ascii.eqb c sep); [reflexivity|].
    pose proof (StrFacts.split_not_nil sep a) as Hne.
    destruct (Str.split sep a); [contradiction | reflexivity].
Qed.

Section Together.

Variable ip_address : string -> result address.
Variable ip_network : string -> result network.

Hypothesis ip_address_raises : raises_ValueError ip_address.
Hypothesis ip_network_raises : raises_ValueError ip_network.

Local Abbreviation loop := (for_term_in ip_address ip_network).

(** The loop started with lists that are not empty: they stay in front. *)
Lemma for_term_in_acc terms :
  forall acc_ips acc_nets,
    loop terms acc_ips acc_nets
    = match loop terms [] [] with
      | Ok (Some d) =>
          Ok (Some (IpsAndNetworks (acc_ips ++ ips d) (acc_nets ++ networks d)))
      | other => other
      end.
Proof.
  induction terms as [|t rest IH]; intros acc_ips acc_nets.
  - cbn [for_term_in ips networks]. rewrite !app_nil_r. reflexivity.
  - destruct (Str.isdigit t) eqn:Hd.
    + cbn [for_term_in]. rewrite Hd. reflexivity.
    + rewrite !(for_term_in_reading ip_address ip_network
                  ip_address_raises ip_network_raises _ _ _ _ Hd).
      destruct (first_reading ip_address ip_network t) as [r|]; [|reflexivity].
      rewrite (IH (acc_ips ++ addresses_of r) (acc_nets ++ networks_of r)).
      rewrite (IH ([] ++ addresses_of r) ([] ++ networks_of r)).
      destruct (loop rest [] []) as [[d|]|e]; try reflexivity.
      cbn [ips networks app]. rewrite !app_assoc. reflexivity.
Qed.

Lemma for_term_in_app terms1 terms2 :
  forall acc_ips acc_nets,
    loop (terms1 ++ terms2) acc_ips acc_nets
    = match loop terms1 acc_ips acc_nets with
      | Ok (Some d) => loop terms2 (ips d) (networks d)
      | other => other
      end.
Proof.
  induction terms1 as [|t rest IH]; intros acc_ips acc_nets; [reflexivity|].
  cbn [app]. destruct (Str.isdigit t) eqn:Hd.
  - cbn [for_term_in]. rewrite Hd. reflexivity.
  - rewrite !(for_term_in_reading ip_address ip_network
                ip_address_raises ip_network_raises _ _ _ _ Hd).
    destruct (first_reading ip_address ip_network t) as [r|]; [|reflexivity].
    apply IH.
Qed.

End Together.

(* ===================================================================== *)
(** * Examples: the address column and the choices *)
(* ===================================================================== *)

Example escape_markup : html.escape "<b>Tom & 'Jerry'</b>"
                        = "&lt;b&gt;Tom &amp; &#x27;Jerry&#x27;&lt;/b&gt;".
Proof. reflexivity. Qed.

(** Strings are sorted as strings: 10.0.0.10 comes before 10.0.0.9. *)
Example known_ip_adresses_of_an_annotation :
  known_ip_adresses (Raise TypeError)
    (Annotated (Some "10.0.0.9,10.0.0.10,::1,10.0.0.9"))
  = Ok "<ul><li>10.0.0.10</li><li>10.0.0.9</li><li>::1</li></ul>".
Proof. reflexivity. Qed.

Example known_ip_adresses_of_the_address_log :
  known_ip_adresses (Ok ["10.0.0.1"; "10.0.0.2"]) Unset
  = Ok "<ul><li>10.0.0.1</li><li>10.0.0.2</li></ul>".
Proof. reflexivity. Qed.

Example choice_of_the_date_range_filter :
  DateRangeFilter.choices
    ["created__range__gte"; "created__range__lte"]
    [("created__range__gte", "2024-01-01")]
    [[("selected", CBool true); ("display", CStr "All")]]
    {| query := "alice";
       get_filters_params := [("created__range__gte", "2024-01-01");
                              ("type", "1")] |}
  = Some [[("selected", CBool false);
           ("display", CStr "All");
           ("query_parts", CParts [("q", Query "alice"); ("type", Param "1")])]].
Proof. reflexivity. Qed.


(* ===================================================================== *)
(** * The search with the calls on the query set run *)
(* ===================================================================== *)

Section ExecutedFacts.

Variable ip_address : string -> result address.
Variable ip_network : string -> result network.
Variable registry : string -> options.
Variable admin_utils_lookup_spawns_duplicates : options -> string -> bool.
Variable self : ModelAdmin.

(** With methods that accept every call and record it, the search is the
    search above. *)
Lemma executed_related_ips_recorded qs x :
  Executed.get_queryset_with_related_ips
    (fun a q => Ok (annotate a q)) (fun kw q => Ok (filter_kw kw q)) self qs x
  = Ok (get_queryset_with_related_ips self qs x).
Proof.
  unfold Executed.get_queryset_with_related_ips, get_queryset_with_related_ips.
  cbv zeta.
  match goal with
  | |- context [if Q_bool ?c then (and_ ?c ?q, _) else _] =>
      destruct (Q_bool c) eqn:Ec;
      [assert (Eq : Q_bool (and_ c q) = true)
         by (unfold and_, combine; rewrite Ec; reflexivity)|]
  end.
  - cbn [bind]. rewrite Eq. reflexivity.
  - cbn [bind]. rewrite Ec. reflexivity.
Qed.

Lemma executed_search_recorded qs search_term :
  Executed.get_search_results ip_address ip_network registry
    admin_utils_lookup_spawns_duplicates
    (fun a q => Ok (annotate a q)) (fun c q => Ok (filter c q))
    (fun kw q => Ok (filter_kw kw q)) self qs search_term
  = get_search_results ip_address ip_network registry
      admin_utils_lookup_spawns_duplicates self qs search_term.
Proof.
  unfold Executed.get_search_results, get_search_results.
  destruct (Str.nonempty_list (search_by_ip_actions self)).
  - destruct (ip_addresses_and_networks_from_query ip_address ip_network search_term)
      as [x|e]; cbn [bind]; [|reflexivity].
    rewrite executed_related_ips_recorded. cbn [bind].
    destruct (get_queryset_with_related_ips self qs x) as [base dup].
    destruct x; cbn [bind]; [reflexivity|].
    destruct (negb _); [reflexivity|]. cbv zeta.
    destruct (_ && _); [reflexivity|].
    destruct (mapM (construct_search registry base) _) as [orm_lookups|];
      cbn [bind]; [|reflexivity].
    destruct (mapM (q_for_this_term orm_lookups) _) as [[|q filters]|];
      cbn [bind]; reflexivity.
  - cbn [bind]. destruct (negb _); [reflexivity|]. cbv zeta.
    destruct (_ && _); [reflexivity|].
    destruct (mapM (construct_search registry qs) _) as [orm_lookups|];
      cbn [bind]; [|reflexivity].
    destruct (mapM (q_for_this_term orm_lookups) _) as [[|q filters]|];
      cbn [bind]; reflexivity.
Qed.

Variable qs_annotate : list (string * expression) -> QuerySet -> result QuerySet.
Variable qs_filter : Q -> QuerySet -> result QuerySet.
Variable qs_filter_kw : list (string * value) -> QuerySet -> result QuerySet.

Variable classes : list exn.

Hypothesis ip_address_raises : raises_ValueError ip_address.
Hypothesis ip_network_raises : raises_ValueError ip_network.
Hypothesis annotate_raises : forall a q, raises_only classes (qs_annotate a q).
Hypothesis filter_raises : forall c q, raises_only classes (qs_filter c q).
Hypothesis filter_kw_raises : forall kw q, raises_only classes (qs_filter_kw kw q).

Lemma executed_related_ips_raises qs x :
  raises_only classes
    (Executed.get_queryset_with_related_ips qs_annotate qs_filter_kw self qs x).
Proof.
  unfold Executed.get_queryset_with_related_ips. cbv zeta.
  match goal with
  | |- context [if Q_bool ?c then (and_ ?c ?q, _) else _] => destruct (Q_bool c)
  end;
    (apply raises_only_bind; [apply annotate_raises|]; intros base;
     apply raises_only_bind; [|intros; apply raises_only_Ok];
     destruct (Q_bool _); [apply filter_kw_raises | apply raises_only_Ok]).
Qed.

(** What follows the address search in [get_search_results]: the keyword
    search and the search by id raise what the two [filter] calls raise. *)
Lemma executed_keywords_raises base dup search_term :
  raises_only classes
    (if negb (Str.nonempty_list (search_fields self) && Str.nonempty search_term)
     then Ok (base, dup)
     else
       if Str.nonempty (search_id_field self)
          && (minimum_search_terms_to_search_by_id self
              <=? Z.of_nat (length (search_terms_of search_term)))
          && forallb Str.isnumeric (search_terms_of search_term)
       then
         queryset <-
           qs_filter_kw [((search_id_field self ++ "__in")%string,
                          VStrList (search_terms_of search_term))] base ;;
         Ok (queryset, dup)
       else
         orm_lookups <- mapM (construct_search registry base) (search_fields self) ;;
         filters <- mapM (q_for_this_term orm_lookups) (search_terms_of search_term) ;;
         match filters with
         | [] =>
             Ok (base,
                 dup || existsb
                          (lookup_spawns_duplicates admin_utils_lookup_spawns_duplicates
                             (opts self)) orm_lookups)
         | _ :: _ =>
             q <- reduce (joining_operator search_term) filters ;;
             queryset <- qs_filter q base ;;
             Ok (queryset,
                 dup || existsb
                          (lookup_spawns_duplicates admin_utils_lookup_spawns_duplicates
                             (opts self)) orm_lookups)
         end).
Proof.
  destruct (Str.nonempty_list (search_fields self)) eqn:Hf; cbn [andb negb];
    [|apply raises_only_Ok].
  destruct (Str.nonempty search_term); cbn [negb]; [|apply raises_only_Ok].
  destruct (_ && _).
  - apply raises_only_bind; [apply filter_kw_raises | intros; apply raises_only_Ok].
  - destruct (mapM_returns (construct_search registry base) (search_fields self)
                (construct_search_returns registry base)) as [orm_lookups [Hm Hl]].
    rewrite Hm. cbn [bind].
    assert (Hne : orm_lookups <> []).
    { intros ->. destruct (search_fields self); discriminate. }
    rewrite (mapM_pure _ (any_field orm_lookups))
      by (intros; apply q_for_this_term_any, Hne).
    cbn [bind].
    destruct (map (any_field orm_lookups) (search_terms_of search_term))
      as [|q filters]; [apply raises_only_Ok|].
    cbn [reduce bind].
    apply raises_only_bind; [apply filter_raises | intros; apply raises_only_Ok].
Qed.

Lemma executed_search_raises qs search_term :
  raises_only classes
    (Executed.get_search_results ip_address ip_network registry
       admin_utils_lookup_spawns_duplicates qs_annotate qs_filter qs_filter_kw
       self qs search_term).
Proof.
  unfold Executed.get_search_results.
  destruct (Str.nonempty_list (search_by_ip_actions self)).
  - destruct (for_term_in_returns ip_address ip_network
                ip_address_raises ip_network_raises (Str.split "," search_term) [] [])
      as [x Hx].
    unfold ip_addresses_and_networks_from_query. rewrite Hx. cbn [bind].
    pose proof (executed_related_ips_raises qs x) as Hrel.
    destruct (Executed.get_queryset_with_related_ips qs_annotate qs_filter_kw self qs x)
      as [[base dup]|e] eqn:Er; cbn [bind]; [|exact Hrel].
    destruct x; cbn [bind]; [apply raises_only_Ok|].
    cbv zeta. apply executed_keywords_raises.
  - cbn [bind]. cbv zeta. apply (executed_keywords_raises qs false).
Qed.

End ExecutedFacts.

Lemma integer_filter_kw_raises kwargs qs :
  raises_only [ValueError] (integer_filter_kw kwargs qs).
Proof.
  unfold integer_filter_kw. destruct (forallb _ kwargs);
    [apply raises_only_Ok | apply raises_only_Raise; reflexivity].
Qed.

(** On a query set whose id field holds integers the search by id of two
    numbers goes through. *)
Example search_by_id_of_numbers :
  Executed.get_search_results ipaddress.ip_address ipaddress.ip_network
    sample_registry sample_spawns
    (fun a q => Ok (annotate a q)) (fun c q => Ok (filter c q)) integer_filter_kw
    (default_admin ["email"]) users "123,456"
  = Ok (filter_kw [("pk__in", VStrList ["123"; "456"])] users, false).
Proof. reflexivity. Qed.

(** The fractions are numeric terms: the recorded search by id is called
    with them. *)
Example search_by_id_of_fractions :
  get_search_results ipaddress.ip_address ipaddress.ip_network
    sample_registry sample_spawns (default_admin ["email"]) users
    (one_half ++ "," ++ three_quarters)
  = Ok (filter_kw [("pk__in", VStrList [one_half; three_quarters])] users, false).
Proof. reflexivity. Qed.

(* ===================================================================== *)
(** * Further properties of the code *)
(* ===================================================================== *)

(** X1: the search form, on a query with commas, keeps the pieces between
    the commas, stripped, without the empty ones, in their order.  None of
    them is empty, padded with whitespace or has a comma; when there is
    none the cleaned query is empty; otherwise splitting the cleaned query
    on the commas gives these terms back, so that the classification of the
    cleaned query goes through exactly them. *)
Theorem clean_keeps_the_stripped_terms (search_term : string) :
  Str.contains "," search_term = true ->
  Forall (fun t => t <> EmptyString /\ Str.strip t = t /\ Str.contains "," t = false)
    (cleaned_terms search_term)
  /\ (cleaned_terms search_term = [] -> clean search_term = EmptyString)
  /\ (cleaned_terms search_term <> [] ->
      Str.split "," (clean search_term) = cleaned_terms search_term
      /\ forall ip_address ip_network,
           ip_addresses_and_networks_from_query ip_address ip_network
             (clean search_term)
           = for_term_in ip_address ip_network (cleaned_terms search_term) [] []).
Proof.
  intros Hc. split; [apply cleaned_terms_clean|].
  rewrite (clean_with_comma _ Hc). split.
  - intros ->. reflexivity.
  - intros Hne.
    assert (E : Str.split "," (Str.join "," (cleaned_terms search_term))
                = cleaned_terms search_term)
      by (apply CleanFacts.split_join; [exact Hne | apply cleaned_terms_no_comma]).
    split; [exact E|]. intros ip_address ip_network.
    unfold ip_addresses_and_networks_from_query. rewrite E. reflexivity.
Qed.

(** X1 at a padded query with an empty piece. *)
Lemma clean_keeps_the_stripped_terms_witness :
  cleaned_terms " 10.0.0.1 , ,10.0.0.0/24  " = ["10.0.0.1"; "10.0.0.0/24"]
  /\ Str.split "," (clean " 10.0.0.1 , ,10.0.0.0/24  ") = ["10.0.0.1"; "10.0.0.0/24"]
  /\ ip_addresses_and_networks_from_query ipaddress.ip_address ipaddress.ip_network
       (clean " 10.0.0.1 , ,10.0.0.0/24  ")
     = Ok (Some (IpsAndNetworks [Address 4 167772161 None] [Network 4 167772160 24])).
Proof.
  destruct (clean_keeps_the_stripped_terms " 10.0.0.1 , ,10.0.0.0/24  " eq_refl)
    as [_ [_ H]].
  destruct (H ltac:(discriminate)) as [Hsplit Hcls].
  split; [reflexivity|]. split; [exact Hsplit|].
  rewrite Hcls. reflexivity.
Defined.

(** X2: cleaning a query that was cleaned changes nothing. *)
Theorem clean_idempotent (search_term : string) :
  clean (clean search_term) = clean search_term.
Proof.
  destruct (Str.contains "," search_term) eqn:Hc.
  - destruct (Str.contains "," (clean search_term)) eqn:Hc'.
    + rewrite (clean_with_comma _ Hc'). unfold cleaned_terms.
      rewrite (clean_with_comma _ Hc) in *.
      assert (Hne : cleaned_terms search_term <> []).
      { intros E. rewrite E in Hc'. discriminate. }
      rewrite (CleanFacts.split_join "," _ Hne (cleaned_terms_no_comma _)).
      rewrite (cleaned_terms_fixed _ (cleaned_terms_clean _)). reflexivity.
    + unfold clean at 1. rewrite Hc'. reflexivity.
  - unfold clean. rewrite Hc, Hc. reflexivity.
Qed.



(** X4: a query is an address search only if each of its terms has a
    ['.'] or a [':'] in it (the parsers accept nothing else): a term
    without them, a word or the empty term a trailing comma leaves, makes
    the classification return [None], whatever the other terms are. *)
Theorem term_without_separator_is_no_address
    (ip_address : string -> result address)
    (ip_network : string -> result network)
    (search_term term : string) :
  raises_ValueError ip_address -> raises_ValueError ip_network ->
  needs_separator ip_address -> needs_separator ip_network ->
  In term (Str.split "," search_term) ->
  Str.contains "." term = false -> Str.contains ":" term = false ->
  ip_addresses_and_networks_from_query ip_address ip_network search_term = Ok None.
Proof.
  intros Ha Hn Hsa Hsn Hin Hdot Hcolon.
  unfold ip_addresses_and_networks_from_query.
  apply (for_term_in_miss ip_address ip_network Ha Hn _ term Hin). right.
  apply no_reading_without_separator; assumption.
Qed.

(** X4 at an address followed by a comma: the last term is empty. *)
Lemma term_without_separator_is_no_address_witness :
  ip_addresses_and_networks_from_query ipaddress.ip_address ipaddress.ip_network
    "10.0.0.1," = Ok None.
Proof.
  apply (term_without_separator_is_no_address
           ipaddress.ip_address ipaddress.ip_network "10.0.0.1," ""
           Reference.ip_address_raises Reference.ip_network_raises
           Reference.ip_address_separator Reference.ip_network_separator).
  - right; left; reflexivity.
  - reflexivity.
  - reflexivity.
Defined.

(** X5: a search for a range.  When the query is one term that is read as
    a range from [first] to [last], it is classified with networks only,
    and among the rows of the address log whose address has the version of
    the two ends, the condition of the search holds on exactly those whose
    address lies between the ends, both included, and whose action is one
    of [search_by_ip_actions]. *)
Theorem range_search_matches_the_range
    (ip_address : string -> result address)
    (ip_network : string -> result network)
    (self : ModelAdmin) (term l r : string) (first last : address) :
  raises_ValueError ip_address -> raises_ValueError ip_network ->
  returns_valid_addresses ip_address ->
  Str.contains "," term = false ->
  raises (ip_address term) -> raises (ip_network term) ->
  Str.split "-" term = [l; r] ->
  ip_address (Str.strip l) = Ok first ->
  ip_address (Str.strip r) = Ok last ->
  version first = version last -> address_gt first last = false ->
  exists d,
    ip_addresses_and_networks_from_query ip_address ip_network term = Ok (Some d)
    /\ ips d = []
    /\ forall row,
         version (row_address row) = version first ->
         holds (search_by_ip_activity_accessor self) row (filtered_condition self d)
         = (ip first <=? ip (row_address row))
           && (ip (row_address row) <=? ip last)
           && existsb (Z.eqb (row_action row)) (search_by_ip_actions self).
Proof.
  intros Ha Hn Hvalid Hcomma [e1 H1] [e2 H2] Hsplit Hl Hr Hv Hgt.
  destruct (CoverFacts.summarize_address_range_minimal first last
              (Hvalid _ _ Hl) (Hvalid _ _ Hr) Hv Hgt) as [nets [Hs [Hcidr [Hcov _]]]].
  assert (Hc : Str.count "-" term = 1).
  { pose proof (StrFacts.split_length_count "-" term) as E.
    rewrite Hsplit in E. cbn [length] in E. lia. }
  assert (Hd : Str.isdigit term = false).
  { destruct (Str.isdigit term) eqn:E; [|reflexivity].
    apply isdigit_no_dash, StrFacts.count_zero_contains in E. lia. }
  assert (Hread : first_reading ip_address ip_network term = Some (AsRange nets)).
  { unfold first_reading, read_as_range. rewrite H1, H2, Hc, Hsplit, Hl, Hr, Hs.
    reflexivity. }
  exists (IpsAndNetworks [] nets). split; [|split; [reflexivity|]].
  - unfold ip_addresses_and_networks_from_query.
    rewrite (StrFacts.contains_false_split _ _ Hcomma).
    rewrite (for_term_in_reading ip_address ip_network Ha Hn _ _ _ _ Hd), Hread.
    reflexivity.
  - intros row Hrow.
    assert (Hne : ips (IpsAndNetworks [] nets) <> []
                  \/ networks (IpsAndNetworks [] nets) <> []).
    { right. cbn [networks]. eapply summarize_address_range_not_nil, Hs. }
    rewrite (proj2 (holds_filtered_condition self row _ Hne)).
    unfold ip_predicate. cbn [ips networks existsb orb].
    rewrite (cover_in_block _ _ _ _ _ Hcidr Hcov), Hrow, Z.eqb_refl. reflexivity.
Qed.

(** X5 at the range from 10.0.0.5 to 10.0.0.8, written with blanks: the
    row of 10.0.0.7 with an allowed action satisfies the condition, the row
    of 10.0.0.9 does not. *)
Lemma range_search_matches_the_range_witness :
  exists d,
    ip_addresses_and_networks_from_query ipaddress.ip_address ipaddress.ip_network
      "10.0.0.5 - 10.0.0.8" = Ok (Some d)
    /\ ips d = []
    /\ holds "activitylog" (LogRow (Address 4 167772167 None) 2)
         (filtered_condition (ip_admin []) d) = true
    /\ holds "activitylog" (LogRow (Address 4 167772169 None) 2)
         (filtered_condition (ip_admin []) d) = false.
Proof.
  destruct (range_search_matches_the_range
              ipaddress.ip_address ipaddress.ip_network (ip_admin [])
              "10.0.0.5 - 10.0.0.8" "10.0.0.5 " " 10.0.0.8"
              (Address 4 167772165 None) (Address 4 167772168 None)
              Reference.ip_address_raises Reference.ip_network_raises
              Reference.ip_address_valid eq_refl
              (ex_intro _ ValueError eq_refl) (ex_intro _ ValueError eq_refl)
              eq_refl eq_refl eq_refl eq_refl eq_refl)
    as [d [Hcls [Hips Hrow]]].
  exists d. split; [exact Hcls|]. split; [exact Hips|]. split.
  - exact (eq_trans (Hrow (LogRow (Address 4 167772167 None) 2) eq_refl) eq_refl).
  - exact (eq_trans (Hrow (LogRow (Address 4 167772169 None) 2) eq_refl) eq_refl).
Defined.

(** X6: [get_search_results] only adds calls to the query set.  Whenever
    it returns, the query set it returns is the one it was given with calls
    added after those made before: the model is the same, the earlier calls
    are all there in their order, and what follows them is at most one
    [annotate] and, after it, at most one [filter]. *)
Theorem search_extends_the_query_set
    (ip_address : string -> result address)
    (ip_network : string -> result network)
    (registry : string -> options)
    (admin_utils_lookup_spawns_duplicates : options -> string -> bool)
    (self : ModelAdmin) (qs : QuerySet) (search_term : string)
    (qs' : QuerySet) (may_have_duplicates : bool) :
  get_search_results ip_address ip_network registry
    admin_utils_lookup_spawns_duplicates self qs search_term
  = Ok (qs', may_have_duplicates) ->
  extends qs qs'.
Proof.
  intros Hr.
  assert (Hnot : not_ip_search ip_address ip_network self search_term -> extends qs qs').
  { intros Hip.
    destruct (search_not_ip ip_address ip_network registry
                admin_utils_lookup_spawns_duplicates self qs search_term Hip)
      as [qs0 [dup [Hr0 Hshape]]].
    rewrite Hr0 in Hr. injection Hr as <- _.
    destruct Hshape as [-> | [o [Ho [_ ->]]]].
    - apply extends_keyword_base.
    - apply extends_filter;
        [apply extends_keyword_base | apply keyword_base_ops | exact Ho]. }
  destruct (search_by_ip_actions self) as [|action actions] eqn:Eact;
    [apply Hnot; left; exact Eact|].
  destruct (ip_addresses_and_networks_from_query ip_address ip_network search_term)
    as [[d|]|e] eqn:Ecls.
  - assert (Hact : search_by_ip_actions self <> []) by (rewrite Eact; discriminate).
    rewrite (search_by_ip ip_address ip_network registry
               admin_utils_lookup_spawns_duplicates self qs search_term d Hact Ecls)
      in Hr.
    pose proof (extends_related_ips self qs (Some d)) as He.
    injection Hr as Hr. rewrite Hr in He. exact He.
  - apply Hnot. right. exact Ecls.
  - unfold get_search_results in Hr. rewrite Eact, Ecls in Hr. discriminate Hr.
Qed.

(** X6 at a keyword search on a query set that was filtered before. *)
Lemma search_extends_the_query_set_witness :
  extends (filter_kw [("deleted", VBool false)] users)
    (filter (Q_or (Q_wrap (Q_kw "email__icontains" (VStr "alice")))
                  (Q_wrap (Q_kw "email__icontains" (VStr "bob"))))
       (with_ip_annotations (ip_admin ["email"])
          (filter_kw [("deleted", VBool false)] users))).
Proof.
  apply (search_extends_the_query_set ipaddress.ip_address ipaddress.ip_network
           sample_registry sample_spawns (ip_admin ["email"])
           (filter_kw [("deleted", VBool false)] users) "alice,bob" _ false).
  reflexivity.
Defined.

(** X7: a query of whitespace only is not the empty query.  It has no
    search term, and (with search fields configured) the search goes on:
    when the threshold of the search by id is positive, or there is no id
    field, no filter is added, yet the flag for duplicates is computed from
    the search fields as in any keyword search; when the threshold is zero
    or less, the search by id runs with an empty list of ids. *)
Theorem blank_query_has_no_term
    (ip_address : string -> result address)
    (ip_network : string -> result network)
    (registry : string -> options)
    (admin_utils_lookup_spawns_duplicates : options -> string -> bool)
    (self : ModelAdmin) (qs : QuerySet) (search_term : string) :
  raises_ValueError ip_address -> raises_ValueError ip_network ->
  needs_separator ip_address -> needs_separator ip_network ->
  search_fields self <> [] ->
  search_term <> EmptyString ->
  Str.all_chars Str.char_isspace search_term = true ->
  search_terms_of search_term = []
  /\ (0 < minimum_search_terms_to_search_by_id self
      \/ search_id_field self = EmptyString ->
      exists orm_lookups,
        mapM (construct_search registry qs) (search_fields self) = Ok orm_lookups
        /\ get_search_results ip_address ip_network registry
             admin_utils_lookup_spawns_duplicates self qs search_term
           = Ok (keyword_base self qs,
                 existsb
                   (lookup_spawns_duplicates admin_utils_lookup_spawns_duplicates
                      (opts self))
                   orm_lookups))
  /\ (minimum_search_terms_to_search_by_id self <= 0 ->
      search_id_field self <> EmptyString ->
      get_search_results ip_address ip_network registry
        admin_utils_lookup_spawns_duplicates self qs search_term
      = Ok (filter_kw [((search_id_field self ++ "__in")%string, VStrList [])]
              (keyword_base self qs),
            false)).
Proof.
  intros Ha Hn Hsa Hsn Hf Hs Hblank.
  assert (Hcomma : Str.contains "," search_term = false)
    by (apply (StrFacts.all_chars_not_contains _ _ _ Hblank); reflexivity).
  assert (Hterms : search_terms_of search_term = []).
  { unfold search_terms_of, separator. rewrite Hcomma. cbn [Str.split_opt].
    rewrite (all_space_replace _ Hblank). apply all_space_no_words, Hblank. }
  assert (Hip : not_ip_search ip_address ip_network self search_term).
  { right. unfold ip_addresses_and_networks_from_query.
    rewrite (StrFacts.contains_false_split _ _ Hcomma).
    apply (for_term_in_miss ip_address ip_network Ha Hn _ search_term);
      [left; reflexivity|].
    right. apply no_reading_without_separator; try assumption;
      apply (StrFacts.all_chars_not_contains _ _ _ Hblank); reflexivity. }
  split; [exact Hterms|]. split.
  - intros Hmin.
    assert (Hid : is_id_search self search_term = false).
    { unfold is_id_search. rewrite Hterms. cbn [length forallb Z.of_nat].
      destruct Hmin as [Hmin | ->]; [|reflexivity].
      apply Z.leb_gt in Hmin. rewrite Hmin. rewrite andb_false_r. reflexivity. }
    destruct (search_by_keywords ip_address ip_network registry
                admin_utils_lookup_spawns_duplicates self qs search_term
                Hip Hf Hs Hid) as [orm_lookups [Hm [_ Hr]]].
    exists orm_lookups. split; [exact Hm|]. rewrite Hr, Hterms. reflexivity.
  - intros Hmin Hidf.
    rewrite <- Hterms at 1. apply search_by_id; try assumption.
    unfold is_id_search. rewrite Hterms. cbn [length forallb Z.of_nat].
    apply StrFacts.nonempty_true in Hidf. apply Z.leb_le in Hmin.
    rewrite Hidf, Hmin. reflexivity.
Qed.

(** X7 at a query of two blanks, on a search field that spawns
    duplicates. *)
Lemma blank_query_has_no_term_witness :
  exists orm_lookups,
    mapM (construct_search sample_registry users) ["addons__name"] = Ok orm_lookups
    /\ get_search_results ipaddress.ip_address ipaddress.ip_network sample_registry
         sample_spawns (default_admin ["addons__name"]) users "  "
       = Ok (keyword_base (default_admin ["addons__name"]) users,
             existsb (lookup_spawns_duplicates sample_spawns sample_user) orm_lookups).
Proof.
  apply (proj1 (proj2
           (blank_query_has_no_term ipaddress.ip_address ipaddress.ip_network
              sample_registry sample_spawns (default_admin ["addons__name"]) users "  "
              Reference.ip_address_raises Reference.ip_network_raises
              Reference.ip_address_separator Reference.ip_network_separator
              ltac:(discriminate) ltac:(discriminate) eq_refl))).
  left. reflexivity.
Defined.

(** X8: with the search by address switched on, the extra column of the
    list and the search agree on every query that is not empty.  Either
    the query is classified: the column is added and the search is the
    address search; or it is not: the column is left out and the search
    adds no address filter to the annotated query set. *)
Theorem address_column_follows_the_search
    (ip_address : string -> result address)
    (ip_network : string -> result network)
    (registry : string -> options)
    (admin_utils_lookup_spawns_duplicates : options -> string -> bool)
    (self : ModelAdmin) (qs : QuerySet) (search_term : string) :
  raises_ValueError ip_address -> raises_ValueError ip_network ->
  search_by_ip_actions self <> [] -> search_term <> EmptyString ->
  (exists d,
      ip_addresses_and_networks_from_query ip_address ip_network search_term
      = Ok (Some d)
      /\ get_list_display ip_address ip_network self (Some search_term)
         = Ok (list_display self ++ extra_list_display_for_ip_searches self)
      /\ get_search_results ip_address ip_network registry
           admin_utils_lookup_spawns_duplicates self qs search_term
         = Ok (get_queryset_with_related_ips self qs (Some d)))
  \/ (ip_addresses_and_networks_from_query ip_address ip_network search_term
      = Ok None
      /\ get_list_display ip_address ip_network self (Some search_term)
         = Ok (list_display self)
      /\ exists qs' may_have_duplicates added,
           get_search_results ip_address ip_network registry
             admin_utils_lookup_spawns_duplicates self qs search_term
           = Ok (qs', may_have_duplicates)
           /\ ops qs' = ops (with_ip_annotations self qs) ++ added
           /\ ~ In address_filter added).
Proof.
  intros Ha Hn Hact Hs.
  apply StrFacts.nonempty_true in Hs.
  destruct (search_mode ip_address ip_network self search_term Ha Hn)
    as [[_ [d Hcls]] | [Hoff | Hcls]]; [left | contradiction | right].
  - exists d. split; [exact Hcls|]. split.
    + unfold get_list_display. rewrite Hs, Hcls. reflexivity.
    + apply search_by_ip; assumption.
  - split; [exact Hcls|]. split.
    + unfold get_list_display. rewrite Hs, Hcls. reflexivity.
    + destruct (search_not_ip ip_address ip_network registry
                  admin_utils_lookup_spawns_duplicates self qs search_term
                  (or_intror Hcls)) as [qs' [dup [Hr Hshape]]].
      assert (Hbase : keyword_base self qs = with_ip_annotations self qs).
      { unfold keyword_base. apply StrFacts.nonempty_list_true in Hact.
        rewrite Hact. reflexivity. }
      rewrite Hbase in Hshape.
      destruct Hshape as [-> | [o [_ [Ho ->]]]].
      * exists (with_ip_annotations self qs), dup, []. split; [exact Hr|].
        split; [rewrite app_nil_r; reflexivity | intros []].
      * eexists _, dup, [o]. split; [exact Hr|]. split; [reflexivity|].
        intros [E | []]. apply Ho. exact E.
Qed.

(** X8 at an address and at a name. *)
Lemma address_column_follows_the_search_witness :
  get_list_display ipaddress.ip_address ipaddress.ip_network (ip_admin ["email"])
    (Some "10.0.0.1") = Ok ["email"; "known_ip_adresses"]
  /\ get_list_display ipaddress.ip_address ipaddress.ip_network (ip_admin ["email"])
       (Some "alice") = Ok ["email"].
Proof.
  split.
  - destruct (address_column_follows_the_search
                ipaddress.ip_address ipaddress.ip_network sample_registry sample_spawns
                (ip_admin ["email"]) users "10.0.0.1"
                Reference.ip_address_raises Reference.ip_network_raises
                ltac:(discriminate) ltac:(discriminate))
      as [[d [_ [H _]]] | [Hc _]]; [exact H | exfalso].
    vm_compute in Hc. discriminate Hc.
  - destruct (address_column_follows_the_search
                ipaddress.ip_address ipaddress.ip_network sample_registry sample_spawns
                (ip_admin ["email"]) users "alice"
                Reference.ip_address_raises Reference.ip_network_raises
                ltac:(discriminate) ltac:(discriminate))
      as [[d [Hc _]] | [_ [H _]]]; [exfalso | exact H].
    vm_compute in Hc. discriminate Hc.
Defined.

(** X9: [get_list_display] does not look at [search_by_ip_actions].  With
    the search by address switched off, a query that is classified as
    addresses still adds the extra column, while the search adds no
    annotation for it: what it adds to the query set are filters only. *)
Theorem address_column_without_the_search
    (ip_address : string -> result address)
    (ip_network : string -> result network)
    (registry : string -> options)
    (admin_utils_lookup_spawns_duplicates : options -> string -> bool)
    (self : ModelAdmin) (qs : QuerySet) (search_term : string)
    (d : ips_and_networks) :
  search_by_ip_actions self = [] ->
  ip_addresses_and_networks_from_query ip_address ip_network search_term
  = Ok (Some d) ->
  search_term <> EmptyString ->
  get_list_display ip_address ip_network self (Some search_term)
  = Ok (list_display self ++ extra_list_display_for_ip_searches self)
  /\ exists qs' may_have_duplicates added,
       get_search_results ip_address ip_network registry
         admin_utils_lookup_spawns_duplicates self qs search_term
       = Ok (qs', may_have_duplicates)
       /\ ops qs' = ops qs ++ added
       /\ Forall (fun o => is_filter o = true) added.
Proof.
  intros Hoff Hcls Hs. split.
  - unfold get_list_display. apply StrFacts.nonempty_true in Hs.
    rewrite Hs, Hcls. reflexivity.
  - destruct (search_not_ip ip_address ip_network registry
                admin_utils_lookup_spawns_duplicates self qs search_term
                (or_introl Hoff)) as [qs' [dup [Hr Hshape]]].
    assert (Hbase : keyword_base self qs = qs).
    { unfold keyword_base. rewrite Hoff. reflexivity. }
    rewrite Hbase in Hshape.
    destruct Hshape as [-> | [o [Ho [_ ->]]]].
    + exists qs, dup, []. split; [exact Hr|].
      split; [rewrite app_nil_r; reflexivity | constructor].
    + eexists _, dup, [o]. split; [exact Hr|]. split; [reflexivity|].
      constructor; [exact Ho | constructor].
Qed.

(** X9 at the default admin and an address. *)
Lemma address_column_without_the_search_witness :
  get_list_display ipaddress.ip_address ipaddress.ip_network (default_admin ["email"])
    (Some "10.0.0.1") = Ok ["email"; "known_ip_adresses"]
  /\ exists qs' may_have_duplicates added,
       get_search_results ipaddress.ip_address ipaddress.ip_network sample_registry
         sample_spawns (default_admin ["email"]) users "10.0.0.1"
       = Ok (qs', may_have_duplicates)
       /\ ops qs' = ops users ++ added
       /\ Forall (fun o => is_filter o = true) added.
Proof.
  apply (address_column_without_the_search
           ipaddress.ip_address ipaddress.ip_network sample_registry sample_spawns
           (default_admin ["email"]) users "10.0.0.1"
           (IpsAndNetworks [Address 4 167772161 None] [])
           eq_refl eq_refl ltac:(discriminate)).
Defined.

(** X10: a search field that goes through a translation, with
    [localized_string] or [localized_string_clean] among the segments of
    its path, makes every keyword search say that the results may have
    duplicates, whatever lookup is built for the field and whatever Django
    says of it. *)
Theorem search_on_a_translation_may_have_duplicates
    (ip_address : string -> result address)
    (ip_network : string -> result network)
    (registry : string -> options)
    (admin_utils_lookup_spawns_duplicates : options -> string -> bool)
    (self : ModelAdmin) (qs : QuerySet) (search_term field_name : string) :
  not_ip_search ip_address ip_network self search_term ->
  search_term <> EmptyString ->
  is_id_search self search_term = false ->
  In field_name (search_fields self) ->
  names_translation (without_sigil field_name) = true ->
  (exists lookup,
      construct_search registry qs field_name = Ok lookup
      /\ forall opts,
           lookup_spawns_duplicates admin_utils_lookup_spawns_duplicates opts lookup
           = true)
  /\ exists qs',
       get_search_results ip_address ip_network registry
         admin_utils_lookup_spawns_duplicates self qs search_term
       = Ok (qs', true).
Proof.
  intros Hip Hs Hid Hin Htr.
  assert (Hf : search_fields self <> []) by (intros E; rewrite E in Hin; contradiction).
  destruct (search_by_keywords ip_address ip_network registry
              admin_utils_lookup_spawns_duplicates self qs search_term
              Hip Hf Hs Hid) as [orm_lookups [Hm [_ Hr]]].
  destruct (mapM_In _ _ _ _ Hm Hin) as [lookup [Hl Hin']].
  assert (Hspawn : forall opts,
            lookup_spawns_duplicates admin_utils_lookup_spawns_duplicates opts lookup
            = true).
  { intros opts. apply lookup_spawns_duplicates_translation.
    destruct (construct_search_path _ _ _ _ Hl) as [-> | [t [Ht ->]]];
      [exact Htr | apply names_translation_app; assumption]. }
  split; [exists lookup; split; assumption|].
  eexists. rewrite Hr. f_equal. f_equal.
  apply existsb_exists. exists lookup. split; [exact Hin' | apply Hspawn].
Qed.

(** X10 at a search field on the name of the add-ons of a user, of which
    the sample of Django's function only knows that [addons] spawns
    duplicates. *)
Lemma search_on_a_translation_may_have_duplicates_witness :
  (exists lookup,
      construct_search sample_registry users "=name__localized_string" = Ok lookup
      /\ forall opts, lookup_spawns_duplicates sample_spawns opts lookup = true)
  /\ exists qs',
       get_search_results ipaddress.ip_address ipaddress.ip_network sample_registry
         sample_spawns (default_admin ["email"; "=name__localized_string"]) users
         "alice"
       = Ok (qs', true).
Proof.
  apply (search_on_a_translation_may_have_duplicates
           ipaddress.ip_address ipaddress.ip_network sample_registry sample_spawns
           (default_admin ["email"; "=name__localized_string"]) users "alice"
           "=name__localized_string" (or_introl eq_refl)
           ltac:(discriminate) eq_refl (or_intror (or_introl eq_refl)) eq_refl).
Defined.

(** X11: the column of known addresses, for a row that carries the
    annotation, is built without the query on the address log and never
    raises.  The value of the annotation is cut at the commas and the
    pieces are listed, one item each, every distinct piece once and in
    increasing order of the strings.  The list is never empty: when the
    annotation is [None] or the empty string it has one item, with nothing
    in it. *)
Theorem known_ip_adresses_lists_each_address_once
    (sorted_iplog_addresses : result (list string)) (activity_ips : option string) :
  (exists items,
      known_ip_adresses sorted_iplog_addresses (Annotated activity_ips)
      = Ok ("<ul>"
            ++ Str.join EmptyString (map (fun ip => list_item (html.escape ip)) items)
            ++ "</ul>")%string
      /\ strictly_increasing items
      /\ NoDup items
      /\ items <> []
      /\ forall ip,
           In ip items
           <-> In ip (Str.split ","
                        (match activity_ips with Some s => s | None => EmptyString end)))
  /\ known_ip_adresses sorted_iplog_addresses (Annotated None)
     = Ok "<ul><li></li></ul>"
  /\ known_ip_adresses sorted_iplog_addresses (Annotated (Some EmptyString))
     = Ok "<ul><li></li></ul>".
Proof.
  split; [|split; reflexivity].
  set (value := match activity_ips with Some s => s | None => EmptyString end).
  assert (E : match activity_ips with
              | Some s => if Str.nonempty s then s else EmptyString
              | None => EmptyString
              end = value).
  { subst value. destruct activity_ips as [[|c s]|]; reflexivity. }
  destruct (OrderFacts.sorted_set_spec (Str.split "," value)) as [Hinc Hin].
  exists (sorted_set (Str.split "," value)).
  split; [unfold known_ip_adresses; rewrite E; reflexivity|].
  split; [exact Hinc|]. split; [apply OrderFacts.strictly_increasing_NoDup, Hinc|].
  split; [|exact Hin].
  pose proof (StrFacts.split_not_nil "," value) as Hne.
  destruct (Str.split "," value) as [|t ts] eqn:Es; [contradiction|].
  intros Hnil. specialize (Hin t). rewrite Hnil in Hin.
  apply (proj2 Hin). left. reflexivity.
Qed.

(** X12: whatever the addresses are and wherever they come from, the
    annotation or the address log, the column of known addresses is a list
    whose items hold escaped text: between the tags of an item there is no
    ['<'], no ['>'] and no quote.  There is one item for each address. *)
Theorem known_ip_adresses_escapes_the_addresses
    (sorted_iplog_addresses : result (list string)) (obj : attribute)
    (column : string) :
  known_ip_adresses sorted_iplog_addresses obj = Ok column ->
  exists bodies,
    column = ("<ul>" ++ Str.join EmptyString (map list_item bodies) ++ "</ul>")%string
    /\ Forall markup_free bodies
    /\ (obj = Unset ->
        exists addresses,
          sorted_iplog_addresses = Ok addresses
          /\ bodies = map html.escape addresses).
Proof.
  unfold known_ip_adresses.
  match goal with
  | |- bind ?c _ = _ -> _ => destruct c as [ip_addresses|e] eqn:Ec
  end; cbn [bind]; [|discriminate].
  cbv zeta. intros [= <-]. exists (map html.escape ip_addresses).
  split; [rewrite map_map; reflexivity|]. split.
  - apply Forall_forall. intros b Hb. apply in_map_iff in Hb.
    destruct Hb as [ip [<- _]]. apply EscapeFacts.escape_markup_free.
  - intros ->. exists ip_addresses. split; [exact Ec | reflexivity].
Qed.

(** X12 at an annotation with a piece that is markup. *)
Lemma known_ip_adresses_escapes_the_addresses_witness :
  exists bodies,
    "<ul><li>10.0.0.1</li><li>&lt;b&gt;</li></ul>"
    = ("<ul>" ++ Str.join EmptyString (map list_item bodies) ++ "</ul>")%string
    /\ Forall markup_free bodies.
Proof.
  destruct (known_ip_adresses_escapes_the_addresses
              (Raise TypeError) (Annotated (Some "<b>,10.0.0.1"))
              "<ul><li>10.0.0.1</li><li>&lt;b&gt;</li></ul>" eq_refl)
    as [bodies [E [H _]]].
  exists bodies. split; [exact E | exact H].
Defined.

(** X13: the one choice a filter with [FakeChoicesMixin] gives to its
    template.  It is the first choice of the parent class with the entry
    [query_parts] set, its other entries as they were; [next] fails only
    when the parent class has no choice.  The query parts are the search
    query, under the name of the search parameter, when it is not empty,
    and the parameters of the other filters: a parameter the filter
    expects for itself is never among them, every other one is. *)
Theorem fake_choice_carries_the_other_parameters {P : Type}
    (expected_parameters : list string) (super_choices : list (choice P))
    (changelist : ChangeList P) :
  (FakeChoicesMixin.choices expected_parameters super_choices changelist = None
   <-> super_choices = [])
  /\ forall all_choice rest,
       super_choices = all_choice :: rest ->
       exists fake query_parts,
         FakeChoicesMixin.choices expected_parameters super_choices changelist
         = Some [fake]
         /\ getitem "query_parts" fake = Some (CParts query_parts)
         /\ (forall k, k <> "query_parts" -> getitem k fake = getitem k all_choice)
         /\ (forall k s,
                In (k, Query s) query_parts
                <-> k = SEARCH_VAR /\ s = query changelist /\ s <> EmptyString)
         /\ (forall k v,
                In (k, Param v) query_parts
                <-> In (k, v) (get_filters_params changelist)
                    /\ ~ In k expected_parameters).
Proof.
  split.
  - unfold FakeChoicesMixin.choices. cbv zeta.
    destruct super_choices; split; try discriminate; reflexivity.
  - intros all_choice rest ->. unfold FakeChoicesMixin.choices. cbv zeta.
    eexists _, _. split; [reflexivity|].
    split; [apply DictFacts.getitem_setitem_same|].
    split; [intros k Hk; apply DictFacts.getitem_setitem_other; congruence|].
    split.
    + intros k s. rewrite in_app_iff. split.
      * intros [Hin | Hin].
        -- destruct (Str.nonempty (query changelist)) eqn:Hq; [|contradiction].
           destruct Hin as [[= <- <-] | []]. apply StrFacts.nonempty_true in Hq. auto.
        -- apply in_map_iff in Hin. destruct Hin as [kv [Hkv _]]. discriminate Hkv.
      * intros [-> [-> Hs]]. left. apply StrFacts.nonempty_true in Hs.
        rewrite Hs. left. reflexivity.
    + intros k v. rewrite in_app_iff. split.
      * intros [Hin | Hin].
        -- destruct (Str.nonempty (query changelist)); [|contradiction].
           destruct Hin as [Hin | []]. discriminate Hin.
        -- apply in_map_iff in Hin. destruct Hin as [[k' v'] [[= <- <-] Hin]].
           apply filter_In in Hin. destruct Hin as [Hin Hk]. cbn [fst] in Hk.
           split; [exact Hin|]. intros Hex.
           apply negb_true_iff in Hk.
           assert (Ht : existsb (String.eqb k') expected_parameters = true).
           { apply existsb_exists. exists k'. split; [exact Hex | apply String.eqb_refl]. }
           congruence.
      * intros [Hin Hk]. right. apply in_map_iff. exists (k, v).
        split; [reflexivity|]. apply filter_In. split; [exact Hin|].
        cbn [fst]. apply negb_true_iff.
        destruct (existsb (String.eqb k) expected_parameters) eqn:E; [|reflexivity].
        apply existsb_exists in E. destruct E as [x [Hx Hkx]].
        apply String.eqb_eq in Hkx. subst x. contradiction.
Qed.

(** X14: the choice of the date range filter is the choice of
    [FakeChoicesMixin] with the entry [selected] set, its query parts
    untouched.  It is selected exactly when no parameter the filter used
    has a name that is not empty; the values of the parameters play no
    part. *)
Theorem date_range_choice_is_selected_by_names {P : Type}
    (expected_parameters : list string) (used_parameters : dict P)
    (all_choice : choice P) (rest : list (choice P)) (changelist : ChangeList P) :
  exists fake mixin_choice selected,
    FakeChoicesMixin.choices expected_parameters (all_choice :: rest) changelist
    = Some [mixin_choice]
    /\ DateRangeFilter.choices expected_parameters used_parameters
         (all_choice :: rest) changelist
       = Some [fake]
    /\ getitem "selected" fake = Some (CBool selected)
    /\ (selected = true <-> forall k v, In (k, v) used_parameters -> k = EmptyString)
    /\ (forall k, k <> "selected" -> getitem k fake = getitem k mixin_choice)
    /\ getitem "query_parts" fake = getitem "query_parts" mixin_choice.
Proof.
  unfold DateRangeFilter.choices, FakeChoicesMixin.choices. cbv zeta.
  eexists _, _, _. split; [reflexivity|]. split; [reflexivity|].
  split; [apply DictFacts.getitem_setitem_same|].
  split; [|split].
  - rewrite negb_true_iff. split.
    + intros H k v Hin. destruct k as [|c k]; [reflexivity|].
      assert (Ht : existsb (fun kv : string * P => Str.nonempty (fst kv))
                     used_parameters = true).
      { apply existsb_exists. exists (String c k, v). split; [exact Hin | reflexivity]. }
      congruence.
    + intros H.
      destruct (existsb (fun kv : string * P => Str.nonempty (fst kv)) used_parameters)
        eqn:E; [|reflexivity].
      apply existsb_exists in E. destruct E as [[k v] [Hin Hk]].
      rewrite (H k v Hin) in Hk. discriminate Hk.
  - intros k Hk. apply DictFacts.getitem_setitem_other. congruence.
  - apply DictFacts.getitem_setitem_other. discriminate.
Qed.

(** X15: the classification of two queries joined by a comma is made of
    the classifications of the two.  The joined query is an address search
    exactly when both are, and its addresses and networks are then those of
    the first followed by those of the second, nothing being merged or left
    out: an address given twice is there twice. *)
Theorem classification_of_joined_queries
    (ip_address : string -> result address)
    (ip_network : string -> result network) (query1 query2 : string) :
  raises_ValueError ip_address -> raises_ValueError ip_network ->
  exists r1 r2,
    ip_addresses_and_networks_from_query ip_address ip_network query1 = Ok r1
    /\ ip_addresses_and_networks_from_query ip_address ip_network query2 = Ok r2
    /\ ip_addresses_and_networks_from_query ip_address ip_network
         (query1 ++ "," ++ query2)
       = Ok (both r1 r2).
Proof.
  intros Ha Hn. unfold ip_addresses_and_networks_from_query.
  destruct (for_term_in_returns ip_address ip_network Ha Hn (Str.split "," query1) [] [])
    as [r1 H1].
  destruct (for_term_in_returns ip_address ip_network Ha Hn (Str.split "," query2) [] [])
    as [r2 H2].
  exists r1, r2. split; [exact H1|]. split; [exact H2|].
  change (query1 ++ "," ++ query2)%string with (query1 ++ String "," query2)%string.
  rewrite split_app_comma, (for_term_in_app ip_address ip_network Ha Hn), H1.
  destruct r1 as [d1|]; [|reflexivity].
  rewrite (for_term_in_acc ip_address ip_network Ha Hn), H2.
  destruct r2 as [d2|]; reflexivity.
Qed.

(** X15 at an address joined with itself. *)
Lemma classification_of_joined_queries_witness :
  ip_addresses_and_networks_from_query ipaddress.ip_address ipaddress.ip_network
    ("10.0.0.1" ++ "," ++ "10.0.0.1")
  = Ok (Some (IpsAndNetworks [Address 4 167772161 None; Address 4 167772161 None] [])).
Proof.
  destruct (classification_of_joined_queries
              ipaddress.ip_address ipaddress.ip_network "10.0.0.1" "10.0.0.1"
              Reference.ip_address_raises Reference.ip_network_raises)
    as [r1 [r2 [H1 [H2 H]]]].
  rewrite H. vm_compute in H1, H2.
  injection H1 as <-. injection H2 as <-. reflexivity.
Defined.

(** X16: an address search for two queries joined by a comma finds the
    rows of the one and the rows of the other.  When both queries are
    classified, so is the joined query, and the condition built for it
    holds on a row of the address log exactly when the condition of the
    first or the condition of the second holds on it. *)
Theorem joined_address_search_is_a_union
    (ip_address : string -> result address)
    (ip_network : string -> result network)
    (query1 query2 : string) (d1 d2 : ips_and_networks) :
  raises_ValueError ip_address -> raises_ValueError ip_network ->
  ip_addresses_and_networks_from_query ip_address ip_network query1 = Ok (Some d1) ->
  ip_addresses_and_networks_from_query ip_address ip_network query2 = Ok (Some d2) ->
  exists d,
    ip_addresses_and_networks_from_query ip_address ip_network
      (query1 ++ "," ++ query2) = Ok (Some d)
    /\ forall self row,
         holds (search_by_ip_activity_accessor self) row (filtered_condition self d)
         = holds (search_by_ip_activity_accessor self) row (filtered_condition self d1)
           || holds (search_by_ip_activity_accessor self) row
                (filtered_condition self d2).
Proof.
  intros Ha Hn H1 H2.
  pose proof (classified_not_empty ip_address ip_network Ha Hn _ _ H1) as Hne1.
  pose proof (classified_not_empty ip_address ip_network Ha Hn _ _ H2) as Hne2.
  exists (IpsAndNetworks (ips d1 ++ ips d2) (networks d1 ++ networks d2)). split.
  - unfold ip_addresses_and_networks_from_query in *.
    change (query1 ++ "," ++ query2)%string with (query1 ++ String "," query2)%string.
    rewrite split_app_comma, (for_term_in_app ip_address ip_network Ha Hn), H1.
    rewrite (for_term_in_acc ip_address ip_network Ha Hn), H2. reflexivity.
  - intros self row.
    assert (Hne : ips (IpsAndNetworks (ips d1 ++ ips d2) (networks d1 ++ networks d2))
                  <> []
                  \/ networks
                       (IpsAndNetworks (ips d1 ++ ips d2) (networks d1 ++ networks d2))
                     <> []).
    { cbn [ips networks].
      destruct Hne1 as [H | H]; [left | right]; intros E;
        apply app_eq_nil in E; destruct E; contradiction. }
    rewrite (proj2 (holds_filtered_condition self row _ Hne)).
    rewrite (proj2 (holds_filtered_condition self row _ Hne1)).
    rewrite (proj2 (holds_filtered_condition self row _ Hne2)).
    unfold ip_predicate. cbn [ips networks]. rewrite !existsb_app.
    destruct (existsb (same_address (row_address row)) (ips d1));
      destruct (existsb (same_address (row_address row)) (ips d2));
      destruct (existsb (in_block true (row_address row)) (networks d1));
      destruct (existsb (in_block true (row_address row)) (networks d2));
      destruct (existsb (Z.eqb (row_action row)) (search_by_ip_actions self));
      reflexivity.
Qed.

(** X16 at an address joined with a network, on a row of the network. *)
Lemma joined_address_search_is_a_union_witness :
  exists d,
    ip_addresses_and_networks_from_query ipaddress.ip_address ipaddress.ip_network
      ("10.0.0.1" ++ "," ++ "10.0.1.0/24") = Ok (Some d)
    /\ holds "activitylog" (LogRow (Address 4 167772423 None) 1)
         (filtered_condition (ip_admin []) d)
       = true.
Proof.
  destruct (joined_address_search_is_a_union
              ipaddress.ip_address ipaddress.ip_network "10.0.0.1" "10.0.1.0/24"
              (IpsAndNetworks [Address 4 167772161 None] [])
              (IpsAndNetworks [] [Network 4 167772416 24])
              Reference.ip_address_raises Reference.ip_network_raises
              eq_refl eq_refl) as [d [Hcls Hrow]].
  exists d. split; [exact Hcls|].
  exact (eq_trans (Hrow (ip_admin []) (LogRow (Address 4 167772423 None) 1)) eq_refl).
Defined.

(** X17: [get_search_results] raises only what the calls on the query set
    raise.  With [annotate] and [filter] as functions that return a query
    set or raise, every exception that leaves [get_search_results] is of a
    class one of these calls can raise: the classification of the query,
    the construction of the lookups and the two [reduce] raise nothing, on
    any admin, query set and query.  When the methods accept every call,
    the search is the recorded one. *)
Theorem search_raises_what_the_query_set_raises
    (ip_address : string -> result address)
    (ip_network : string -> result network)
    (registry : string -> options)
    (admin_utils_lookup_spawns_duplicates : options -> string -> bool)
    (qs_annotate : list (string * expression) -> QuerySet -> result QuerySet)
    (qs_filter : Q -> QuerySet -> result QuerySet)
    (qs_filter_kw : list (string * value) -> QuerySet -> result QuerySet)
    (classes : list exn)
    (self : ModelAdmin) (qs : QuerySet) (search_term : string) :
  raises_ValueError ip_address -> raises_ValueError ip_network ->
  (forall a q, raises_only classes (qs_annotate a q)) ->
  (forall c q, raises_only classes (qs_filter c q)) ->
  (forall kw q, raises_only classes (qs_filter_kw kw q)) ->
  (forall e,
      Executed.get_search_results ip_address ip_network registry
        admin_utils_lookup_spawns_duplicates qs_annotate qs_filter qs_filter_kw
        self qs search_term = Raise e ->
      existsb (isinstance e) classes = true)
  /\ Executed.get_search_results ip_address ip_network registry
       admin_utils_lookup_spawns_duplicates
       (fun a q => Ok (annotate a q)) (fun c q => Ok (filter c q))
       (fun kw q => Ok (filter_kw kw q)) self qs search_term
     = get_search_results ip_address ip_network registry
         admin_utils_lookup_spawns_duplicates self qs search_term.
Proof.
  intros Ha Hn Hannotate Hfilter Hfilter_kw. split.
  - apply executed_search_raises; assumption.
  - apply executed_search_recorded.
Qed.

(** X17 at the query of one half and three quarters, on an admin with a
    search field and a query set whose id field holds integers: the search
    by id raises [ValueError], the exception of its [filter]. *)
Lemma search_raises_what_the_query_set_raises_witness :
  exists e,
    Executed.get_search_results ipaddress.ip_address ipaddress.ip_network
      sample_registry sample_spawns
      (fun a q => Ok (annotate a q)) (fun c q => Ok (filter c q)) integer_filter_kw
      (default_admin ["email"]) users (one_half ++ "," ++ three_quarters)
    = Raise e
    /\ existsb (isinstance e) [ValueError] = true.
Proof.
  exists ValueError. split; [reflexivity|].
  apply (proj1
           (search_raises_what_the_query_set_raises
              ipaddress.ip_address ipaddress.ip_network sample_registry sample_spawns
              (fun a q => Ok (annotate a q)) (fun c q => Ok (filter c q))
              integer_filter_kw [ValueError]
              (default_admin ["email"]) users (one_half ++ "," ++ three_quarters)
              Reference.ip_address_raises Reference.ip_network_raises
              (fun a q => raises_only_Ok _ _) (fun c q => raises_only_Ok _ _)
              integer_filter_kw_raises)).
  reflexivity.
Defined.
